(** * PiRudderTach: serial link, frame parser, smoother and staleness policy

    A shallow embedding of [Display Screen Code/PiRudderTach.py]: the
    module-level globals become one record, the functions that mutate them
    become computations in a state-and-exception monad, and Python's
    numbers are modelled bit for bit (arbitrary-precision [int] as [Z],
    [float] as IEEE binary64 through Rocq's primitive floats). *)

From Stdlib Require Import ZArith QArith Qabs List String Ascii Bool Lia Lqa.
From Stdlib Require Import Floats.
From Stdlib Require Import DecimalString.
Import ListNotations.

Set Warnings "-inexact-float".
Local Open Scope Z_scope.

(** ** Exceptions and results *)

(** The subclasses of Python's [Exception] that the modelled code can meet. *)
Inductive exn : Type :=
| SerialException      (* pyserial: the device failed or disappeared *)
| OSError
| ValueError           (* int() / float() on a malformed literal *)
| OverflowError        (* an int too large for a float *)
| ZeroDivisionError.

Inductive result (A : Type) : Type :=
| Return (a : A)
| Raise (e : exn).
Arguments Return {A} a.
Arguments Raise {A} e.

Definition rbind {A B : Type} (r : result A) (k : A -> result B) : result B :=
  match r with
  | Return a => k a
  | Raise e => Raise e
  end.

(** ** Python numbers *)

Module PyNum.

(** A value of Python's numeric tower as this program uses it. *)
Inductive num : Type :=
| I (z : Z)        (* int *)
| F (x : float).   (* float *)

(** A rounded binary64 result as a Python float; Python raises
    [OverflowError] where IEEE rounding would give an infinity. *)
Definition checked (r : spec_float) : result float :=
  match r with
  | S754_infinity _ => Raise OverflowError
  | _ => Return (SF2Prim r)
  end.

(** [float(z)] for an int [z]: correctly rounded, half to even. *)
Definition float_of_int (z : Z) : result float :=
  checked (binary_normalize prec emax z 0 false).

Definition to_float (v : num) : result float :=
  match v with
  | I z => float_of_int z
  | F x => Return x
  end.

(** [a / b] on two ints: the correctly rounded quotient. *)
Definition int_true_divide (a b : Z) : result float :=
  match b, a with
  | Z0, _ => Raise ZeroDivisionError
  | Zpos _, Z0 => Return 0%float
  | Zneg _, Z0 => Return (-0)%float
  | Zpos q, Zpos p => checked (SFdiv prec emax (S754_finite false p 0) (S754_finite false q 0))
  | Zpos q, Zneg p => checked (SFdiv prec emax (S754_finite true p 0) (S754_finite false q 0))
  | Zneg q, Zpos p => checked (SFdiv prec emax (S754_finite false p 0) (S754_finite true q 0))
  | Zneg q, Zneg p => checked (SFdiv prec emax (S754_finite true p 0) (S754_finite true q 0))
  end.

(** Binary operators: int with int stays exact, anything else is done in
    binary64 after converting the int operand. *)
Definition arith (fz : Z -> Z -> Z) (ff : float -> float -> float)
           (a b : num) : result num :=
  match a, b with
  | I x, I y => Return (I (fz x y))
  | _, _ =>
      rbind (to_float a) (fun x =>
      rbind (to_float b) (fun y => Return (F (ff x y))))
  end.

Definition add : num -> num -> result num := arith Z.add PrimFloat.add.
Definition sub : num -> num -> result num := arith Z.sub PrimFloat.sub.
Definition mul : num -> num -> result num := arith Z.mul PrimFloat.mul.

(** True division [a / b]. *)
Definition div (a b : num) : result num :=
  match a, b with
  | I x, I y => rbind (int_true_divide x y) (fun q => Return (F q))
  | _, _ =>
      rbind (to_float a) (fun x =>
      rbind (to_float b) (fun y =>
      if PrimFloat.eqb y 0%float then Raise ZeroDivisionError
      else Return (F (PrimFloat.div x y))))
  end.

(** The exact value of a finite float as [m * 2^e], for comparing it with
    an int without rounding. *)
Definition int_eqb_float (z : Z) (x : float) : bool :=
  match Prim2SF x with
  | S754_zero _ => z =? 0
  | S754_finite s m e =>
      let v := if s then Zneg m else Zpos m in
      if 0 <=? e then z =? v * 2 ^ e
      else (v mod 2 ^ (- e) =? 0) && (z =? v / 2 ^ (- e))
  | _ => false
  end.

(** [a == b]. *)
Definition eqb (a b : num) : bool :=
  match a, b with
  | I x, I y => x =? y
  | F x, F y => PrimFloat.eqb x y
  | I x, F y => int_eqb_float x y
  | F x, I y => int_eqb_float y x
  end.

End PyNum.
Import PyNum.

(** [map_value] of the source, over Python numbers. *)
Definition map_value (value in_min in_max out_min out_max : num) : result num :=
  rbind (sub value in_min) (fun a =>
  rbind (sub out_max out_min) (fun b =>
  rbind (mul a b) (fun c =>
  rbind (sub in_max in_min) (fun d =>
  rbind (div c d) (fun q =>
  add q out_min))))).

(** ** Text *)

(** [s.split(sep)] for a one-character separator: every occurrence cuts, so
    the result is never empty and may hold empty fields. *)
Fixpoint split (sep : ascii) (s : string) : list string :=
  match s with
  | EmptyString => [EmptyString]
  | String c s' =>
      if Ascii.eqb c sep then EmptyString :: split sep s'
      else match split sep s' with
           | w :: ws => String c w :: ws
           | [] => [String c EmptyString]
           end
  end.

(** The builtins of Python and pyserial's byte strings that the frame
    reader calls.  The theorems below hold for every implementation of this
    interface; [ascii_builtins] further down is the one used to run the
    model on concrete lines. *)
Class Builtins : Type := {
  bytes_decode : list Byte.byte -> string;  (* raw.decode("utf-8", errors="ignore") *)
  str_strip : string -> string;             (* s.strip() *)
  py_int : string -> result Z;              (* int(s) *)
  py_float : string -> result float;        (* float(s) *)
  format_1f : float -> string               (* f"{x:.1f}" *)
}.

(** Python's builtins on 7-bit text, the alphabet of the wire format. *)
Module AsciiText.

Definition code (c : ascii) : Z := Z.of_N (N_of_ascii c).

(** [str.isspace] below U+0080: TAB..CR, FS..US and the space. *)
Definition is_space (c : ascii) : bool :=
  ((9 <=? code c) && (code c <=? 13)) || ((28 <=? code c) && (code c <=? 32)).

(** What [int] and [float] skip around a literal: TAB..CR and the space. *)
Definition is_blank (c : ascii) : bool :=
  ((9 <=? code c) && (code c <=? 13)) || (code c =? 32).

Fixpoint lstrip (sp : ascii -> bool) (s : string) : string :=
  match s with
  | String c s' => if sp c then lstrip sp s' else s
  | EmptyString => EmptyString
  end.

Fixpoint rstrip (sp : ascii -> bool) (s : string) : string :=
  match s with
  | EmptyString => EmptyString
  | String c s' =>
      match rstrip sp s' with
      | EmptyString => if sp c then EmptyString else String c EmptyString
      | r => String c r
      end
  end.

(** [s.strip()]. *)
Definition strip (s : string) : string := rstrip is_space (lstrip is_space s).

(** The literal inside the blanks around it. *)
Definition unblank (s : string) : string := rstrip is_blank (lstrip is_blank s).

(** Bytes of a 7-bit line.  The wire format is 7-bit; a byte from 0x80 up
    is dropped here, which is what [errors="ignore"] does to it unless it
    is part of a well-formed multi-byte character.  Lines with such
    characters are outside this instance; the theorems stated for every
    [Builtins] do not depend on it. *)
Definition decode (raw : list Byte.byte) : string :=
  string_of_list_byte
    (filter (fun b => (Byte.to_N b <? 128)%N) raw).

Definition digit_of (c : ascii) : option Z :=
  if (48 <=? code c) && (code c <=? 57) then Some (code c - 48) else None.

(** The rest of a [digitpart] (digits, single underscores between them)
    once its first digit is read: value, number of digits, what follows. *)
Fixpoint digits_from (acc : Z) (n : nat) (s : string) : Z * nat * string :=
  match s with
  | String c s' =>
      match digit_of c with
      | Some d => digits_from (10 * acc + d) (S n) s'
      | None =>
          if Ascii.eqb c "_" then
            match s' with
            | String c2 s'' =>
                match digit_of c2 with
                | Some d => digits_from (10 * acc + d) (S n) s''
                | None => (acc, n, s)
                end
            | EmptyString => (acc, n, s)
            end
          else (acc, n, s)
      end
  | EmptyString => (acc, n, s)
  end.

Definition digitpart (s : string) : option (Z * nat * string) :=
  match s with
  | String c s' =>
      match digit_of c with
      | Some d => Some (digits_from d 1 s')
      | None => None
      end
  | EmptyString => None
  end.

(** An optional sign: whether it is a minus, and what follows. *)
Definition sign (s : string) : bool * string :=
  match s with
  | String c s' =>
      if Ascii.eqb c "-" then (true, s')
      else if Ascii.eqb c "+" then (false, s')
      else (false, s)
  | EmptyString => (false, s)
  end.

(** The most digits [int] converts: [sys.get_int_max_str_digits()] as
    CPython 3.11 sets it (so do the later releases of 3.7 to 3.10); a
    longer literal is a [ValueError]. *)
Definition int_max_str_digits : Z := 4300.

(** [int(s)], base 10. *)
Definition int_of_string (s : string) : result Z :=
  let '(neg, body) := sign (unblank s) in
  match digitpart body with
  | Some (v, n, EmptyString) =>
      if int_max_str_digits <? Z.of_nat n then Raise ValueError
      else Return (if neg then - v else v)
  | _ => Raise ValueError
  end.

Definition lower (c : ascii) : ascii :=
  if (65 <=? code c) && (code c <=? 90)
  then ascii_of_N (N_of_ascii c + 32) else c.

Fixpoint lowercase (s : string) : string :=
  match s with
  | String c s' => String (lower c) (lowercase s')
  | EmptyString => EmptyString
  end.

Definition sf_of_pos (neg : bool) (m : Z) : spec_float :=
  match m with
  | Zpos p => S754_finite neg p 0
  | _ => S754_zero neg
  end.

(** The float nearest to [m * 10^e] ([m >= 0]), with the sign [neg]. *)
Definition decimal_to_float (neg : bool) (m e : Z) : float :=
  SF2Prim
    (match m with
     | Z0 => S754_zero neg
     | _ =>
         if 0 <=? e
         then binary_normalize prec emax ((if neg then - m else m) * 10 ^ e) 0 false
         else SFdiv prec emax (sf_of_pos neg m) (sf_of_pos false (10 ^ (- e)))
     end).

(** The exponent part of a float literal: its value and what follows;
    an [e] that no digit follows makes the literal malformed. *)
Definition exponent (s : string) : option (Z * string) :=
  match s with
  | String c s' =>
      if Ascii.eqb (lower c) "e" then
        let '(neg, body) := sign s' in
        match digitpart body with
        | Some (v, _, rest) => Some (if neg then - v else v, rest)
        | None => None
        end
      else Some (0, s)
  | EmptyString => Some (0, s)
  end.

(** The integer and fraction digits of a float literal: mantissa, number
    of fraction digits, what follows; [None] when there is no digit. *)
Definition mantissa (s : string) : option (Z * nat * string) :=
  let '(ip, after_int) :=
    match digitpart s with
    | Some (v, _, rest) => (Some v, rest)
    | None => (None, s)
    end in
  match after_int with
  | String "." s' =>
      match digitpart s', ip with
      | Some (f, n, rest), Some v => Some (v * 10 ^ Z.of_nat n + f, n, rest)
      | Some (f, n, rest), None => Some (f, n, rest)
      | None, Some v => Some (v, O, s')
      | None, None => None
      end
  | _ =>
      match ip with
      | Some v => Some (v, O, after_int)
      | None => None
      end
  end.

(** [float(s)]. *)
Definition float_of_string (s : string) : result float :=
  let '(neg, body) := sign (unblank s) in
  let word := lowercase body in
  if (String.eqb word "inf" || String.eqb word "infinity")%bool
  then Return (if neg then neg_infinity else infinity)
  else if String.eqb word "nan" then Return nan
  else
    match mantissa body with
    | Some (m, n, rest) =>
        match exponent rest with
        | Some (e, EmptyString) => Return (decimal_to_float neg m (e - Z.of_nat n))
        | _ => Raise ValueError
        end
    | None => Raise ValueError
    end.

Definition decimal (z : Z) : string :=
  NilZero.string_of_uint (N.to_uint (Z.to_N z)).

(** [num / den] rounded to the nearest integer, ties to even. *)
Definition round_half_even (num den : Z) : Z :=
  let q := num / den in
  let r := num mod den in
  match 2 * r ?= den with
  | Lt => q
  | Gt => q + 1
  | Eq => if Z.even q then q else q + 1
  end.

(** [f"{x:.1f}"]: the exact value of [x] rounded to one decimal. *)
Definition fixed1 (x : float) : string :=
  match Prim2SF x with
  | S754_nan => "nan"
  | S754_infinity s => if s then "-inf" else "inf"
  | S754_zero s => if s then "-0.0" else "0.0"
  | S754_finite s m e =>
      let n := if 0 <=? e then 10 * Zpos m * 2 ^ e
               else round_half_even (10 * Zpos m) (2 ^ (- e)) in
      ((if s then "-" else "") ++ decimal (n / 10) ++ "." ++ decimal (n mod 10))%string
  end.

End AsciiText.

Definition ascii_builtins : Builtins := {|
  bytes_decode := AsciiText.decode;
  str_strip := AsciiText.strip;
  py_int := AsciiText.int_of_string;
  py_float := AsciiText.float_of_string;
  format_1f := AsciiText.fixed1
|}.

(** ** The module's globals and the outside world *)

(** The identity of a [serial.Serial] object. *)
Definition port : Type := nat.

(** What the program does to the outside world, for the trace. *)
Inductive event : Type :=
| EvOpen (now : float)        (* serial.Serial(SERIAL_PORT, SERIAL_BAUD, timeout=0.05), called at [now] *)
| EvClose (h : port)          (* h.close() *)
| EvPrintOpened               (* print(f"Serial opened: ...") *)
| EvPrintError (e : exn).     (* print("Serial error:", e) *)

Record globals : Type := {
  ser : option port;
  last_serial_try_time : float;
  last_good_frame_time : float;
  rudder_angle : num;
  engine_rpm : num;
  smoothed_engine_rpm : num;
  smoothed_rudder_angle : num;
  shift_indicator : option Z;
  fuel_consumption : option float;
  trace : list event            (* most recent first *)
}.

Definition SERIAL_RETRY_SECONDS : float := 2.0.
Definition DATA_STALE_SECONDS : float := 1.0.

(** The module-level assignments, before the main loop is reached. *)
Definition module_globals : globals := {|
  ser := None;
  last_serial_try_time := 0.0;
  last_good_frame_time := 0.0;
  rudder_angle := I 180;
  engine_rpm := I 3000;
  smoothed_engine_rpm := I 3000;
  smoothed_rudder_angle := I 180;
  shift_indicator := None;
  fuel_consumption := None;
  trace := []
|}.

(** What the device does when the program opens it. *)
Record device : Type := {
  dev_open : result port;     (* serial.Serial(...) *)
  dev_reset : result unit     (* ser.reset_input_buffer() *)
}.

(** What the open port does when the program uses it. *)
Record wire : Type := {
  wire_readline : result (list Byte.byte);   (* ser.readline() *)
  wire_close : result unit                   (* ser.close() *)
}.

(** ** Statements: state and exceptions *)

(** A statement runs on the globals and either completes or raises; what it
    assigned before raising stays assigned. *)
Definition M (A : Type) : Type := globals -> result A * globals.

Definition ret {A : Type} (a : A) : M A := fun g => (Return a, g).

Definition bind {A B : Type} (m : M A) (k : A -> M B) : M B :=
  fun g =>
    match m g with
    | (Return a, g') => k a g'
    | (Raise e, g') => (Raise e, g')
    end.

Definition lift {A : Type} (r : result A) : M A := fun g => (r, g).

Definition gets {A : Type} (f : globals -> A) : M A := fun g => (Return (f g), g).

Definition modify (f : globals -> globals) : M unit := fun g => (Return tt, f g).

(** [try: body except Exception as e: handler e]. *)
Definition try_except {A : Type} (body : M A) (handler : exn -> M A) : M A :=
  fun g =>
    match body g with
    | (Raise e, g') => handler e g'
    | done => done
    end.

Definition exec {A : Type} (m : M A) (g : globals) : globals := snd (m g).

Declare Scope py_scope.
Delimit Scope py_scope with py.
Notation "x <- m ;; k" := (bind m (fun x => k))
  (at level 61, m at next level, right associativity) : py_scope.
Notation "m ;; k" := (bind m (fun _ => k))
  (at level 61, right associativity) : py_scope.
Local Open Scope py_scope.

(** Assignments to the globals. *)
Definition assign_ser (v : option port) : M unit :=
  modify (fun g => {|
    ser := v;
    last_serial_try_time := last_serial_try_time g;
    last_good_frame_time := last_good_frame_time g;
    rudder_angle := rudder_angle g;
    engine_rpm := engine_rpm g;
    smoothed_engine_rpm := smoothed_engine_rpm g;
    smoothed_rudder_angle := smoothed_rudder_angle g;
    shift_indicator := shift_indicator g;
    fuel_consumption := fuel_consumption g;
    trace := trace g |}).

Definition assign_last_serial_try_time (v : float) : M unit :=
  modify (fun g => {|
    ser := ser g;
    last_serial_try_time := v;
    last_good_frame_time := last_good_frame_time g;
    rudder_angle := rudder_angle g;
    engine_rpm := engine_rpm g;
    smoothed_engine_rpm := smoothed_engine_rpm g;
    smoothed_rudder_angle := smoothed_rudder_angle g;
    shift_indicator := shift_indicator g;
    fuel_consumption := fuel_consumption g;
    trace := trace g |}).

Definition assign_last_good_frame_time (v : float) : M unit :=
  modify (fun g => {|
    ser := ser g;
    last_serial_try_time := last_serial_try_time g;
    last_good_frame_time := v;
    rudder_angle := rudder_angle g;
    engine_rpm := engine_rpm g;
    smoothed_engine_rpm := smoothed_engine_rpm g;
    smoothed_rudder_angle := smoothed_rudder_angle g;
    shift_indicator := shift_indicator g;
    fuel_consumption := fuel_consumption g;
    trace := trace g |}).

Definition assign_rudder_angle (v : num) : M unit :=
  modify (fun g => {|
    ser := ser g;
    last_serial_try_time := last_serial_try_time g;
    last_good_frame_time := last_good_frame_time g;
    rudder_angle := v;
    engine_rpm := engine_rpm g;
    smoothed_engine_rpm := smoothed_engine_rpm g;
    smoothed_rudder_angle := smoothed_rudder_angle g;
    shift_indicator := shift_indicator g;
    fuel_consumption := fuel_consumption g;
    trace := trace g |}).

Definition assign_engine_rpm (v : num) : M unit :=
  modify (fun g => {|
    ser := ser g;
    last_serial_try_time := last_serial_try_time g;
    last_good_frame_time := last_good_frame_time g;
    rudder_angle := rudder_angle g;
    engine_rpm := v;
    smoothed_engine_rpm := smoothed_engine_rpm g;
    smoothed_rudder_angle := smoothed_rudder_angle g;
    shift_indicator := shift_indicator g;
    fuel_consumption := fuel_consumption g;
    trace := trace g |}).

Definition assign_smoothed_engine_rpm (v : num) : M unit :=
  modify (fun g => {|
    ser := ser g;
    last_serial_try_time := last_serial_try_time g;
    last_good_frame_time := last_good_frame_time g;
    rudder_angle := rudder_angle g;
    engine_rpm := engine_rpm g;
    smoothed_engine_rpm := v;
    smoothed_rudder_angle := smoothed_rudder_angle g;
    shift_indicator := shift_indicator g;
    fuel_consumption := fuel_consumption g;
    trace := trace g |}).

Definition assign_smoothed_rudder_angle (v : num) : M unit :=
  modify (fun g => {|
    ser := ser g;
    last_serial_try_time := last_serial_try_time g;
    last_good_frame_time := last_good_frame_time g;
    rudder_angle := rudder_angle g;
    engine_rpm := engine_rpm g;
    smoothed_engine_rpm := smoothed_engine_rpm g;
    smoothed_rudder_angle := v;
    shift_indicator := shift_indicator g;
    fuel_consumption := fuel_consumption g;
    trace := trace g |}).

Definition assign_shift_indicator (v : option Z) : M unit :=
  modify (fun g => {|
    ser := ser g;
    last_serial_try_time := last_serial_try_time g;
    last_good_frame_time := last_good_frame_time g;
    rudder_angle := rudder_angle g;
    engine_rpm := engine_rpm g;
    smoothed_engine_rpm := smoothed_engine_rpm g;
    smoothed_rudder_angle := smoothed_rudder_angle g;
    shift_indicator := v;
    fuel_consumption := fuel_consumption g;
    trace := trace g |}).

Definition assign_fuel_consumption (v : option float) : M unit :=
  modify (fun g => {|
    ser := ser g;
    last_serial_try_time := last_serial_try_time g;
    last_good_frame_time := last_good_frame_time g;
    rudder_angle := rudder_angle g;
    engine_rpm := engine_rpm g;
    smoothed_engine_rpm := smoothed_engine_rpm g;
    smoothed_rudder_angle := smoothed_rudder_angle g;
    shift_indicator := shift_indicator g;
    fuel_consumption := v;
    trace := trace g |}).

(** An effect on the outside world, recorded. *)
Definition emit (ev : event) : M unit :=
  modify (fun g => {|
    ser := ser g;
    last_serial_try_time := last_serial_try_time g;
    last_good_frame_time := last_good_frame_time g;
    rudder_angle := rudder_angle g;
    engine_rpm := engine_rpm g;
    smoothed_engine_rpm := smoothed_engine_rpm g;
    smoothed_rudder_angle := smoothed_rudder_angle g;
    shift_indicator := shift_indicator g;
    fuel_consumption := fuel_consumption g;
    trace := ev :: trace g |}).

(** ** The serial link *)

Definition try_open_serial (now : float) (dev : device) : M unit :=
  s <- gets ser ;;
  match s with
  | Some _ => ret tt
  | None =>
      last <- gets last_serial_try_time ;;
      if (now - last <? SERIAL_RETRY_SECONDS)%float then ret tt
      else
        assign_last_serial_try_time now ;;
        try_except
          (emit (EvOpen now) ;;
           h <- lift (dev_open dev) ;;
           assign_ser (Some h) ;;
           lift (dev_reset dev) ;;
           emit EvPrintOpened)
          (fun _ => assign_ser None)
  end.

Definition close_serial (w : wire) : M unit :=
  try_except
    (s <- gets ser ;;
     match s with
     | Some h => emit (EvClose h) ;; lift (wire_close w)
     | None => ret tt
     end)
    (fun _ => ret tt) ;;
  assign_ser None.

Definition set_no_data_state : M unit :=
  assign_smoothed_rudder_angle (I 180) ;;
  assign_smoothed_engine_rpm (I 3000) ;;
  v <- gets smoothed_rudder_angle ;;
  assign_rudder_angle v ;;
  v <- gets smoothed_engine_rpm ;;
  assign_engine_rpm v ;;
  assign_shift_indicator None ;;
  assign_fuel_consumption None.

(** ** The frame parser and smoother *)

Definition alpha : num := F 0.3.

(** [alpha * new + (1 - alpha) * old]. *)
Definition blend (new old : num) : result num :=
  rbind (mul alpha new) (fun a =>
  rbind (sub (I 1) alpha) (fun c =>
  rbind (mul c old) (fun b =>
  add a b))).

Definition field (values : list string) (i : nat) : string :=
  nth i values EmptyString.

(** What one pass of the loop meets: the three clock readings, the device
    and the wire. *)
Record tick_env : Type := {
  clock_open : float;      (* time.monotonic() in try_open_serial *)
  the_device : device;
  the_wire : wire;
  clock_frame : float;     (* time.monotonic() after a full parse *)
  clock_loop : float       (* time.monotonic() in the loop body *)
}.

(** The staleness check of the loop body. *)
Definition check_stale (now : float) : M unit :=
  last <- gets last_good_frame_time ;;
  if (DATA_STALE_SECONDS <? now - last)%float then set_no_data_state
  else ret tt.

(** The two statements before the loop. *)
Definition boot (now : float) : M unit :=
  set_no_data_state ;;
  assign_last_good_frame_time now.

Definition gear_lookup : list (Z * string) :=
  [(1, "R"); (2, "N"); (3, "F")]%string.

(** [d.get(key, default)]; [None] is a key no entry has. *)
Fixpoint dict_get (d : list (Z * string)) (key : option Z) (default : string) : string :=
  match d, key with
  | (k, v) :: d', Some z => if z =? k then v else dict_get d' key default
  | _, _ => default
  end.

Definition gear_letter (g : globals) : string :=
  dict_get gear_lookup (shift_indicator g) "-".

Section Frames.

Context {B : Builtins}.

(** The [try] body of [process_serial_data] from [pot_value = int(values[0])]
    to its end. *)
Definition store_frame (values : list string) (now : float) : M unit :=
  pot_value <- lift (py_int (field values 0)) ;;
  pot_value2 <- lift (py_int (field values 1)) ;;
  gear <- lift (py_int (field values 2)) ;;
  assign_shift_indicator (Some gear) ;;
  fuel <- lift (py_float (field values 3)) ;;
  assign_fuel_consumption (Some fuel) ;;
  new_rudder_angle <- lift (map_value (I pot_value) (I 0) (I 4095) (I 240) (I 120)) ;;
  new_engine_rpm <- lift (map_value (I pot_value2) (I 0) (I 4095) (I 0) (I 6000)) ;;
  old <- gets smoothed_engine_rpm ;;
  (if eqb old (I 0) then assign_smoothed_engine_rpm new_engine_rpm
   else v <- lift (blend new_engine_rpm old) ;;
        assign_smoothed_engine_rpm v) ;;
  old <- gets smoothed_rudder_angle ;;
  (if eqb old (I 0) then assign_smoothed_rudder_angle new_rudder_angle
   else v <- lift (blend new_rudder_angle old) ;;
        assign_smoothed_rudder_angle v) ;;
  v <- gets smoothed_rudder_angle ;;
  assign_rudder_angle v ;;
  v <- gets smoothed_engine_rpm ;;
  assign_engine_rpm v ;;
  assign_last_good_frame_time now.

(** The [try] body of [process_serial_data] from its start: the read and
    the three guards, each early [return] of the source a [ret tt] here. *)
Definition read_frame (w : wire) (now : float) : M unit :=
  raw <- lift (wire_readline w) ;;
  match raw with
  | [] => ret tt
  | _ =>
      let data := str_strip (bytes_decode raw) in
      if String.eqb data "" then ret tt
      else
        let values := split "," data in
        if (List.length values <? 4)%nat then ret tt
        else store_frame values now
  end.

Definition process_serial_data (w : wire) (now : float) : M unit :=
  s <- gets ser ;;
  match s with
  | None => ret tt
  | Some _ =>
      try_except
        (read_frame w now)
        (fun e => emit (EvPrintError e) ;; close_serial w)
  end.

(** ** The two value boxes *)

(** [fuel_str] of [draw_fuel_and_shift_boxes]. *)
Definition fuel_str (g : globals) : string :=
  match fuel_consumption g with
  | Some x => format_1f x
  | None => "-"
  end.

(** ** The main loop *)

(** One pass of [while running], without the drawing. *)
Definition tick (e : tick_env) : M unit :=
  try_open_serial (clock_open e) (the_device e) ;;
  process_serial_data (the_wire e) (clock_frame e) ;;
  check_stale (clock_loop e).

Fixpoint run (envs : list tick_env) : M unit :=
  match envs with
  | [] => ret tt
  | e :: envs' => tick e ;; run envs'
  end.

End Frames.

(** ** Notions the properties are stated with *)

(** The clock readings of the open attempts in a trace, most recent first. *)
Definition open_times (tr : list event) : list float :=
  flat_map (fun ev => match ev with EvOpen t => [t] | _ => [] end) tr.

(** Every attempt comes no sooner than the retry period after the one
    before it, as the program computes the difference. *)
Fixpoint spaced (ts : list float) : Prop :=
  match ts with
  | later :: rest =>
      match rest with
      | earlier :: _ => (later - earlier <? SERIAL_RETRY_SECONDS)%float = false
      | [] => True
      end /\ spaced rest
  | [] => True
  end.

(** The handle an open attempt leaves in [ser]. *)
Definition opened (dev : device) : option port :=
  match dev_open dev, dev_reset dev with
  | Return h, Return _ => Some h
  | _, _ => None
  end.

(** The exact value of a finite float. *)
Definition exact (x : float) : option Q :=
  match Prim2SF x with
  | S754_zero _ => Some 0%Q
  | S754_finite s m e =>
      let v := if s then Zneg m else Zpos m in
      Some (if 0 <=? e then inject_Z (v * 2 ^ e) else Qmake v (Z.to_pos (2 ^ (- e))))
  | _ => None
  end.

(** The trim angle and the RPM of a raw reading, as the frame parser calls
    [map_value]. *)
Definition trim_angle_of (pot_value : Z) : result num :=
  map_value (I pot_value) (I 0) (I 4095) (I 240) (I 120).

Definition rpm_of (pot_value2 : Z) : result num :=
  map_value (I pot_value2) (I 0) (I 4095) (I 0) (I 6000).

(** The straight lines through (0, 240), (4095, 120) and through (0, 0),
    (4095, 6000). *)
Definition trim_line (raw : Z) : Q := (240 - (120 # 4095) * inject_Z raw)%Q.
Definition rpm_line (raw : Z) : Q := ((6000 # 4095) * inject_Z raw)%Q.

Definition within (x : result num) (ideal : Q) (eps : Q) : bool :=
  match x with
  | Return (F v) =>
      match exact v with
      | Some q => Qle_bool (Qabs (q - ideal)) eps
      | None => false
      end
  | _ => false
  end.

(** [p] holds of the [n] integers from [lo] up. *)
Fixpoint all_from (lo : Z) (n : nat) (p : Z -> bool) : bool :=
  match n with
  | O => true
  | S n' => p lo && all_from (lo + 1) n' p
  end.

(** Both maps stay within [eps_angle] and [eps_rpm] of their lines on the
    [n] raw readings from [lo] up. *)
Definition near_lines (lo n : Z) (eps_angle eps_rpm : Q) : bool :=
  all_from lo (Z.to_nat n)
    (fun raw =>
       within (trim_angle_of raw) (trim_line raw) eps_angle &&
       within (rpm_of raw) (rpm_line raw) eps_rpm).

(** What the smoothing step stores for a new mapped value. *)
Definition seed_or_blend (new old : num) : result num :=
  if eqb old (I 0) then Return new else blend new old.

(** A line as [readline] returns it, newline included, and a wire that
    delivers it. *)
Definition line (s : string) : list Byte.byte :=
  list_byte_of_string (s ++ String "010" EmptyString).

Definition good_wire (s : string) : wire :=
  {| wire_readline := Return (line s); wire_close := Return tt |}.

(** The globals after boot at [t0], with an open port [h]. *)
Definition fresh_link (t0 : float) (h : port) : globals :=
  exec (boot t0 ;; assign_ser (Some h)) module_globals.

(** The globals after an open attempt made at [now]. *)
Definition attempt (now : float) (dev : device) (g : globals) : globals := {|
  ser := opened dev;
  last_serial_try_time := now;
  last_good_frame_time := last_good_frame_time g;
  rudder_angle := rudder_angle g;
  engine_rpm := engine_rpm g;
  smoothed_engine_rpm := smoothed_engine_rpm g;
  smoothed_rudder_angle := smoothed_rudder_angle g;
  shift_indicator := shift_indicator g;
  fuel_consumption := fuel_consumption g;
  trace :=
    match opened dev with
    | Some _ => EvPrintOpened :: EvOpen now :: trace g
    | None => EvOpen now :: trace g
    end |}.

(** The globals after the [except] branch of [process_serial_data] ran on a
    port [h] for an exception [e]. *)
Definition dropped (h : port) (e : exn) (g : globals) : globals := {|
  ser := None;
  last_serial_try_time := last_serial_try_time g;
  last_good_frame_time := last_good_frame_time g;
  rudder_angle := rudder_angle g;
  engine_rpm := engine_rpm g;
  smoothed_engine_rpm := smoothed_engine_rpm g;
  smoothed_rudder_angle := smoothed_rudder_angle g;
  shift_indicator := shift_indicator g;
  fuel_consumption := fuel_consumption g;
  trace := EvClose h :: EvPrintError e :: trace g |}.

(** The retry timer agrees with the trace: attempts are spaced, and the
    time of the last one is what the program remembers. *)
Definition link_inv (g : globals) : Prop :=
  spaced (open_times (trace g)) /\
  match open_times (trace g) with
  | t :: _ => last_serial_try_time g = t
  | [] => True
  end.

(** A wire on which the device has gone away. *)
Definition dead_wire : wire :=
  {| wire_readline := Raise SerialException; wire_close := Raise OSError |}.

(** A device that is there, and one that is not. *)
Definition plugged (h : port) : device :=
  {| dev_open := Return h; dev_reset := Return tt |}.

Definition unplugged : device :=
  {| dev_open := Raise SerialException; dev_reset := Return tt |}.

(** A pass of the loop at time [t] with nothing to read. *)
Definition idle_tick (t : float) (dev : device) : tick_env :=
  {| clock_open := t; the_device := dev;
     the_wire := {| wire_readline := Return []; wire_close := Return tt |};
     clock_frame := t; clock_loop := t |}.

(** The stored smoothed values can be used in float arithmetic. *)
Definition usable (g : globals) : bool :=
  match to_float (smoothed_engine_rpm g), to_float (smoothed_rudder_angle g) with
  | Return _, Return _ => true
  | _, _ => false
  end.

(** Neither map of the two raw readings leaves the range of a float. *)
Definition maps_fit (a b : Z) : bool :=
  match trim_angle_of a, rpm_of b with
  | Return _, Return _ => true
  | _, _ => false
  end.

(** Whether a rounded result is an infinity. *)
Definition is_infinity (x : spec_float) : bool :=
  match x with
  | S754_infinity _ => true
  | _ => false
  end.

(** The least magnitude that rounds to an infinity: half a unit in the last
    place above the largest binary64. *)
Definition float_limit : Z := 2 ^ 1024 - 2 ^ 970.

Fixpoint zeros (n : nat) : string :=
  match n with
  | O => EmptyString
  | S n' => String "0" (zeros n')
  end.

(** A well-formed line whose first reading is 10^400. *)
Definition huge_line : string := String "1" (zeros 400 ++ ",0,0,0").

(** A pass of the loop at time [t] on a device that opens as port 1 and
    delivers the line [s]. *)
Definition line_tick (t : float) (s : string) : tick_env :=
  {| clock_open := t; the_device := plugged 1%nat; the_wire := good_wire s;
     clock_frame := t; clock_loop := t |}.

Section FrameNotions.

Context {B : Builtins}.

(** The fields of a received line. *)
Definition frame_fields (raw : list Byte.byte) : list string :=
  split "," (str_strip (bytes_decode raw)).

(** The line has at least four fields and the first four parse. *)
Definition parses (raw : list Byte.byte) (a b gear : Z) (fuel : float) : Prop :=
  raw <> [] /\
  (4 <= List.length (frame_fields raw))%nat /\
  py_int (field (frame_fields raw) 0) = Return a /\
  py_int (field (frame_fields raw) 1) = Return b /\
  py_int (field (frame_fields raw) 2) = Return gear /\
  py_float (field (frame_fields raw) 3) = Return fuel.

(** The frame is taken: whatever the clock reads then becomes the time
    of the last good frame. *)
Definition frame_accepted (w : wire) (g : globals) : Prop :=
  forall now, last_good_frame_time (exec (process_serial_data w now) g) = now.

(** The globals once a frame is taken whole. *)
Definition taken (g : globals) (gear : Z) (fuel : float) (angle rpm : num)
           (now : float) : globals := {|
  ser := ser g;
  last_serial_try_time := last_serial_try_time g;
  last_good_frame_time := now;
  rudder_angle := angle;
  engine_rpm := rpm;
  smoothed_engine_rpm := rpm;
  smoothed_rudder_angle := angle;
  shift_indicator := Some gear;
  fuel_consumption := Some fuel;
  trace := trace g |}.

(** [store_frame] as a decision tree: which step stops it, and with which
    assignments already made. *)
Definition frame_outcome (values : list string) (now : float) (g : globals)
  : result unit * globals :=
  match py_int (field values 0) with
  | Raise e => (Raise e, g)
  | Return a =>
  match py_int (field values 1) with
  | Raise e => (Raise e, g)
  | Return b =>
  match py_int (field values 2) with
  | Raise e => (Raise e, g)
  | Return gear =>
  let g1 := exec (assign_shift_indicator (Some gear)) g in
  match py_float (field values 3) with
  | Raise e => (Raise e, g1)
  | Return fuel =>
  let g2 := exec (assign_fuel_consumption (Some fuel)) g1 in
  match trim_angle_of a with
  | Raise e => (Raise e, g2)
  | Return angle =>
  match rpm_of b with
  | Raise e => (Raise e, g2)
  | Return rpm =>
  match seed_or_blend rpm (smoothed_engine_rpm g) with
  | Raise e => (Raise e, g2)
  | Return sr =>
  match seed_or_blend angle (smoothed_rudder_angle g) with
  | Raise e => (Raise e, exec (assign_smoothed_engine_rpm sr) g2)
  | Return sa => (Return tt, taken g gear fuel sa sr now)
  end end end end end end end end.

End FrameNotions.

(** ** The screen, the gauges and the rest of the loop *)

(** [int(x)] for a float: truncation toward zero. *)
Definition int_of_float (x : float) : result Z :=
  match Prim2SF x with
  | S754_zero _ => Return 0
  | S754_finite s m e =>
      let v := if 0 <=? e then Zpos m * 2 ^ e else Zpos m / 2 ^ (- e) in
      Return (if s then - v else v)
  | S754_infinity _ => Raise OverflowError
  | S754_nan => Raise ValueError
  end.

(** [int(v)]. *)
Definition int_of_num (v : num) : result Z :=
  match v with
  | I z => Return z
  | F x => int_of_float x
  end.

(** What [pygame.display.Info()] reports. *)
Record screen_info : Type := {
  SCREEN_WIDTH : Z;
  SCREEN_HEIGHT : Z
}.

Definition GAUGE_TOP_CENTER (s : screen_info) : Z * Z :=
  (SCREEN_WIDTH s / 2, SCREEN_HEIGHT s / 4 - 15).

Definition GAUGE_BOTTOM_CENTER (s : screen_info) : Z * Z :=
  (SCREEN_WIDTH s / 2, SCREEN_HEIGHT s * 3 / 4 + 15).

Definition smaller_dim (s : screen_info) : Z :=
  Z.min (SCREEN_WIDTH s) (SCREEN_HEIGHT s).

(** [int(smaller_dim * 0.3)]. *)
Definition GAUGE_RADIUS (s : screen_info) : result Z :=
  rbind (mul (I (smaller_dim s)) (F 0.3)) int_of_num.

(** A [pygame.Rect] and the attributes the drawing code reads. *)
Module Rect.

Record t : Type := { x : Z; y : Z; w : Z; h : Z }.

Definition left (r : t) : Z := x r.
Definition right (r : t) : Z := x r + w r.
Definition top (r : t) : Z := y r.
Definition bottom (r : t) : Z := y r + h r.
Definition centerx (r : t) : Z := x r + w r / 2.
Definition centery (r : t) : Z := y r + h r / 2.
Definition center (r : t) : Z * Z := (centerx r, centery r).

End Rect.

(** Where [draw_fuel_and_shift_boxes] puts the two boxes and centres the
    texts in them. *)
Record value_boxes : Type := {
  fuel_rect : Rect.t;
  fuel_text_at : Z * Z;
  gal_label_at : Z * Z;
  hr_label_at : Z * Z;
  shift_rect : Rect.t;
  gear_text_at : Z * Z
}.

Definition draw_fuel_and_shift_boxes (s : screen_info) : value_boxes :=
  let box_width := 180 in
  let box_height := 100 in
  let center_y := (snd (GAUGE_TOP_CENTER s) + snd (GAUGE_BOTTOM_CENTER s)) / 2 in
  let center_x := fst (GAUGE_TOP_CENTER s) in
  let fuel := {| Rect.x := center_x - box_width * 2; Rect.y := center_y - box_height / 2;
                 Rect.w := box_width; Rect.h := box_height |} in
  let shift := {| Rect.x := center_x + box_width; Rect.y := center_y - box_height / 2;
                  Rect.w := box_width; Rect.h := box_height |} in
  {| fuel_rect := fuel;
     fuel_text_at := (Rect.left fuel + box_width / 3, Rect.centery fuel);
     gal_label_at := (Rect.right fuel - 30, Rect.centery fuel - 15);
     hr_label_at := (Rect.right fuel - 30, Rect.centery fuel + 15);
     shift_rect := shift;
     gear_text_at := Rect.center shift |}.

Definition WHITE : Z * Z * Z := (255, 255, 255).

(** [gear_color] of [draw_fuel_and_shift_boxes]. *)
Definition gear_color (g : globals) : Z * Z * Z :=
  match shift_indicator g with
  | Some z => if z =? 2 then (252, 241, 7) else WHITE
  | None => WHITE
  end.

(** [needle_angle] of [draw_rpm_gauge]. *)
Definition needle_angle (rpm_value : num) : result num :=
  map_value rpm_value (I 0) (I 6000) (I 150) (I 390).

Definition major_ticks : list Z := [150; 190; 230; 270; 310; 350; 390].

Definition tick_labels : list string := ["0"; "10"; "20"; "30"; "40"; "50"; "60"]%string.

(** The degrees of the unlabelled ticks of [draw_rpm_gauge]. *)
Definition minor_ticks : list Z := [170; 210; 250; 290; 330; 370].

Definition offset_degrees : Z := -90.

(** The argument of [math.radians] for the needle of [draw_rudder_gauge]. *)
Definition trim_needle_degrees (needle_angle_deg : num) : result num :=
  add needle_angle_deg (I offset_degrees).

(** [list(range(lo, hi, step))]. *)
Definition py_range (lo hi step : Z) : result (list Z) :=
  match step with
  | Z0 => Raise ValueError
  | Zpos _ =>
      let n := if lo <? hi then (hi - lo - 1) / step + 1 else 0 in
      Return (map (fun i => lo + Z.of_nat i * step) (seq 0 (Z.to_nat n)))
  | Zneg _ =>
      let n := if hi <? lo then (lo - hi - 1) / (- step) + 1 else 0 in
      Return (map (fun i => lo + Z.of_nat i * step) (seq 0 (Z.to_nat n)))
  end.

(** The degrees at which [draw_dotted_arc] draws a dot, in order. *)
Definition dotted_arc_degrees (start_deg end_deg step_deg : Z) : result (list Z) :=
  py_range start_deg (end_deg + 1) step_deg.

(** What the loop reads besides the serial port. *)
Inductive pg_event : Type :=
| QUIT
| KEYDOWN (key : Z)
| OTHER.                   (* an event of any other type *)

Definition K_ESCAPE : Z := 27.

Inductive pin_level : Type := LOW | HIGH.

Record pass : Type := {
  pass_events : list pg_event;   (* pygame.event.get() *)
  pass_button : pin_level;       (* GPIO.input(BUTTON_PIN) *)
  pass_env : tick_env
}.

(** Whether the pass leaves [running] false. *)
Definition stops (p : pass) : bool :=
  existsb
    (fun ev => match ev with
               | QUIT => true
               | KEYDOWN key => key =? K_ESCAPE
               | OTHER => false
               end)
    (pass_events p)
  || match pass_button p with LOW => true | HIGH => false end.

(** Successful opens and closes in a trace, and the port in hand. *)
Definition opens (tr : list event) : nat :=
  List.length (filter (fun ev => match ev with EvPrintOpened => true | _ => false end) tr).

Definition closes (tr : list event) : nat :=
  List.length (filter (fun ev => match ev with EvClose _ => true | _ => false end) tr).

Definition held (g : globals) : nat :=
  match ser g with
  | Some _ => 1
  | None => 0
  end.

(** [n] smoothing steps toward the same new value. *)
Fixpoint settle (n : nat) (new old : num) : result num :=
  match n with
  | O => Return old
  | S n' => rbind (seed_or_blend new old) (settle n' new)
  end.

(** One smoothing step and [n] of them on floats, the form [seed_or_blend]
    and [settle] take once the stored value is a float. *)
Definition step_float (new old : float) : float :=
  if (old =? 0)%float then new else (0.3 * new + (1 - 0.3) * old)%float.

Fixpoint settle_float (n : nat) (new old : float) : float :=
  match n with
  | O => old
  | S n' => settle_float n' new (step_float new old)
  end.

(** After [n + 1] frames of the same raw reading from the centred display,
    the smoothed angle is within [eps_angle] and the smoothed RPM within
    [eps_rpm] of the mapped values. *)
Definition settled (n : nat) (eps_angle eps_rpm : Q) (raw : Z) : bool :=
  match trim_angle_of raw, rpm_of raw with
  | Return (F x), Return (F y) =>
      match exact x, exact y with
      | Some qx, Some qy =>
          within (Return (F (settle_float n x (0.3 * x + (1 - 0.3) * 180)%float))) qx eps_angle &&
          within (Return (F (settle_float n y (0.3 * y + (1 - 0.3) * 3000)%float))) qy eps_rpm
      | _, _ => false
      end
  | _, _ => false
  end.

(** The trace accounts for the port: one more successful open than closes
    while a port is held, as many otherwise. *)
Definition balanced (g : globals) : Prop :=
  opens (trace g) = (closes (trace g) + held g)%nat.

(** The two displayed values are the two smoothed values, and these are
    usable. *)
Definition synced (g : globals) : Prop :=
  usable g = true /\
  rudder_angle g = smoothed_rudder_angle g /\
  engine_rpm g = smoothed_engine_rpm g.

(** No port, the no-data display, and nothing done to the outside world
    but open attempts. *)
Definition waiting (g : globals) : Prop :=
  ser g = None /\
  rudder_angle g = I 180 /\ engine_rpm g = I 3000 /\
  smoothed_rudder_angle g = I 180 /\ smoothed_engine_rpm g = I 3000 /\
  shift_indicator g = None /\ fuel_consumption g = None /\
  Forall (fun ev => exists t, ev = EvOpen t) (trace g).

(** A pass in which nothing asks to stop, and one in which the window is
    closed. *)
Definition quiet_pass (e : tick_env) : pass :=
  {| pass_events := [OTHER; KEYDOWN 13]; pass_button := HIGH; pass_env := e |}.

Definition quit_pass (e : tick_env) : pass :=
  {| pass_events := [OTHER; QUIT]; pass_button := HIGH; pass_env := e |}.

(** A portrait panel. *)
Definition portrait : screen_info := {| SCREEN_WIDTH := 480; SCREEN_HEIGHT := 800 |}.

Section LoopNotions.

Context {B : Builtins}.

(** [while running]: the passes given are what the loop meets; the result
    tells whether it ended or the passes ran out with it still running.
    The drawing calls that end each pass are left out: they assign no
    global, so the globals at the end of every pass the script completes
    are those computed here.  An exception raised while drawing is not
    caught by the script and ends it in that pass; the passes after it,
    which [main_loop] goes on to run, are then never reached. *)
Fixpoint main_loop (passes : list pass) : M bool :=
  match passes with
  | [] => ret false
  | p :: rest =>
      tick (pass_env p) ;;
      if stops p then ret true else main_loop rest
  end.

(** From the boot statements to the end of the script; [w] is what the port
    does when it is closed at the end.  Spawning the panel, [pygame.quit]
    and [GPIO.cleanup] leave the globals alone. *)
Definition main (now : float) (passes : list pass) (w : wire) : M bool :=
  boot now ;;
  ended <- main_loop passes ;;
  if ended then close_serial w ;; ret true else ret false.

(** The same line read [n] times over, at the clock readings given. *)
Fixpoint feed (w : wire) (nows : list float) : M unit :=
  match nows with
  | [] => ret tt
  | now :: rest => process_serial_data w now ;; feed w rest
  end.

End LoopNotions.

(** * Properties *)

Arguments map_value : simpl never.
Arguments blend : simpl never.
Arguments PyNum.eqb : simpl never.

(** Linear arithmetic with floor division by constants, and over powers of
    two taken as unknowns. *)
Ltac div_lia := Z.div_mod_to_equations; lia.

Ltac pow_lia :=
  repeat match goal with
         | H : context [2 ^ ?k] |- _ =>
             let x := fresh "pw" in set (x := 2 ^ k) in *; clearbody x
         | |- context [2 ^ ?k] =>
             let x := fresh "pw" in set (x := 2 ^ k) in *; clearbody x
         end;
  lia.

(** ** Running statements *)

Lemma bind_return {A C : Type} (m : M A) (k : A -> M C) (g g' : globals) (a : A) :
  m g = (Return a, g') -> bind m k g = k a g'.
Proof. intros E. unfold bind. rewrite E. reflexivity. Qed.

Lemma completes_eq (m : M unit) (g : globals) :
  fst (m g) = Return tt -> m g = (Return tt, exec m g).
Proof. unfold exec. destruct (m g) as [r g']. simpl. intros ->. reflexivity. Qed.

(** Neither [try_open_serial] nor [close_serial] lets an exception out. *)
Lemma try_open_serial_returns (now : float) (dev : device) (g : globals) :
  fst (try_open_serial now dev g) = Return tt.
Proof.
  unfold try_open_serial, bind, gets, try_except, lift; simpl.
  destruct (ser g); [reflexivity|].
  destruct (now - last_serial_try_time g <? SERIAL_RETRY_SECONDS)%float; [reflexivity|].
  simpl. destruct (dev_open dev); simpl; [|reflexivity].
  destruct (dev_reset dev); reflexivity.
Qed.

Lemma close_serial_returns (w : wire) (g : globals) :
  fst (close_serial w g) = Return tt.
Proof.
  unfold close_serial, bind, gets, try_except, lift; simpl.
  destruct (ser g); simpl; [|reflexivity].
  destruct (wire_close w); reflexivity.
Qed.

Lemma set_no_data_state_eq (g : globals) :
  set_no_data_state g =
  (Return tt,
   {| ser := ser g;
      last_serial_try_time := last_serial_try_time g;
      last_good_frame_time := last_good_frame_time g;
      rudder_angle := I 180;
      engine_rpm := I 3000;
      smoothed_engine_rpm := I 3000;
      smoothed_rudder_angle := I 180;
      shift_indicator := None;
      fuel_consumption := None;
      trace := trace g |}).
Proof. reflexivity. Qed.

(** *** The two linear maps *)

Lemma within_spec (r : result num) (ideal eps : Q) :
  within r ideal eps = true ->
  exists x q, r = Return (F x) /\ exact x = Some q /\ (Qabs (q - ideal) <= eps)%Q.
Proof.
  unfold within. destruct r as [[z|x]|e]; try discriminate.
  destruct (exact x) as [q|] eqn:E; try discriminate.
  intros H. apply Qle_bool_iff in H. exists x, q.
  split; [reflexivity | split; [exact E | exact H]].
Qed.

Lemma all_from_spec (p : Z -> bool) (n : nat) (lo z : Z) :
  all_from lo n p = true -> lo <= z < lo + Z.of_nat n -> p z = true.
Proof.
  revert lo. induction n as [|n IH]; intros lo H R; [lia|].
  cbn [all_from] in H. apply andb_true_iff in H. destruct H as [H0 H1].
  destruct (Z.eq_dec z lo) as [->|N]; [exact H0|].
  apply (IH (lo + 1)); [exact H1|lia].
Qed.

Lemma near_lines_spec (lo n : Z) (ea er : Q) (raw : Z) :
  near_lines lo n ea er = true ->
  lo <= raw < lo + n ->
  within (trim_angle_of raw) (trim_line raw) ea = true /\
  within (rpm_of raw) (rpm_line raw) er = true.
Proof.
  unfold near_lines. intros H R.
  apply andb_true_iff.
  apply (all_from_spec _ _ _ raw H). lia.
Qed.

(** On the range of the converter both maps are within one unit in the
    last place of their lines. *)
Lemma near_lines_in_range : near_lines 0 4096 (1 # 2 ^ 45) (1 # 2 ^ 41) = true.
Proof. vm_cast_no_check (eq_refl true). Qed.

(** The two calls of [map_value] on a raw reading in 0..4095: the line from
    240 at 0 down to 120 at 4095 and the line from 0 at 0 up to 6000 at
    4095, each to within the rounding of binary64 (2^-45 of a degree, 2^-41
    of an RPM); at the four end points the values are exactly 240, 120, 0
    and 6000. *)
Lemma map_value_follows_the_lines (raw : Z) :
  0 <= raw <= 4095 ->
  (exists x q, map_value (I raw) (I 0) (I 4095) (I 240) (I 120) = Return (F x) /\
               exact x = Some q /\
               (Qabs (q - (240 - (120 # 4095) * inject_Z raw)) <= 1 # 2 ^ 45)%Q) /\
  (exists x q, map_value (I raw) (I 0) (I 4095) (I 0) (I 6000) = Return (F x) /\
               exact x = Some q /\
               (Qabs (q - (6000 # 4095) * inject_Z raw) <= 1 # 2 ^ 41)%Q) /\
  map_value (I 0) (I 0) (I 4095) (I 240) (I 120) = Return (F 240) /\
  map_value (I 4095) (I 0) (I 4095) (I 240) (I 120) = Return (F 120) /\
  map_value (I 0) (I 0) (I 4095) (I 0) (I 6000) = Return (F 0) /\
  map_value (I 4095) (I 0) (I 4095) (I 0) (I 6000) = Return (F 6000).
Proof.
  intros R.
  destruct (near_lines_spec 0 4096 _ _ raw near_lines_in_range) as [A P]; [lia|].
  split; [exact (within_spec _ _ _ A)|].
  split; [exact (within_spec _ _ _ P)|].
  repeat split; vm_compute; reflexivity.
Qed.

(** A full range below and a full range above the converter's, both maps
    still follow their lines. *)
Lemma near_lines_around : near_lines (-4096) 12288 (1 # 2 ^ 44) (1 # 2 ^ 40) = true.
Proof. vm_cast_no_check (eq_refl true). Qed.

Lemma small_eps (p : positive) (q ideal : Q) :
  Qle_bool (1 # p) (1 # 100) = true ->
  (Qabs (q - ideal) <= 1 # p)%Q ->
  (ideal - (1 # 100) <= q <= ideal + (1 # 100))%Q.
Proof.
  intros S H. apply Qle_bool_iff in S. apply Qabs_Qle_condition in H.
  destruct H as [H1 H2]. split; lra.
Qed.

(** Readings outside 0..4095 are mapped by the same two lines, which takes
    them outside 120..240 degrees and 0..6000 RPM. *)
Lemma extrapolated (r : Z) :
  -4096 <= r <= 8191 ->
  exists x y qa qr,
    trim_angle_of r = Return (F x) /\ exact x = Some qa /\
    rpm_of r = Return (F y) /\ exact y = Some qr /\
    (Qabs (qa - trim_line r) <= 1 # 2 ^ 44)%Q /\
    (Qabs (qr - rpm_line r) <= 1 # 2 ^ 40)%Q /\
    (r < 0 -> (240 < qa)%Q /\ (qr < 0)%Q) /\
    (4095 < r -> (qa < 120)%Q /\ (6000 < qr)%Q).
Proof.
  intros R.
  destruct (near_lines_spec (-4096) 12288 _ _ r near_lines_around) as [A P]; [lia|].
  destruct (within_spec _ _ _ A) as (x & qa & Ex & Qx & Ba).
  destruct (within_spec _ _ _ P) as (y & qr & Ey & Qy & Br).
  exists x, y, qa, qr. repeat split; try assumption.
  - apply small_eps in Ba; [|reflexivity]. unfold trim_line in Ba.
    assert (Hr : (inject_Z r <= -1)%Q)
      by (change (inject_Z r <= inject_Z (-1))%Q; rewrite <- Zle_Qle; lia).
    lra.
  - apply small_eps in Br; [|reflexivity]. unfold rpm_line in Br.
    assert (Hr : (inject_Z r <= -1)%Q)
      by (change (inject_Z r <= inject_Z (-1))%Q; rewrite <- Zle_Qle; lia).
    lra.
  - apply small_eps in Ba; [|reflexivity]. unfold trim_line in Ba.
    assert (Hr : (4096 <= inject_Z r)%Q)
      by (change (inject_Z 4096 <= inject_Z r)%Q; rewrite <- Zle_Qle; lia).
    lra.
  - apply small_eps in Br; [|reflexivity]. unfold rpm_line in Br.
    assert (Hr : (4096 <= inject_Z r)%Q)
      by (change (inject_Z 4096 <= inject_Z r)%Q; rewrite <- Zle_Qle; lia).
    lra.
Qed.

(** *** The range of a float *)

(** The number of binary digits of a positive number. *)
Lemma digits2_pos_bounds (p : positive) :
  2 ^ (Zpos (digits2_pos p) - 1) <= Zpos p < 2 ^ Zpos (digits2_pos p).
Proof.
  induction p as [p IH|p IH|]; cbn [digits2_pos].
  - rewrite Pos2Z.inj_succ. change (Zpos p~1) with (2 * Zpos p + 1).
    replace (Z.succ (Zpos (digits2_pos p)) - 1) with (Z.succ (Zpos (digits2_pos p) - 1)) by lia.
    rewrite !Z.pow_succ_r by lia. pow_lia.
  - rewrite Pos2Z.inj_succ. change (Zpos p~0) with (2 * Zpos p).
    replace (Z.succ (Zpos (digits2_pos p)) - 1) with (Z.succ (Zpos (digits2_pos p) - 1)) by lia.
    rewrite !Z.pow_succ_r by lia. pow_lia.
  - simpl. lia.
Qed.

Lemma Zdigits2_bounds (m : Z) :
  0 < m -> 0 < Zdigits2 m /\ 2 ^ (Zdigits2 m - 1) <= m < 2 ^ Zdigits2 m.
Proof.
  destruct m as [|p|p]; try lia. intros _.
  split; [reflexivity|]. apply digits2_pos_bounds.
Qed.

Lemma Zdigits2_le (m k : Z) : 0 <= m -> 0 <= k -> m < 2 ^ k -> Zdigits2 m <= k.
Proof.
  intros M K H. destruct (Z.eq_dec m 0) as [->|N]; [exact K|].
  destruct (Zdigits2_bounds m) as [P [L _]]; [lia|].
  destruct (Z_le_gt_dec (Zdigits2 m) k) as [|G]; [assumption|exfalso].
  assert (2 ^ k <= 2 ^ (Zdigits2 m - 1)) by (apply Z.pow_le_mono_r; lia). lia.
Qed.

Lemma Zdigits2_gt (m k : Z) : 0 <= k -> 2 ^ k <= m -> k < Zdigits2 m.
Proof.
  intros K H. assert (0 < 2 ^ k) by (apply Z.pow_pos_nonneg; lia).
  destruct (Zdigits2_bounds m) as [P [_ U]]; [lia|].
  destruct (Z_lt_le_dec k (Zdigits2 m)) as [|G]; [assumption|exfalso].
  assert (2 ^ Zdigits2 m <= 2 ^ k) by (apply Z.pow_le_mono_r; lia). lia.
Qed.

Lemma shr_1_spec (mrs : shr_record) :
  0 <= shr_m mrs ->
  shr_m (shr_1 mrs) = shr_m mrs / 2 /\ shr_r (shr_1 mrs) = Z.odd (shr_m mrs).
Proof.
  destruct mrs as [m r s]. cbn [shr_m]. intros M.
  destruct m as [|[p|p|]|p]; try lia; cbn [shr_1 shr_m shr_r]; split; try reflexivity.
  - change (Zpos p~1) with (2 * Zpos p + 1). div_lia.
  - change (Zpos p~0) with (2 * Zpos p). div_lia.
Qed.

Lemma iter_shr_1 (p : positive) (mrs : shr_record) :
  0 <= shr_m mrs ->
  shr_m (iter_pos shr_1 p mrs) = shr_m mrs / 2 ^ Zpos p /\
  shr_r (iter_pos shr_1 p mrs) = Z.odd (shr_m mrs / 2 ^ (Zpos p - 1)).
Proof.
  revert mrs. induction p as [p IH|p IH|]; intros mrs M; cbn [iter_pos].
  - destruct (shr_1_spec mrs M) as [E1 _].
    assert (M1 : 0 <= shr_m (shr_1 mrs)) by (rewrite E1; apply Z.div_pos; lia).
    destruct (IH _ M1) as [E2 _].
    assert (P : 0 < 2 ^ Zpos p) by (apply Z.pow_pos_nonneg; lia).
    assert (M2 : 0 <= shr_m (iter_pos shr_1 p (shr_1 mrs)))
      by (rewrite E2; apply Z.div_pos; lia).
    destruct (IH _ M2) as [E3 R3].
    rewrite E3, R3, E2, E1.
    assert (P' : 0 < 2 ^ (Zpos p - 1)) by (apply Z.pow_pos_nonneg; lia).
    rewrite !Z.div_div by lia.
    replace (2 ^ Zpos p~1) with (2 * 2 ^ Zpos p * 2 ^ Zpos p)
      by (replace (Zpos p~1) with (1 + Zpos p + Zpos p) by lia;
          rewrite !Z.pow_add_r by lia; reflexivity).
    replace (2 ^ (Zpos p~1 - 1)) with (2 * 2 ^ Zpos p * 2 ^ (Zpos p - 1))
      by (replace (Zpos p~1 - 1) with (1 + Zpos p + (Zpos p - 1)) by lia;
          rewrite !Z.pow_add_r by lia; reflexivity).
    rewrite !Z.mul_assoc. split; reflexivity.
  - assert (P : 0 < 2 ^ Zpos p) by (apply Z.pow_pos_nonneg; lia).
    destruct (IH _ M) as [E2 _].
    assert (M2 : 0 <= shr_m (iter_pos shr_1 p mrs))
      by (rewrite E2; apply Z.div_pos; lia).
    destruct (IH _ M2) as [E3 R3].
    rewrite E3, R3, E2.
    assert (P' : 0 < 2 ^ (Zpos p - 1)) by (apply Z.pow_pos_nonneg; lia).
    rewrite !Z.div_div by lia.
    replace (2 ^ Zpos p~0) with (2 ^ Zpos p * 2 ^ Zpos p)
      by (replace (Zpos p~0) with (Zpos p + Zpos p) by lia;
          rewrite Z.pow_add_r by lia; reflexivity).
    replace (2 ^ (Zpos p~0 - 1)) with (2 ^ Zpos p * 2 ^ (Zpos p - 1))
      by (replace (Zpos p~0 - 1) with (Zpos p + (Zpos p - 1)) by lia;
          rewrite !Z.pow_add_r by lia; reflexivity).
    split; reflexivity.
  - destruct (shr_1_spec mrs M) as [E1 R1]. rewrite E1, R1.
    change (2 ^ (1 - 1)) with 1. rewrite Z.div_1_r. split; reflexivity.
Qed.

Lemma fexp_eq (e : Z) : SpecFloat.fexp prec emax e = Z.max (e - 53) (-1074).
Proof. reflexivity. Qed.

Lemma shr_m_of_loc (m : Z) (l : location) : shr_m (shr_record_of_loc m l) = m.
Proof. destruct l as [|[]]; reflexivity. Qed.

(** One normalising shift: the exponent it reaches, the mantissa it keeps
    and the last bit it drops. *)
Lemma shr_fexp_spec (m e : Z) (l : location) :
  0 <= m ->
  let e' := Z.max e (Z.max (Zdigits2 m + e - 53) (-1074)) in
  exists mrs,
    shr_fexp prec emax m e l = (mrs, e') /\
    shr_m mrs = m / 2 ^ (e' - e) /\
    (e < e' -> shr_r mrs = Z.odd (m / 2 ^ (e' - e - 1))).
Proof.
  intros M e'. unfold shr_fexp. rewrite fexp_eq. fold (Z.max (Zdigits2 m + e - 53) (-1074)).
  set (f := Z.max (Zdigits2 m + e - 53) (-1074)) in *.
  unfold shr. destruct (f - e) as [|p|p] eqn:D.
  - exists (shr_record_of_loc m l). replace e' with e by (unfold e'; lia).
    rewrite shr_m_of_loc, Z.sub_diag, Z.div_1_r. repeat split. lia.
  - exists (iter_pos shr_1 p (shr_record_of_loc m l)).
    replace e' with (e + Zpos p) by (unfold e'; lia).
    destruct (iter_shr_1 p (shr_record_of_loc m l)) as [E R];
      [rewrite shr_m_of_loc; exact M|].
    rewrite shr_m_of_loc in E, R.
    replace (e + Zpos p - e - 1) with (Zpos p - 1) by lia.
    replace (e + Zpos p - e) with (Zpos p) by lia.
    split; [reflexivity|]. split; [exact E|]. intros _. exact R.
  - exists (shr_record_of_loc m l). replace e' with e by (unfold e'; lia).
    rewrite shr_m_of_loc, Z.sub_diag, Z.div_1_r. repeat split. lia.
Qed.

Lemma round_nearest_even_bounds (m : Z) (l : location) :
  m <= round_nearest_even m l <= m + 1.
Proof. destruct l as [|[]]; cbn [round_nearest_even]; try destruct (Z.even m); lia. Qed.

Lemma round_nearest_even_odd (mrs : shr_record) :
  Z.odd (shr_m mrs) = true ->
  round_nearest_even (shr_m mrs) (loc_of_shr_record mrs) =
  if shr_r mrs then shr_m mrs + 1 else shr_m mrs.
Proof.
  destruct mrs as [m r s]. cbn [shr_m shr_r]. intros O.
  destruct r, s; cbn [loc_of_shr_record round_nearest_even]; try reflexivity.
  rewrite <- Z.negb_odd, O. reflexivity.
Qed.

(** What [binary_round_aux] does, in terms of two shifts and one rounding. *)
Lemma binary_round_aux_spec (sx : bool) (m e : Z) (l : location) :
  0 <= m ->
  let e1 := Z.max e (Z.max (Zdigits2 m + e - 53) (-1074)) in
  exists mrs,
    shr_m mrs = m / 2 ^ (e1 - e) /\
    (e < e1 -> shr_r mrs = Z.odd (m / 2 ^ (e1 - e - 1))) /\
    let mr := round_nearest_even (shr_m mrs) (loc_of_shr_record mrs) in
    let e2 := Z.max e1 (Z.max (Zdigits2 mr + e1 - 53) (-1074)) in
    is_infinity (binary_round_aux prec emax sx m e l) =
    (0 <? mr / 2 ^ (e2 - e1)) && negb (e2 <=? 971).
Proof.
  intros M e1.
  destruct (shr_fexp_spec m e l M) as (mrs & E1 & M1 & R1). fold e1 in E1, M1, R1.
  exists mrs. split; [exact M1|]. split; [exact R1|].
  intros mr e2. unfold binary_round_aux. rewrite E1. fold mr.
  assert (P : 0 < 2 ^ (e1 - e)) by (apply Z.pow_pos_nonneg; lia).
  assert (Mr : 0 <= mr).
  { pose proof (round_nearest_even_bounds (shr_m mrs) (loc_of_shr_record mrs)) as B.
    fold mr in B. rewrite M1 in B. pose proof (Z.div_pos m _ M P). lia. }
  destruct (shr_fexp_spec mr e1 loc_Exact Mr) as (mrs2 & E2 & M2 & _). fold e2 in E2, M2.
  rewrite E2, M2.
  assert (P2 : 0 < 2 ^ (e2 - e1)) by (apply Z.pow_pos_nonneg; lia).
  pose proof (Z.div_pos mr _ Mr P2) as Q.
  change (emax - prec) with 971.
  destruct (mr / 2 ^ (e2 - e1)) as [|q|q] eqn:D; try lia; cbn [is_infinity]; try reflexivity.
  destruct (e2 <=? 971); reflexivity.
Qed.

Lemma div_ge_iff (a b q : Z) : 0 < b -> (q <= a / b <-> b * q <= a).
Proof.
  intros B. split; intros H.
  - pose proof (Z.mul_div_le a b B). nia.
  - apply Z.div_le_lower_bound; assumption.
Qed.

Lemma div_lt_iff (a b q : Z) : 0 < b -> (a / b < q <-> a < b * q).
Proof.
  intros B. pose proof (div_ge_iff a b q B). lia.
Qed.

Lemma binary_round_aux_overflows (sx : bool) (m e : Z) (l : location) :
  0 <= m -> e <= 0 ->
  is_infinity (binary_round_aux prec emax sx m e l) = (float_limit * 2 ^ (- e) <=? m).
Proof.
  intros M E.
  destruct (binary_round_aux_spec sx m e l M) as (mrs & M1 & R1 & Hinf).
  cbv zeta in Hinf. rewrite Hinf. clear Hinf.
  set (e1 := Z.max e (Z.max (Zdigits2 m + e - 53) (-1074))) in *.
  set (mr := round_nearest_even (shr_m mrs) (loc_of_shr_record mrs)).
  set (e2 := Z.max e1 (Z.max (Zdigits2 mr + e1 - 53) (-1074))).
  pose proof (round_nearest_even_bounds (shr_m mrs) (loc_of_shr_record mrs)) as B.
  fold mr in B.
  assert (P : 0 < 2 ^ (- e)) by (apply Z.pow_pos_nonneg; lia).
  assert (K : 0 < 2 ^ (e1 - e)) by (apply Z.pow_pos_nonneg; lia).
  assert (M1' : 0 <= shr_m mrs) by (rewrite M1; apply Z.div_pos; lia).
  destruct (Z_lt_le_dec m (2 ^ 1023 * 2 ^ (- e))) as [A|A].
  - (* well below the limit *)
    assert (D : Zdigits2 m <= 1023 - e).
    { apply Zdigits2_le; [lia|lia|].
      replace (1023 - e) with (1023 + - e) by lia. rewrite Z.pow_add_r by lia. exact A. }
    assert (E1 : e <= e1 <= 970) by lia.
    assert (S1 : shr_m mrs < 2 ^ (1023 - e1)).
    { rewrite M1. apply div_lt_iff; [exact K|].
      rewrite <- Z.pow_add_r by lia.
      replace (e1 - e + (1023 - e1)) with (1023 + - e) by lia.
      rewrite Z.pow_add_r by lia. exact A. }
    assert (D2 : Zdigits2 mr <= 1024 - e1).
    { apply Zdigits2_le; [lia|lia|].
      replace (1024 - e1) with (Z.succ (1023 - e1)) by lia.
      rewrite Z.pow_succ_r by lia. lia. }
    assert (E2 : (e2 <=? 971) = true) by (apply Z.leb_le; lia).
    rewrite E2, andb_false_r. symmetry. apply Z.leb_gt. unfold float_limit. lia.
  - destruct (Z_lt_le_dec m (2 ^ 1024 * 2 ^ (- e))) as [C|C].
    + (* the top binade *)
      assert (D : Zdigits2 m = 1024 - e).
      { apply Z.le_antisymm.
        - apply Zdigits2_le; [lia|lia|].
          replace (1024 - e) with (1024 + - e) by lia. rewrite Z.pow_add_r by lia. exact C.
        - cut (1023 - e < Zdigits2 m); [lia|]. apply Zdigits2_gt; [lia|].
          replace (1023 - e) with (1023 + - e) by lia. rewrite Z.pow_add_r by lia. exact A. }
      assert (E1 : e1 = 971) by lia.
      rewrite E1 in *.
      assert (Q : 2 ^ (971 - e) = 2 ^ 971 * 2 ^ (- e))
        by (replace (971 - e) with (971 + - e) by lia; apply Z.pow_add_r; lia).
      assert (Q' : 2 ^ (971 - e - 1) = 2 ^ 970 * 2 ^ (- e))
        by (replace (971 - e - 1) with (970 + - e) by lia; apply Z.pow_add_r; lia).
      rewrite Q in M1. rewrite Q' in R1. specialize (R1 ltac:(lia)).
      set (h := m / (2 ^ 970 * 2 ^ (- e))) in *.
      assert (H2 : shr_m mrs = h / 2).
      { rewrite M1. unfold h. rewrite Z.div_div by lia.
        f_equal. lia. }
      assert (Hlo : 2 ^ 53 <= h) by (apply div_ge_iff; lia).
      assert (Hhi : h < 2 ^ 54) by (apply div_lt_iff; lia).
      assert (S1 : 2 ^ 52 <= shr_m mrs < 2 ^ 53) by (rewrite H2; div_lia).
      destruct (Z_lt_le_dec h (2 ^ 54 - 1)) as [L|L].
      * (* the rounded mantissa keeps 53 bits *)
        assert (Mr : mr < 2 ^ 53).
        { destruct (Z.eq_dec h (2 ^ 54 - 2)) as [Eh|Nh].
          - unfold mr. rewrite round_nearest_even_odd.
            + rewrite R1, Eh. change (Z.odd (2 ^ 54 - 2)) with false. cbv iota. lia.
            + rewrite H2, Eh. reflexivity.
          - assert (shr_m mrs < 2 ^ 53 - 1) by (rewrite H2; div_lia). lia. }
        assert (D2 : Zdigits2 mr <= 53) by (apply Zdigits2_le; lia).
        assert (E2 : (e2 <=? 971) = true) by (apply Z.leb_le; lia).
        rewrite E2, andb_false_r. symmetry. apply Z.leb_gt.
        assert (m < (2 ^ 970 * 2 ^ (- e)) * (2 ^ 54 - 1)) by (apply div_lt_iff; [lia|exact L]).
        unfold float_limit. lia.
      * (* it carries into a 54th bit *)
        assert (Eh : h = 2 ^ 54 - 1) by lia.
        assert (Mr : mr = 2 ^ 53).
        { unfold mr. rewrite round_nearest_even_odd.
          - rewrite R1, H2, Eh. reflexivity.
          - rewrite H2, Eh. reflexivity. }
        assert (E2 : e2 = 972).
        { unfold e2. rewrite Mr. change (Zdigits2 (2 ^ 53)) with 54. lia. }
        rewrite E2, Mr. change (0 <? 2 ^ 53 / 2 ^ (972 - 971)) with true.
        change (negb (972 <=? 971)) with true. cbn [andb].
        symmetry. apply Z.leb_le.
        assert ((2 ^ 970 * 2 ^ (- e)) * (2 ^ 54 - 1) <= m) by (apply div_ge_iff; [lia|exact L]).
        unfold float_limit. lia.
    + (* beyond every binary64 *)
      destruct (Zdigits2_bounds m) as (D0 & Dlo & Dhi); [lia|].
      assert (D : 1024 - e < Zdigits2 m).
      { apply Zdigits2_gt; [lia|].
        replace (1024 - e) with (1024 + - e) by lia. rewrite Z.pow_add_r by lia. exact C. }
      assert (E1 : e1 = Zdigits2 m + e - 53) by lia.
      assert (Q : 2 ^ (Zdigits2 m - 1) = 2 ^ (e1 - e) * 2 ^ 52).
      { rewrite <- Z.pow_add_r by lia. f_equal. lia. }
      assert (Q2 : 2 ^ Zdigits2 m = 2 ^ (e1 - e) * 2 ^ 53).
      { rewrite <- Z.pow_add_r by lia. f_equal. lia. }
      assert (S1 : 2 ^ 52 <= shr_m mrs < 2 ^ 53).
      { rewrite M1. split; [apply div_ge_iff|apply div_lt_iff]; lia. }
      assert (D2 : Zdigits2 mr <= 54) by (apply Zdigits2_le; lia).
      assert (E2 : e1 <= e2 <= e1 + 1) by lia.
      assert (E2' : (e2 <=? 971) = false) by (apply Z.leb_gt; lia).
      rewrite E2'. cbn [negb]. rewrite andb_true_r.
      assert (Pos : 0 < mr / 2 ^ (e2 - e1)).
      { apply Z.div_str_pos. split; [apply Z.pow_pos_nonneg; lia|].
        apply Z.le_trans with (2 ^ 1); [apply Z.pow_le_mono_r; lia|]. lia. }
      apply Z.ltb_lt in Pos. rewrite Pos. symmetry. apply Z.leb_le.
      unfold float_limit. lia.
Qed.

(** A quotient of two integers rounds to an infinity exactly from
    [float_limit] times the divisor on. *)
Lemma SFdiv_overflows (sx sy : bool) (p d : positive) :
  is_infinity (SFdiv prec emax (S754_finite sx p 0) (S754_finite sy d 0)) =
  (Zpos d * float_limit <=? Zpos p).
Proof.
  unfold SFdiv, SFdiv_core_binary.
  set (e' := Z.min _ _).
  assert (E : e' <= 0) by (unfold e'; change (0 - 0) with 0; lia).
  replace (0 - 0 - e') with (- e') by lia.
  set (m' := match - e' with Z0 => Zpos p | Zpos _ => Z.shiftl (Zpos p) (- e') | Zneg _ => 0 end).
  assert (Em : m' = Zpos p * 2 ^ (- e')).
  { unfold m'. destruct (- e') as [|k|k] eqn:N; [|apply Z.shiftl_mul_pow2|]; lia. }
  assert (P : 0 < 2 ^ (- e')) by (apply Z.pow_pos_nonneg; lia).
  destruct (Z.div_eucl m' (Zpos d)) as [q r] eqn:Q.
  assert (Eq : q = m' / Zpos d) by (unfold Z.div; rewrite Q; reflexivity).
  assert (Q0 : 0 <= q) by (rewrite Eq; apply Z.div_pos; lia).
  rewrite binary_round_aux_overflows by assumption.
  destruct (Z.leb_spec (Zpos d * float_limit) (Zpos p)) as [L|L].
  - apply Z.leb_le. rewrite Eq. apply div_ge_iff; [lia|]. rewrite Em. nia.
  - apply Z.leb_gt. rewrite Eq. apply div_lt_iff; [lia|]. rewrite Em. nia.
Qed.

Lemma checked_eq (r : spec_float) :
  checked r = if is_infinity r then Raise OverflowError else Return (SF2Prim r).
Proof. destruct r; reflexivity. Qed.

(** [a / d] on ints raises [OverflowError] exactly from [float_limit] times
    the divisor on. *)
Lemma int_true_divide_overflows (a : Z) (d : positive) :
  Zpos d * float_limit <= Z.abs a -> int_true_divide a (Zpos d) = Raise OverflowError.
Proof.
  assert (L : 0 < float_limit) by reflexivity.
  intros H. destruct a as [|p|p]; cbn [int_true_divide]; [lia| |];
    rewrite checked_eq, SFdiv_overflows;
    (replace (Zpos d * float_limit <=? Zpos p) with true
      by (symmetry; apply Z.leb_le; lia)); reflexivity.
Qed.

Lemma int_true_divide_returns (a : Z) (d : positive) :
  Z.abs a < Zpos d * float_limit -> exists q, int_true_divide a (Zpos d) = Return q.
Proof.
  intros H. destruct a as [|p|p]; cbn [int_true_divide]; [eauto| |];
    rewrite checked_eq, SFdiv_overflows;
    (replace (Zpos d * float_limit <=? Zpos p) with false
      by (symmetry; apply Z.leb_gt; lia)); eauto.
Qed.

(** The two maps of the frame parser, step by step: the product is exact,
    the quotient is rounded once, the sum once more. *)
Lemma trim_angle_of_eq (a : Z) :
  trim_angle_of a =
  rbind (int_true_divide (a * -120) 4095) (fun q => Return (F (q + 240))).
Proof.
  unfold trim_angle_of. cbv [map_value sub mul div add arith rbind to_float].
  rewrite Z.sub_0_r. change (120 - 240) with (-120). change (4095 - 0) with 4095.
  destruct (int_true_divide (a * -120) 4095); reflexivity.
Qed.

Lemma rpm_of_eq (b : Z) :
  rpm_of b =
  rbind (int_true_divide (b * 6000) 4095) (fun q => Return (F (q + 0))).
Proof.
  unfold rpm_of. cbv [map_value sub mul div add arith rbind to_float].
  rewrite Z.sub_0_r. change (6000 - 0) with 6000. change (4095 - 0) with 4095.
  destruct (int_true_divide (b * 6000) 4095); reflexivity.
Qed.

Lemma trim_angle_of_range (a : Z) :
  (120 * Z.abs a < 4095 * float_limit ->
   exists q, int_true_divide (a * -120) 4095 = Return q /\
             trim_angle_of a = Return (F (q + 240))) /\
  (4095 * float_limit <= 120 * Z.abs a -> trim_angle_of a = Raise OverflowError).
Proof.
  rewrite trim_angle_of_eq. split; intros H.
  - destruct (int_true_divide_returns (a * -120) 4095) as [q E]; [lia|].
    exists q. rewrite E. split; reflexivity.
  - rewrite int_true_divide_overflows by lia. reflexivity.
Qed.

Lemma rpm_of_range (b : Z) :
  (6000 * Z.abs b < 4095 * float_limit ->
   exists q, int_true_divide (b * 6000) 4095 = Return q /\
             rpm_of b = Return (F (q + 0))) /\
  (4095 * float_limit <= 6000 * Z.abs b -> rpm_of b = Raise OverflowError).
Proof.
  rewrite rpm_of_eq. split; intros H.
  - destruct (int_true_divide_returns (b * 6000) 4095) as [q E]; [lia|].
    exists q. rewrite E. split; reflexivity.
  - rewrite int_true_divide_overflows by lia. reflexivity.
Qed.

Lemma maps_fit_iff (a b : Z) :
  maps_fit a b = true <->
  120 * Z.abs a < 4095 * float_limit /\ 6000 * Z.abs b < 4095 * float_limit.
Proof.
  unfold maps_fit.
  destruct (trim_angle_of_range a) as [Ta Oa], (rpm_of_range b) as [Tb Ob].
  split.
  - intros H. split.
    + destruct (Z_lt_le_dec (120 * Z.abs a) (4095 * float_limit)) as [|G]; [assumption|].
      rewrite (Oa G) in H. discriminate.
    + destruct (Z_lt_le_dec (6000 * Z.abs b) (4095 * float_limit)) as [|G]; [assumption|].
      rewrite (Ob G) in H. destruct (trim_angle_of a); discriminate.
  - intros [Ha Hb]. destruct (Ta Ha) as (qa & _ & ->), (Tb Hb) as (qb & _ & ->).
    reflexivity.
Qed.

(** *** The value of a rounded result *)

(** The result of [binary_round_aux], in terms of two shifts and one rounding. *)
Lemma binary_round_aux_eq (sx : bool) (m e : Z) (l : location) :
  0 <= m ->
  let e1 := Z.max e (Z.max (Zdigits2 m + e - 53) (-1074)) in
  exists mrs,
    shr_m mrs = m / 2 ^ (e1 - e) /\
    let mr := round_nearest_even (shr_m mrs) (loc_of_shr_record mrs) in
    let e2 := Z.max e1 (Z.max (Zdigits2 mr + e1 - 53) (-1074)) in
    binary_round_aux prec emax sx m e l =
    match mr / 2 ^ (e2 - e1) with
    | Z0 => S754_zero sx
    | Zpos m2 => if e2 <=? 971 then S754_finite sx m2 e2 else S754_infinity sx
    | Zneg _ => S754_nan
    end.
Proof.
  intros M e1.
  destruct (shr_fexp_spec m e l M) as (mrs & E1 & M1 & R1). fold e1 in E1, M1, R1.
  exists mrs. split; [exact M1|].
  intros mr e2. unfold binary_round_aux. rewrite E1. fold mr.
  assert (P : 0 < 2 ^ (e1 - e)) by (apply Z.pow_pos_nonneg; lia).
  assert (Mr : 0 <= mr).
  { pose proof (round_nearest_even_bounds (shr_m mrs) (loc_of_shr_record mrs)) as B.
    fold mr in B. rewrite M1 in B. pose proof (Z.div_pos m _ M P). lia. }
  destruct (shr_fexp_spec mr e1 loc_Exact Mr) as (mrs2 & E2 & M2 & _). fold e2 in E2, M2.
  rewrite E2, M2. reflexivity.
Qed.

(** A mantissa of at least 53 bits, in the normal range and below the
    limit, rounds to a valid finite float within one unit in the last
    place. *)
Lemma binary_round_aux_normal (sx : bool) (m e : Z) (l : location) :
  2 ^ 52 <= m -> -1074 <= e <= 0 -> m < float_limit * 2 ^ (- e) ->
  exists m2 e2 c k,
    binary_round_aux prec emax sx m e l = S754_finite sx m2 e2 /\
    valid_binary (S754_finite sx m2 e2) = true /\
    e <= e2 /\ 0 <= k /\ 2 ^ 52 <= c /\
    c * 2 ^ k <= m < (c + 1) * 2 ^ k /\
    c * 2 ^ k <= Zpos m2 * 2 ^ (e2 - e) <= (c + 1) * 2 ^ k.
Proof.
  intros M E Lim.
  assert (M0 : 0 <= m) by lia.
  pose proof (binary_round_aux_overflows sx m e l M0 ltac:(lia)) as Ov.
  replace (float_limit * 2 ^ (- e) <=? m) with false in Ov
    by (symmetry; apply Z.leb_gt; exact Lim).
  destruct (binary_round_aux_eq sx m e l M0) as (mrs & M1 & Eq).
  cbv zeta in Eq.
  destruct (Zdigits2_bounds m) as (D0 & Dlo & Dhi); [lia|].
  assert (D : 53 <= Zdigits2 m).
  { cut (52 < Zdigits2 m); [lia|]. apply Zdigits2_gt; lia. }
  set (e1 := Z.max e (Z.max (Zdigits2 m + e - 53) (-1074))) in *.
  assert (E1 : e1 = Zdigits2 m + e - 53) by lia.
  set (k := Zdigits2 m - 53).
  assert (K : e1 - e = k) by (unfold k; lia).
  rewrite K in M1.
  assert (Pk : 0 < 2 ^ k) by (apply Z.pow_pos_nonneg; unfold k; lia).
  assert (Q : 2 ^ (Zdigits2 m - 1) = 2 ^ k * 2 ^ 52).
  { rewrite <- Z.pow_add_r by (unfold k; lia). f_equal. unfold k. lia. }
  assert (Q2 : 2 ^ Zdigits2 m = 2 ^ k * 2 ^ 53).
  { rewrite <- Z.pow_add_r by (unfold k; lia). f_equal. unfold k. lia. }
  set (c := shr_m mrs) in *.
  assert (C : 2 ^ 52 <= c < 2 ^ 53).
  { rewrite M1. split; [apply div_ge_iff|apply div_lt_iff]; lia. }
  assert (Cm : c * 2 ^ k <= m < (c + 1) * 2 ^ k).
  { rewrite M1. pose proof (Z.mul_div_le m _ Pk). pose proof (Z.mul_succ_div_gt m _ Pk). lia. }
  set (mr := round_nearest_even c (loc_of_shr_record mrs)) in *.
  pose proof (round_nearest_even_bounds c (loc_of_shr_record mrs)) as B. fold mr in B.
  set (e2 := Z.max e1 (Z.max (Zdigits2 mr + e1 - 53) (-1074))) in *.
  destruct (Z_lt_le_dec mr (2 ^ 53)) as [Lt|Ge].
  - (* no carry *)
    assert (D2 : Zdigits2 mr = 53).
    { apply Z.le_antisymm; [apply Zdigits2_le; lia|].
      cut (52 < Zdigits2 mr); [lia|]. apply Zdigits2_gt; lia. }
    assert (E2 : e2 = e1) by lia.
    rewrite E2, Z.sub_diag, Z.div_1_r in Eq.
    destruct mr as [|m2|m2] eqn:Hmr; try lia.
    destruct (e1 <=? 971) eqn:Le.
    + exists m2, e1, c, k. split; [exact Eq|].
      split.
      { cbn [valid_binary]. unfold bounded, canonical_mantissa.
        change (Zpos (digits2_pos m2)) with (Zdigits2 (Zpos m2)).
        rewrite D2, fexp_eq. apply andb_true_intro. split.
        - apply Z.eqb_eq. lia.
        - exact Le. }
      rewrite K. repeat split; lia || nia.
    + rewrite Eq in Ov. discriminate.
  - (* a carry into a 54th bit *)
    assert (Hmr : mr = 2 ^ 53) by lia.
    assert (E2 : e2 = e1 + 1).
    { unfold e2. rewrite Hmr. change (Zdigits2 (2 ^ 53)) with 54. lia. }
    rewrite E2, Hmr in Eq. replace (e1 + 1 - e1) with 1 in Eq by lia.
    change (2 ^ 53 / 2 ^ 1) with (Zpos (4503599627370496)) in Eq.
    destruct (e1 + 1 <=? 971) eqn:Le.
    + exists 4503599627370496%positive, (e1 + 1), c, k. split; [exact Eq|].
      split.
      { cbn [valid_binary]. unfold bounded, canonical_mantissa.
        change (Zpos (digits2_pos 4503599627370496)) with 53.
        rewrite fexp_eq. apply andb_true_intro. split.
        - apply Z.eqb_eq. lia.
        - exact Le. }
      replace (e1 + 1 - e) with (1 + k) by lia.
      rewrite Z.pow_add_r by lia. change (2 ^ 1) with 2.
      change (Zpos 4503599627370496) with (2 ^ 52).
      repeat split; lia || nia.
    + rewrite Eq in Ov. discriminate.
Qed.

(** The quotient of a positive integer by 4095, below the limit: a valid
    finite float within one unit in the last place of the exact quotient. *)
Lemma SFdiv_normal (s : bool) (p : positive) :
  Zpos p < 4095 * float_limit ->
  exists m2 e2 e' c k,
    SFdiv prec emax (S754_finite s p 0) (S754_finite false 4095 0) = S754_finite s m2 e2 /\
    valid_binary (S754_finite s m2 e2) = true /\
    -64 <= e' <= 0 /\ e' <= e2 /\ 0 <= k /\ 2 ^ 52 <= c /\
    4095 * (c * 2 ^ k) <= Zpos p * 2 ^ (- e') < 4095 * ((c + 1) * 2 ^ k) /\
    c * 2 ^ k <= Zpos m2 * 2 ^ (e2 - e') <= (c + 1) * 2 ^ k.
Proof.
  intros Lim. unfold SFdiv, SFdiv_core_binary. rewrite xorb_false_r.
  change (Zdigits2 4095) with 12. rewrite fexp_eq.
  destruct (Zdigits2_bounds (Zpos p)) as (D0 & Dlo & Dhi); [lia|].
  set (d1 := Zdigits2 (Zpos p)) in *.
  set (e' := Z.min _ _).
  assert (E : e' = Z.min (d1 - 65) 0) by (unfold e'; lia).
  clearbody e'.
  assert (E' : -64 <= e' <= 0) by lia.
  replace (0 - 0 - e') with (- e') by lia.
  set (m' := match - e' with Z0 => Zpos p | Zpos _ => Z.shiftl (Zpos p) (- e') | Zneg _ => 0 end).
  assert (Em : m' = Zpos p * 2 ^ (- e')).
  { unfold m'. destruct (- e') as [|j|j] eqn:N; [|apply Z.shiftl_mul_pow2|]; lia. }
  clearbody m'.
  assert (P : 0 < 2 ^ (- e')) by (apply Z.pow_pos_nonneg; lia).
  destruct (Z.div_eucl m' 4095) as [q r] eqn:Q.
  assert (Eq : q = m' / 4095) by (unfold Z.div; rewrite Q; reflexivity).
  assert (Big : 2 ^ 64 <= m').
  { rewrite Em. destruct (Z_le_gt_dec d1 65) as [Le|Gt].
    - replace (- e') with (65 - d1) by lia.
      apply Z.le_trans with (2 ^ (d1 - 1) * 2 ^ (65 - d1)).
      + rewrite <- Z.pow_add_r by lia. replace (d1 - 1 + (65 - d1)) with 64 by lia. lia.
      + apply Z.mul_le_mono_nonneg_r; [lia|exact Dlo].
    - replace (- e') with 0 by lia. rewrite Z.mul_1_r.
      apply Z.le_trans with (2 ^ (d1 - 1)); [|exact Dlo].
      apply Z.pow_le_mono_r; lia. }
  assert (Q52 : 2 ^ 52 <= q) by (rewrite Eq; apply div_ge_iff; lia).
  assert (QL : q < float_limit * 2 ^ (- e')).
  { rewrite Eq. apply div_lt_iff; [lia|]. rewrite Em. nia. }
  destruct (binary_round_aux_normal s q e' (new_location 4095 r) Q52 ltac:(lia) QL)
    as (m2 & e2 & c & k & R & V & E2 & K & C & Cq & Cw).
  exists m2, e2, e', c, k.
  split; [exact R|]. split; [exact V|]. split; [exact E'|]. split; [exact E2|].
  split; [exact K|]. split; [exact C|]. split; [|exact Cw].
  rewrite <- Em.
  pose proof (Z.mul_div_le m' 4095 ltac:(lia)).
  pose proof (Z.mul_succ_div_gt m' 4095 ltac:(lia)).
  rewrite <- Eq in *. lia.
Qed.

Local Open Scope Q_scope.

(** The exact value of a finite float, over any common denominator. *)
Lemma exact_finite (x : float) (s : bool) (m : positive) (e n : Z) :
  Prim2SF x = S754_finite s m e -> (0 <= n)%Z -> (0 <= e + n)%Z ->
  exists q, exact x = Some q /\
            q == cond_Zopp s (Zpos m * 2 ^ (e + n)) # Z.to_pos (2 ^ n).
Proof.
  intros H N EN. unfold exact. rewrite H.
  assert (Pn : (0 < 2 ^ n)%Z) by (apply Z.pow_pos_nonneg; lia).
  eexists. split; [reflexivity|].
  destruct (0 <=? e)%Z eqn:Le.
  - apply Z.leb_le in Le. unfold Qeq. cbn [Qnum Qden inject_Z].
    rewrite Z2Pos.id by exact Pn. rewrite Z.pow_add_r by lia.
    destruct s; cbn [cond_Zopp]; change (Zneg m) with (- Zpos m)%Z; ring.
  - apply Z.leb_gt in Le. unfold Qeq. cbn [Qnum Qden].
    assert (Pe : (0 < 2 ^ (- e))%Z) by (apply Z.pow_pos_nonneg; lia).
    rewrite !Z2Pos.id by assumption.
    replace (2 ^ n)%Z with (2 ^ (e + n) * 2 ^ (- e))%Z
      by (rewrite <- Z.pow_add_r by lia; f_equal; lia).
    destruct s; cbn [cond_Zopp]; change (Zneg m) with (- Zpos m)%Z; ring.
Qed.

(** Two integers in the same interval of [t] consecutive values, at least
    [2 ^ 52] intervals from zero, differ by at most [2 ^ -52] of either. *)
Lemma rel_err (s : bool) (W U P d c t : Z) :
  (0 < U)%Z -> (0 < d)%Z -> (0 < t)%Z -> (2 ^ 52 <= c)%Z ->
  (d * (c * t) <= P * U < d * ((c + 1) * t))%Z ->
  (c * t <= W <= (c + 1) * t)%Z ->
  Qabs ((cond_Zopp s W # Z.to_pos U) - (cond_Zopp s P # Z.to_pos d)) <=
  (1 # 2 ^ 52) * Qabs (cond_Zopp s P # Z.to_pos d).
Proof.
  intros HU Hd Ht Hc HP HW.
  assert (P0 : (0 < P)%Z) by nia.
  assert (A1 : (d * (c * t) <= d * W <= d * ((c + 1) * t))%Z) by nia.
  assert (A2 : (2 ^ 52 * (d * t) <= P * U)%Z) by nia.
  assert (K : (- (P * U) <= 2 ^ 52 * (d * W - P * U) <= P * U)%Z) by lia.
  assert (AbsP : Qabs (cond_Zopp s P # Z.to_pos d) == P # Z.to_pos d).
  { unfold Qabs. destruct s; cbn [cond_Zopp]; rewrite ?Z.abs_opp, Z.abs_eq by lia; reflexivity. }
  rewrite AbsP. apply Qabs_Qle_condition.
  unfold Qle, Qminus, Qplus, Qopp, Qmult. cbn [Qnum Qden].
  rewrite !Pos2Z.inj_mul, !Z2Pos.id by assumption.
  change (Zpos (2 ^ 52)) with (2 ^ 52)%Z.
  destruct s; cbn [cond_Zopp]; split; nia.
Qed.

Lemma add_zero_finite (s : bool) (m : positive) (e : Z) :
  valid_binary (S754_finite s m e) = true ->
  Prim2SF (SF2Prim (S754_finite s m e) + 0)%float = S754_finite s m e.
Proof.
  intros V. rewrite add_spec, (Prim2SF_SF2Prim _ V). reflexivity.
Qed.

Lemma rpm_line_eq (b : Z) : rpm_line b == (b * 6000)%Z # 4095.
Proof. unfold rpm_line, Qeq, Qmult. cbn [Qnum Qden inject_Z]. lia. Qed.

(** Whatever the reading, the RPM is its line to within a relative error of
    [2 ^ -52]. *)
Lemma rpm_of_general (b : Z) :
  (6000 * Z.abs b < 4095 * float_limit)%Z ->
  exists y qy,
    rpm_of b = Return (F y) /\ exact y = Some qy /\
    Qabs (qy - rpm_line b) <= (1 # 2 ^ 52) * Qabs (rpm_line b).
Proof.
  intros Lim. rewrite rpm_of_eq.
  assert (G : forall s p, (b * 6000)%Z = cond_Zopp s (Zpos p) ->
            exists y qy,
              rbind (checked (SFdiv prec emax (S754_finite s p 0) (S754_finite false 4095 0)))
                (fun q => Return (F (q + 0)%float)) = Return (F y) /\
              exact y = Some qy /\
              Qabs (qy - rpm_line b) <= (1 # 2 ^ 52) * Qabs (rpm_line b)).
  { intros s p Eb.
    destruct (SFdiv_normal s p) as (m2 & e2 & e' & c & k & R & V & E' & E2 & K & C & Cp & Cw).
    { destruct s; cbn [cond_Zopp] in Eb; lia. }
    rewrite R. cbn [checked rbind].
    destruct (exact_finite _ s m2 e2 (- e') (add_zero_finite s m2 e2 V)) as (qy & Ey & Hq);
      [lia|lia|].
    eexists. exists qy. split; [reflexivity|]. split; [exact Ey|].
    rewrite Hq, rpm_line_eq, Eb.
    replace (e2 + - e')%Z with (e2 - e')%Z by lia.
    apply (rel_err s _ (2 ^ (- e')) (Zpos p) 4095 c (2 ^ k));
      try assumption; try lia; apply Z.pow_pos_nonneg; lia. }
  destruct (b * 6000)%Z as [|p|p] eqn:Eb.
  - assert (b = 0)%Z by lia. subst b. cbn [int_true_divide rbind].
    exists (0 + 0)%float. eexists. split; [reflexivity|].
    split; [vm_compute; reflexivity|]. vm_compute. discriminate.
  - cbn [int_true_divide]. apply (G false p). reflexivity.
  - cbn [int_true_divide]. apply (G true p). reflexivity.
Qed.

Local Close Scope Q_scope.

Lemma pos_iter_xO (m d : positive) : Zpos (Pos.iter xO m d) = Zpos m * 2 ^ Zpos d.
Proof.
  induction d as [|d IH] using Pos.peano_ind.
  - cbn [Pos.iter]. change (Zpos m~0) with (2 * Zpos m). change (2 ^ 1) with 2. lia.
  - rewrite Pos.iter_succ, Pos2Z.inj_succ, Z.pow_succ_r by lia.
    change (Zpos (Pos.iter xO m d)~0) with (2 * Zpos (Pos.iter xO m d)). rewrite IH. lia.
Qed.

Lemma shl_align_eq (m : positive) (e e' : Z) :
  exists m', shl_align m e e' = (m', Z.min e e') /\ Zpos m' = Zpos m * 2 ^ (e - Z.min e e').
Proof.
  unfold shl_align. destruct (e' - e) as [|d|d] eqn:D.
  - exists m. replace (Z.min e e') with e by lia. rewrite Z.sub_diag. split; [reflexivity|lia].
  - exists m. replace (Z.min e e') with e by lia. rewrite Z.sub_diag. split; [reflexivity|lia].
  - exists (Pos.iter xO m d). replace (Z.min e e') with e' by lia.
    split; [reflexivity|]. rewrite pos_iter_xO. f_equal. f_equal. lia.
Qed.

Lemma valid_bounds (s : bool) (m : positive) (e : Z) :
  valid_binary (S754_finite s m e) = true -> Zpos m < 2 ^ 53 /\ -1074 <= e <= 971.
Proof.
  cbn [SpecFloat.valid_binary]. unfold bounded, canonical_mantissa. rewrite fexp_eq.
  intros H. apply andb_prop in H. destruct H as [C B].
  apply Z.eqb_eq in C. apply Z.leb_le in B. change (emax - prec) with 971 in B.
  destruct (digits2_pos_bounds m) as [Lo _].
  split; [|lia].
  destruct (Z_lt_le_dec (Zpos m) (2 ^ 53)) as [|G]; [assumption|exfalso].
  assert (53 < Zdigits2 (Zpos m)) by (apply Zdigits2_gt; lia).
  change (Zdigits2 (Zpos m)) with (Zpos (digits2_pos m)) in *. lia.
Qed.

(** An integer multiple of a power of two, in the normal range and below
    the limit, rounds to a finite float within one unit in the last place. *)
Lemma binary_normalize_normal (S ez : Z) :
  S <> 0 -> -1000 <= ez <= 0 -> Z.abs S < float_limit * 2 ^ (- ez) ->
  exists m3 e3 e'' c k,
    binary_normalize prec emax S ez false = S754_finite (S <? 0) m3 e3 /\
    -1074 <= e'' <= ez /\ e'' <= e3 /\ 0 <= k /\ 2 ^ 52 <= c /\
    c * 2 ^ k <= Z.abs S * 2 ^ (ez - e'') < (c + 1) * 2 ^ k /\
    c * 2 ^ k <= Zpos m3 * 2 ^ (e3 - e'') <= (c + 1) * 2 ^ k.
Proof.
  intros N E Lim.
  assert (G : forall sg p, Zpos p = Z.abs S ->
            exists m3 e3 e'' c k,
              binary_round prec emax sg p ez = S754_finite sg m3 e3 /\
              -1074 <= e'' <= ez /\ e'' <= e3 /\ 0 <= k /\ 2 ^ 52 <= c /\
              c * 2 ^ k <= Z.abs S * 2 ^ (ez - e'') < (c + 1) * 2 ^ k /\
              c * 2 ^ k <= Zpos m3 * 2 ^ (e3 - e'') <= (c + 1) * 2 ^ k).
  { intros sg p Ep. unfold binary_round. rewrite fexp_eq.
    destruct (digits2_pos_bounds p) as [Dlo Dhi].
    set (dp := Zpos (digits2_pos p)) in *.
    assert (D0 : 0 < dp) by (unfold dp; lia).
    replace (Z.max (dp + ez - 53) (-1074)) with (dp + ez - 53) by lia.
    destruct (shl_align_eq p ez (dp + ez - 53)) as (mz & Es & Ez). rewrite Es.
    set (e'' := Z.min ez (dp + ez - 53)) in *.
    assert (P2 : 0 < 2 ^ (ez - e'')) by (apply Z.pow_pos_nonneg; lia).
    assert (Big : 2 ^ 52 <= Zpos mz).
    { rewrite Ez. destruct (Z_lt_le_dec (dp + ez - 53) ez) as [Lt|Ge].
      - replace (ez - e'') with (53 - dp) by lia.
        apply Z.le_trans with (2 ^ (dp - 1) * 2 ^ (53 - dp)).
        + rewrite <- Z.pow_add_r by lia. replace (dp - 1 + (53 - dp)) with 52 by lia. lia.
        + apply Z.mul_le_mono_nonneg_r; [lia|exact Dlo].
      - replace (ez - e'') with 0 by lia. rewrite Z.mul_1_r.
        apply Z.le_trans with (2 ^ (dp - 1)); [|exact Dlo].
        apply Z.pow_le_mono_r; lia. }
    assert (L2 : Zpos mz < float_limit * 2 ^ (- e'')).
    { rewrite Ez. replace (- e'') with (- ez + (ez - e'')) by lia.
      rewrite Z.pow_add_r by lia. rewrite Ep. nia. }
    destruct (binary_round_aux_normal sg (Zpos mz) e'' loc_Exact Big ltac:(lia) L2)
      as (m3 & e3 & c & k & R & _ & E3 & K & C & Cm & Cw).
    exists m3, e3, e'', c, k. rewrite <- Ep, <- Ez.
    split; [exact R|]. split; [lia|]. split; [exact E3|]. split; [exact K|].
    split; [exact C|]. split; [exact Cm|exact Cw]. }
  destruct S as [|p|p]; [lia| |]; cbn [binary_normalize].
  - apply (G false p). reflexivity.
  - apply (G true p). reflexivity.
Qed.

Lemma Prim2SF_240 : Prim2SF 240 = S754_finite false 8444249301319680 (-45).
Proof. reflexivity. Qed.

(** Adding 240 to a finite float: the sum rounded once, to within a
    relative error of [2 ^ -52]. *)
Lemma plus_240 (s : bool) (m2 : positive) (e2 e' : Z) :
  valid_binary (S754_finite s m2 e2) = true ->
  -64 <= e' <= 0 -> e' <= e2 ->
  exists qx,
    exact (SF2Prim (S754_finite s m2 e2) + 240)%float = Some qx /\
    (Qabs (qx - (240 + (cond_Zopp s (Zpos m2 * 2 ^ (e2 - e')) # Z.to_pos (2 ^ (- e')))))
     <= (1 # 2 ^ 52) *
        Qabs (240 + (cond_Zopp s (Zpos m2 * 2 ^ (e2 - e')) # Z.to_pos (2 ^ (- e')))))%Q.
Proof.
  intros V E' E2.
  destruct (valid_bounds _ _ _ V) as [Mb Eb2].
  set (ez := Z.min e2 (-45)).
  destruct (shl_align_eq m2 e2 ez) as (A & Ea & Ha).
  destruct (shl_align_eq 8444249301319680 (-45) ez) as (Bm & Eb & Hb).
  replace (Z.min e2 ez) with ez in * by lia.
  replace (Z.min (-45) ez) with ez in * by lia.
  set (S := cond_Zopp s (Zpos A) + Zpos Bm).
  assert (HP : Prim2SF (SF2Prim (S754_finite s m2 e2) + 240)%float =
               binary_normalize prec emax S ez false).
  { rewrite add_spec, (Prim2SF_SF2Prim _ V), Prim2SF_240.
    unfold SF64add, SFadd. fold ez. rewrite Ea, Eb. reflexivity. }
  set (x := (SF2Prim (S754_finite s m2 e2) + 240)%float) in *.
  set (dl := 2 ^ (- ez)).
  set (U := 2 ^ (- e')).
  set (W := Zpos m2 * 2 ^ (e2 - e')).
  assert (Pd : 0 < dl) by (apply Z.pow_pos_nonneg; lia).
  assert (PU : 0 < U) by (apply Z.pow_pos_nonneg; lia).
  assert (HB : Zpos Bm = 240 * dl).
  { rewrite Hb. change (Zpos 8444249301319680) with (240 * 2 ^ 45).
    rewrite <- Z.mul_assoc, <- Z.pow_add_r by lia. f_equal. unfold dl. f_equal. lia. }
  assert (I1 : 2 ^ (e2 - ez) * U = 2 ^ (e2 - e') * dl).
  { unfold U, dl. rewrite <- !Z.pow_add_r by lia. f_equal. lia. }
  assert (HX : (S # Z.to_pos dl ==
                240 + (cond_Zopp s W # Z.to_pos U))%Q).
  { unfold Qeq, Qplus. cbn [Qnum Qden inject_Z].
    rewrite Pos2Z.inj_mul, !Z2Pos.id by assumption.
    unfold S, W. rewrite HB, Ha.
    destruct s; cbn [cond_Zopp]; nia. }
  set (X := (240 + (cond_Zopp s W # Z.to_pos U))%Q) in *.
  destruct (Z.eq_dec S 0) as [Z0|NZ].
  - (* the sum is zero *)
    exists 0%Q. split.
    + unfold exact. rewrite HP, Z0. reflexivity.
    + rewrite <- HX, Z0. vm_compute. discriminate.
  - assert (Lim : Z.abs S < float_limit * dl).
    { assert (Zpos A <= (2 ^ 53 - 1) * (2 ^ 971 * dl)).
      { rewrite Ha.
        apply Z.mul_le_mono_nonneg; [lia|lia|apply Z.pow_nonneg; lia|].
        unfold dl. rewrite <- Z.pow_add_r by lia. apply Z.pow_le_mono_r; lia. }
      unfold S, float_limit. destruct s; cbn [cond_Zopp]; lia. }
    destruct (binary_normalize_normal S ez NZ ltac:(lia) Lim)
      as (m3 & e3 & e'' & c & k & R & E3 & E3' & K & C & Cs & Cw).
    rewrite R in HP.
    destruct (exact_finite x _ m3 e3 (- e'') HP ltac:(lia) ltac:(lia)) as (qx & Ex & Hq).
    exists qx. split; [exact Ex|].
    set (U3 := 2 ^ (- e'')) in *.
    assert (P3 : 0 < U3) by (apply Z.pow_pos_nonneg; lia).
    assert (Pk : 0 < 2 ^ k) by (apply Z.pow_pos_nonneg; lia).
    assert (I2 : dl * 2 ^ (ez - e'') = U3).
    { unfold dl, U3. rewrite <- Z.pow_add_r by lia. f_equal. lia. }
    assert (HS : (cond_Zopp (S <? 0) (Z.abs S * 2 ^ (ez - e'')) # Z.to_pos U3 == X)%Q).
    { rewrite <- HX. unfold Qeq. cbn [Qnum Qden]. rewrite !Z2Pos.id by assumption.
      rewrite <- I2.
      destruct (Z.ltb_spec S 0); cbn [cond_Zopp];
        [rewrite Z.abs_neq by lia|rewrite Z.abs_eq by lia]; ring. }
    rewrite Hq, <- HS. replace (e3 + - e'') with (e3 - e'') by lia.
    apply (rel_err (S <? 0) _ U3 (Z.abs S * 2 ^ (ez - e'')) U3 c (2 ^ k));
      try assumption.
    rewrite (Z.mul_comm _ U3). destruct Cs as [Cs1 Cs2].
    split; [apply Z.mul_le_mono_nonneg_l|apply Z.mul_lt_mono_pos_l]; assumption || lia.
Qed.

Local Open Scope Q_scope.

Lemma two_roundings (qx Qa Lq : Q) :
  Qabs (qx - (240 + Qa)) <= (1 # 2 ^ 52) * Qabs (240 + Qa) ->
  Qabs (Qa - Lq) <= (1 # 2 ^ 52) * Qabs Lq ->
  Qabs (qx - (240 + Lq)) <= (3 # 2 ^ 52) * (240 + Qabs Lq).
Proof.
  change (2 ^ 52)%positive with 4503599627370496%positive.
  intros H1 H2.
  pose proof (Qabs_nonneg Lq) as V0.
  pose proof (Qle_Qabs Lq) as V1.
  pose proof (Qle_Qabs (- Lq)) as V2. rewrite Qabs_opp in V2.
  set (v := Qabs Lq) in *.
  apply Qabs_Qle_condition in H2. destruct H2 as [H2 H2'].
  assert (U : Qabs (240 + Qa) <= 240 + v + (1 # 4503599627370496) * v).
  { apply Qabs_Qle_condition. split; lra. }
  pose proof (Qabs_nonneg (240 + Qa)) as U0.
  set (u := Qabs (240 + Qa)) in *.
  apply Qabs_Qle_condition in H1. destruct H1 as [H1 H1'].
  apply Qabs_Qle_condition. split; lra.
Qed.

Lemma trim_line_eq (a : Z) : trim_line a == 240 + ((a * -120)%Z # 4095).
Proof. unfold trim_line, Qeq, Qminus, Qplus, Qopp, Qmult. cbn [Qnum Qden inject_Z]. lia. Qed.

Lemma Qabs_slope (a : Z) :
  Qabs ((a * -120)%Z # 4095) == (120 # 4095) * Qabs (inject_Z a).
Proof. unfold Qabs, Qeq, Qmult. cbn [Qnum Qden inject_Z]. lia. Qed.

(** Whatever the reading, the trim angle is its line to within a relative
    error of [3 * 2 ^ -52] of 240 plus the slope's share. *)
Lemma trim_angle_of_general (a : Z) :
  (120 * Z.abs a < 4095 * float_limit)%Z ->
  exists x qx,
    trim_angle_of a = Return (F x) /\ exact x = Some qx /\
    Qabs (qx - trim_line a) <= (3 # 2 ^ 52) * (240 + (120 # 4095) * Qabs (inject_Z a)).
Proof.
  intros Lim. rewrite trim_angle_of_eq.
  assert (G : forall s p, (a * -120)%Z = cond_Zopp s (Zpos p) ->
            exists x qx,
              rbind (checked (SFdiv prec emax (S754_finite s p 0) (S754_finite false 4095 0)))
                (fun q => Return (F (q + 240)%float)) = Return (F x) /\
              exact x = Some qx /\
              Qabs (qx - trim_line a) <=
              (3 # 2 ^ 52) * (240 + (120 # 4095) * Qabs (inject_Z a))).
  { intros s p Ea.
    destruct (SFdiv_normal s p) as (m2 & e2 & e' & c & k & R & V & E' & E2 & K & C & Cp & Cw).
    { destruct s; cbn [cond_Zopp] in Ea; lia. }
    rewrite R. cbn [checked rbind].
    destruct (plus_240 s m2 e2 e' V E' E2) as (qx & Ex & Hx).
    eexists. exists qx. split; [reflexivity|]. split; [exact Ex|].
    rewrite trim_line_eq, <- Qabs_slope, Ea.
    apply (two_roundings _ _ _ Hx).
    apply (rel_err s _ (2 ^ (- e')) (Zpos p) 4095 c (2 ^ k));
      try assumption; try lia; apply Z.pow_pos_nonneg; lia. }
  destruct (a * -120)%Z as [|p|p] eqn:Ea.
  - assert (a = 0)%Z by lia. subst a. cbn [int_true_divide rbind].
    exists (0 + 240)%float. eexists. split; [reflexivity|].
    split; [vm_compute; reflexivity|]. vm_compute. discriminate.
  - cbn [int_true_divide]. apply (G false p). reflexivity.
  - cbn [int_true_divide]. apply (G true p). reflexivity.
Qed.

(** Outside the range of the converter the two lines leave the scales. *)
Lemma trim_leaves_scale (a : Z) (qx : Q) :
  Qabs (qx - trim_line a) <= (3 # 2 ^ 52) * (240 + (120 # 4095) * Qabs (inject_Z a)) ->
  ((a < 0)%Z -> 240 < qx) /\ ((4095 < a)%Z -> qx < 120).
Proof.
  change (2 ^ 52)%positive with 4503599627370496%positive.
  intros H. apply Qabs_Qle_condition in H. destruct H as [H1 H2].
  unfold trim_line in *. split; intros R.
  - assert (Hr : inject_Z a <= -1)
      by (change (inject_Z a <= inject_Z (-1)); rewrite <- Zle_Qle; lia).
    rewrite Qabs_neg in H1, H2 by lra. lra.
  - assert (Hr : 4096 <= inject_Z a)
      by (change (inject_Z 4096 <= inject_Z a); rewrite <- Zle_Qle; lia).
    rewrite Qabs_pos in H1, H2 by lra. lra.
Qed.

Lemma rpm_leaves_scale (b : Z) (qy : Q) :
  Qabs (qy - rpm_line b) <= (1 # 2 ^ 52) * Qabs (rpm_line b) ->
  ((b < 0)%Z -> qy < 0) /\ ((4095 < b)%Z -> 6000 < qy).
Proof.
  change (2 ^ 52)%positive with 4503599627370496%positive.
  intros H. apply Qabs_Qle_condition in H. destruct H as [H1 H2].
  unfold rpm_line in *. split; intros R.
  - assert (Hr : inject_Z b <= -1)
      by (change (inject_Z b <= inject_Z (-1)); rewrite <- Zle_Qle; lia).
    rewrite Qabs_neg in H1, H2 by lra. lra.
  - assert (Hr : 4096 <= inject_Z b)
      by (change (inject_Z 4096 <= inject_Z b); rewrite <- Zle_Qle; lia).
    rewrite Qabs_pos in H1, H2 by lra. lra.
Qed.

Local Close Scope Q_scope.

(** *** Frames *)

Lemma float_0_ne_1 : 0%float <> 1%float.
Proof.
  intros H. pose proof (f_equal (fun x => PrimFloat.eqb x 0) H) as H'.
  vm_compute in H'. discriminate.
Qed.

Lemma map_value_float (a lo hi : Z) (v : num) :
  map_value (I a) (I 0) (I 4095) (I lo) (I hi) = Return v -> exists x, v = F x.
Proof.
  cbv [map_value sub mul div add arith rbind to_float].
  destruct (int_true_divide _ _); [|discriminate].
  destruct (float_of_int lo); [|discriminate].
  intros [= <-]. eauto.
Qed.

Lemma blend_eq (v : float) (old : num) :
  blend (F v) old =
  rbind (to_float old) (fun x => Return (F (0.3 * v + (1 - 0.3) * x)%float)).
Proof.
  assert (One : float_of_int 1 = Return 1%float) by (vm_compute; reflexivity).
  cbv [blend alpha mul sub add arith rbind to_float]. rewrite One.
  destruct old as [z|x]; [destruct (float_of_int z)|]; reflexivity.
Qed.

Lemma seed_or_blend_usable (v : float) (old : num) (x : float) :
  to_float old = Return x -> exists y, seed_or_blend (F v) old = Return (F y).
Proof.
  intros E. unfold seed_or_blend. destruct (eqb old (I 0)); [eauto|].
  rewrite blend_eq, E. simpl. eauto.
Qed.

Lemma seed_or_blend_float (v : float) (old s : num) :
  seed_or_blend (F v) old = Return s -> exists y, s = F y.
Proof.
  unfold seed_or_blend. destruct (eqb old (I 0)); [intros [= <-]; eauto|].
  rewrite blend_eq. destruct (to_float old); simpl; [|discriminate].
  intros [= <-]. eauto.
Qed.

(** The smoothing step in full: the new value itself where the stored one
    equals 0, else three tenths of the new value and seven tenths of the
    stored one. *)
Lemma seed_or_blend_eq (v : float) (old : num) (o : float) :
  to_float old = Return o ->
  seed_or_blend (F v) old =
  Return (F (if eqb old (I 0) then v else (0.3 * v + (1 - 0.3) * o)%float)).
Proof.
  intros E. unfold seed_or_blend. destruct (eqb old (I 0)); [reflexivity|].
  rewrite blend_eq, E. reflexivity.
Qed.

Section Properties.

Context {B : Builtins}.

Lemma process_serial_data_returns (w : wire) (now : float) (g : globals) :
  fst (process_serial_data w now g) = Return tt.
Proof.
  unfold process_serial_data, bind, gets, try_except.
  destruct (ser g); [|reflexivity].
  destruct (read_frame w now g) as [[[]|e] g1]; [reflexivity|].
  destruct (emit (EvPrintError e) g1) as [r g2] eqn:E.
  unfold emit, modify in E. inversion E; subst r.
  apply close_serial_returns.
Qed.

Lemma tick_eq (e : tick_env) (g : globals) :
  tick e g =
  check_stale (clock_loop e)
    (exec (process_serial_data (the_wire e) (clock_frame e))
       (exec (try_open_serial (clock_open e) (the_device e)) g)).
Proof.
  unfold tick.
  rewrite (bind_return _ _ _ _ tt (completes_eq _ _ (try_open_serial_returns _ _ _))).
  rewrite (bind_return _ _ _ _ tt (completes_eq _ _ (process_serial_data_returns _ _ _))).
  reflexivity.
Qed.

Lemma store_frame_eq (values : list string) (now : float) (g : globals) :
  store_frame values now g = frame_outcome values now g.
Proof.
  unfold store_frame, frame_outcome, trim_angle_of, rpm_of, seed_or_blend.
  unfold bind at 1. unfold lift at 1.
  destruct (py_int (field values 0)) as [a|e]; [|reflexivity].
  unfold bind at 1. unfold lift at 1.
  destruct (py_int (field values 1)) as [b|e]; [|reflexivity].
  unfold bind at 1. unfold lift at 1.
  destruct (py_int (field values 2)) as [gear|e]; [|reflexivity].
  unfold bind at 1. unfold assign_shift_indicator at 1, modify at 1.
  unfold bind at 1. unfold lift at 1.
  destruct (py_float (field values 3)) as [fuel|e]; [|reflexivity].
  unfold bind at 1. unfold assign_fuel_consumption at 1, modify at 1.
  unfold bind at 1. unfold lift at 1.
  destruct (map_value (I a) (I 0) (I 4095) (I 240) (I 120)) as [angle|e]; [|reflexivity].
  unfold bind at 1. unfold lift at 1.
  destruct (map_value (I b) (I 0) (I 4095) (I 0) (I 6000)) as [rpm|e]; [|reflexivity].
  unfold bind, gets, lift, modify, exec,
    assign_smoothed_engine_rpm, assign_smoothed_rudder_angle,
    assign_rudder_angle, assign_engine_rpm, assign_last_good_frame_time,
    assign_shift_indicator, assign_fuel_consumption; simpl.
  destruct (eqb (smoothed_engine_rpm g) (I 0)); simpl.
  - destruct (eqb (smoothed_rudder_angle g) (I 0)); simpl; [reflexivity|].
    destruct (blend angle (smoothed_rudder_angle g)); reflexivity.
  - destruct (blend rpm (smoothed_engine_rpm g)); simpl; [|reflexivity].
    destruct (eqb (smoothed_rudder_angle g) (I 0)); simpl; [reflexivity|].
    destruct (blend angle (smoothed_rudder_angle g)); reflexivity.
Qed.

(** A line of at least four fields is not empty. *)
Lemma four_fields_not_empty (data : string) :
  (List.length (split "," data) <? 4)%nat = false -> String.eqb data "" = false.
Proof.
  destruct data; [discriminate|reflexivity].
Qed.

Lemma read_frame_eq (w : wire) (now : float) (g : globals) :
  read_frame w now g =
  match wire_readline w with
  | Raise e => (Raise e, g)
  | Return raw =>
      match raw with
      | [] => (Return tt, g)
      | _ =>
          if (List.length (frame_fields raw) <? 4)%nat then (Return tt, g)
          else frame_outcome (frame_fields raw) now g
      end
  end.
Proof.
  unfold read_frame, frame_fields, bind, lift.
  destruct (wire_readline w) as [raw|e]; [|reflexivity].
  destruct raw as [|b0 raw]; [reflexivity|].
  cbv zeta.
  destruct (List.length (split "," (str_strip (bytes_decode (b0 :: raw)))) <? 4)%nat eqn:L.
  - destruct (String.eqb _ _); reflexivity.
  - rewrite (four_fields_not_empty _ L). apply store_frame_eq.
Qed.

(** *** The link *)

Lemma try_open_serial_connected (now : float) (dev : device) (g : globals) (h : port) :
  ser g = Some h -> try_open_serial now dev g = (Return tt, g).
Proof.
  intros E. unfold try_open_serial, bind, gets. rewrite E. reflexivity.
Qed.

Lemma try_open_serial_cooling (now : float) (dev : device) (g : globals) :
  (now - last_serial_try_time g <? SERIAL_RETRY_SECONDS)%float = true ->
  try_open_serial now dev g = (Return tt, g).
Proof.
  intros E. unfold try_open_serial, bind, gets.
  destruct (ser g); [reflexivity|]. rewrite E. reflexivity.
Qed.

Lemma try_open_serial_attempts (now : float) (dev : device) (g : globals) :
  ser g = None ->
  (now - last_serial_try_time g <? SERIAL_RETRY_SECONDS)%float = false ->
  try_open_serial now dev g = (Return tt, attempt now dev g).
Proof.
  intros E C. unfold try_open_serial, bind, gets. rewrite E, C.
  unfold attempt, opened, try_except, bind, lift, emit, modify,
    assign_last_serial_try_time, assign_ser; simpl.
  destruct (dev_open dev) as [h|e]; simpl; [|reflexivity].
  destruct (dev_reset dev) as [[]|e]; reflexivity.
Qed.

Lemma open_times_attempt (now : float) (dev : device) (g : globals) :
  open_times (trace (attempt now dev g)) = now :: open_times (trace g).
Proof. unfold attempt; simpl. destruct (opened dev); reflexivity. Qed.

Lemma link_inv_try_open (now : float) (dev : device) (g : globals) :
  link_inv g -> link_inv (exec (try_open_serial now dev) g).
Proof.
  intros [Hs Hl]. unfold exec.
  destruct (ser g) as [h|] eqn:E.
  - rewrite (try_open_serial_connected _ _ _ _ E). cbn [snd]. split; assumption.
  - destruct (now - last_serial_try_time g <? SERIAL_RETRY_SECONDS)%float eqn:C.
    + rewrite (try_open_serial_cooling _ _ _ C). cbn [snd]. split; assumption.
    + rewrite (try_open_serial_attempts _ _ _ E C). cbn [snd]. unfold link_inv.
      rewrite open_times_attempt. simpl. repeat split; try assumption.
      destruct (open_times (trace g)) as [|t ts]; [trivial|].
      rewrite <- Hl. exact C.
Qed.

Lemma frame_outcome_link (values : list string) (now : float) (g g' : globals)
      (r : result unit) :
  frame_outcome values now g = (r, g') ->
  ser g' = ser g /\ last_serial_try_time g' = last_serial_try_time g /\
  trace g' = trace g.
Proof.
  unfold frame_outcome.
  destruct (py_int (field values 0)); [|intros [= <- <-]; auto].
  destruct (py_int (field values 1)); [|intros [= <- <-]; auto].
  destruct (py_int (field values 2)); [|intros [= <- <-]; auto].
  destruct (py_float (field values 3)); [|intros [= <- <-]; auto].
  cbv zeta.
  destruct (trim_angle_of _); [|intros [= <- <-]; auto].
  destruct (rpm_of _); [|intros [= <- <-]; auto].
  destruct (seed_or_blend _ (smoothed_engine_rpm g)); [|intros [= <- <-]; auto].
  destruct (seed_or_blend _ (smoothed_rudder_angle g)); intros [= <- <-]; auto.
Qed.

Lemma read_frame_link (w : wire) (now : float) (g g' : globals) (r : result unit) :
  read_frame w now g = (r, g') ->
  ser g' = ser g /\ last_serial_try_time g' = last_serial_try_time g /\
  trace g' = trace g.
Proof.
  rewrite read_frame_eq.
  destruct (wire_readline w) as [raw|e]; [|intros [= <- <-]; auto].
  destruct raw; [intros [= <- <-]; auto|].
  destruct (_ <? _)%nat; [intros [= <- <-]; auto|].
  apply frame_outcome_link.
Qed.

(** The [except] branch on an open port. *)
Lemma handler_eq (w : wire) (e : exn) (g : globals) (h : port) :
  ser g = Some h ->
  bind (emit (EvPrintError e)) (fun _ => close_serial w) g = (Return tt, dropped h e g).
Proof.
  intros E.
  unfold close_serial, bind, emit, modify, gets, try_except, lift, assign_ser; simpl.
  rewrite E; simpl. destruct (wire_close w) as [[]|]; reflexivity.
Qed.

Lemma process_serial_data_eq (w : wire) (now : float) (g : globals) (h : port) :
  ser g = Some h ->
  process_serial_data w now g =
  match read_frame w now g with
  | (Return _, g') => (Return tt, g')
  | (Raise e, g') => (Return tt, dropped h e g')
  end.
Proof.
  intros E. unfold process_serial_data, bind at 1, gets. rewrite E.
  unfold try_except.
  destruct (read_frame w now g) as [[[]|e] g'] eqn:R; [reflexivity|].
  apply handler_eq. destruct (read_frame_link _ _ _ _ _ R) as [-> _]. exact E.
Qed.

Lemma process_serial_data_unconnected (w : wire) (now : float) (g : globals) :
  ser g = None -> process_serial_data w now g = (Return tt, g).
Proof. intros E. unfold process_serial_data, bind, gets. rewrite E. reflexivity. Qed.

Lemma process_serial_data_link (w : wire) (now : float) (g : globals) :
  open_times (trace (exec (process_serial_data w now) g)) = open_times (trace g) /\
  last_serial_try_time (exec (process_serial_data w now) g) = last_serial_try_time g.
Proof.
  unfold exec. destruct (ser g) as [h|] eqn:E.
  - rewrite (process_serial_data_eq _ _ _ _ E).
    destruct (read_frame w now g) as [[[]|e] g'] eqn:R;
      destruct (read_frame_link _ _ _ _ _ R) as (_ & L & T); simpl;
      rewrite ?T, ?L; auto.
  - rewrite (process_serial_data_unconnected _ _ _ E). auto.
Qed.

Lemma check_stale_link (now : float) (g : globals) :
  trace (exec (check_stale now) g) = trace g /\
  last_serial_try_time (exec (check_stale now) g) = last_serial_try_time g.
Proof.
  unfold exec, check_stale, bind, gets.
  destruct (_ <? _)%float; [rewrite set_no_data_state_eq|]; auto.
Qed.

Lemma exec_tick (e : tick_env) (g : globals) :
  exec (tick e) g =
  exec (check_stale (clock_loop e))
    (exec (process_serial_data (the_wire e) (clock_frame e))
       (exec (try_open_serial (clock_open e) (the_device e)) g)).
Proof. unfold exec at 1. rewrite tick_eq. reflexivity. Qed.

Lemma link_inv_tick (e : tick_env) (g : globals) :
  link_inv g -> link_inv (exec (tick e) g).
Proof.
  intros H. rewrite exec_tick.
  apply (link_inv_try_open (clock_open e) (the_device e)) in H.
  set (g1 := exec (try_open_serial _ _) g) in *.
  destruct (process_serial_data_link (the_wire e) (clock_frame e) g1) as [T L].
  set (g2 := exec (process_serial_data _ _) g1) in *.
  destruct (check_stale_link (clock_loop e) g2) as [T' L'].
  unfold link_inv in *. rewrite T', L', T, L. exact H.
Qed.

Lemma tick_returns (e : tick_env) (g : globals) : fst (tick e g) = Return tt.
Proof.
  rewrite tick_eq. unfold check_stale, bind, gets.
  destruct (_ <? _)%float; reflexivity.
Qed.

Lemma link_inv_run (envs : list tick_env) (g : globals) :
  link_inv g -> link_inv (exec (run envs) g).
Proof.
  revert g. induction envs as [|e envs IH]; intros g H; [exact H|].
  unfold exec. cbn [run].
  rewrite (bind_return _ _ _ _ tt (completes_eq _ _ (tick_returns e g))).
  apply IH, link_inv_tick, H.
Qed.

(** *** The claims about the link and the staleness policy *)

(** C8: [set_no_data_state] is idempotent: run twice in a row it leaves
    exactly the globals that one run leaves, whatever they were. *)
Theorem set_no_data_state_idempotent (g : globals) :
  bind set_no_data_state (fun _ => set_no_data_state) g = set_no_data_state g.
Proof.
  rewrite (bind_return _ _ _ _ tt (set_no_data_state_eq g)).
  rewrite !set_no_data_state_eq. reflexivity.
Qed.

(** C5: on a pass of the loop whose clock reads more than
    [DATA_STALE_SECONDS] past the time of the last good frame, the pass
    ends with the angle at 180, the RPM and the smoothed RPM at 3000, the
    smoothed angle at 180, and no gear code and no fuel rate, whatever
    the globals held before. *)
Theorem stale_tick_centers_display (e : tick_env) (g : globals) :
  let g2 := exec (process_serial_data (the_wire e) (clock_frame e))
              (exec (try_open_serial (clock_open e) (the_device e)) g) in
  (DATA_STALE_SECONDS <? clock_loop e - last_good_frame_time g2)%float = true ->
  let g3 := exec (tick e) g in
  rudder_angle g3 = I 180 /\ engine_rpm g3 = I 3000 /\
  smoothed_engine_rpm g3 = I 3000 /\ smoothed_rudder_angle g3 = I 180 /\
  shift_indicator g3 = None /\ fuel_consumption g3 = None.
Proof.
  intros g2 Stale g3. subst g3. rewrite exec_tick. fold g2.
  assert (E : exec (check_stale (clock_loop e)) g2 = exec set_no_data_state g2).
  { unfold exec, check_stale, bind, gets. rewrite Stale. reflexivity. }
  rewrite E. unfold exec. rewrite set_no_data_state_eq. cbn. repeat split.
Qed.

(** C6: [try_open_serial] does nothing while a port is held, does nothing
    while the retry period since the last attempt has not passed, and
    otherwise makes one attempt and remembers its time, so that every
    call inside the period that follows does nothing; over any run of the
    main loop from boot, each open attempt in the trace comes no sooner
    than the retry period after the attempt before it. *)
Theorem open_attempts_respect_cooldown :
  (forall now dev g h, ser g = Some h -> try_open_serial now dev g = (Return tt, g)) /\
  (forall now dev g,
      (now - last_serial_try_time g <? SERIAL_RETRY_SECONDS)%float = true ->
      try_open_serial now dev g = (Return tt, g)) /\
  (forall now dev g,
      ser g = None ->
      (now - last_serial_try_time g <? SERIAL_RETRY_SECONDS)%float = false ->
      try_open_serial now dev g = (Return tt, attempt now dev g) /\
      forall now' dev',
        (now' - now <? SERIAL_RETRY_SECONDS)%float = true ->
        try_open_serial now' dev' (attempt now dev g) = (Return tt, attempt now dev g)) /\
  (forall t0 envs,
      spaced (open_times (trace (exec (bind (boot t0) (fun _ => run envs)) module_globals)))).
Proof.
  split; [exact try_open_serial_connected|].
  split; [exact try_open_serial_cooling|].
  split.
  - intros now dev g E C. split; [exact (try_open_serial_attempts _ _ _ E C)|].
    intros now' dev' C'. apply try_open_serial_cooling. exact C'.
  - intros t0 envs.
    assert (L : link_inv (exec (boot t0) module_globals)) by (split; exact Logic.I).
    apply (link_inv_run envs) in L. exact (proj1 L).
Qed.

(** C7: when the read, the decoding or the parsing of a frame raises on an
    open port, [process_serial_data] returns normally, the port has been
    closed and [ser] is [None], and the next [try_open_serial] decides by
    the retry period alone: it does nothing inside it and makes an open
    attempt once it has passed. *)
Theorem mid_read_fault_drops_link
        (w : wire) (now : float) (g g1 : globals) (h : port) (e : exn) :
  ser g = Some h ->
  read_frame w now g = (Raise e, g1) ->
  let g2 := exec (process_serial_data w now) g in
  fst (process_serial_data w now g) = Return tt /\
  ser g2 = None /\
  trace g2 = EvClose h :: EvPrintError e :: trace g /\
  last_serial_try_time g2 = last_serial_try_time g /\
  forall now' dev,
    try_open_serial now' dev g2 =
    if (now' - last_serial_try_time g <? SERIAL_RETRY_SECONDS)%float
    then (Return tt, g2) else (Return tt, attempt now' dev g2).
Proof.
  intros E R g2.
  assert (G : g2 = dropped h e g1).
  { subst g2. unfold exec. rewrite (process_serial_data_eq _ _ _ _ E), R. reflexivity. }
  destruct (read_frame_link _ _ _ _ _ R) as (_ & L & T).
  split; [apply process_serial_data_returns|].
  rewrite G. cbn [dropped ser trace last_serial_try_time].
  rewrite T, L. repeat split.
  intros now' dev.
  destruct (now' - last_serial_try_time g <? SERIAL_RETRY_SECONDS)%float eqn:C.
  - apply try_open_serial_cooling. cbn. rewrite L. exact C.
  - apply try_open_serial_attempts; [reflexivity|]. cbn. rewrite L. exact C.
Qed.

(** *** The claims about frames *)

Lemma read_frame_parsed (w : wire) (now : float) (g : globals)
      (raw : list Byte.byte) (a b gear : Z) (fuel : float) :
  wire_readline w = Return raw ->
  parses raw a b gear fuel ->
  read_frame w now g =
  let g2 := exec (assign_fuel_consumption (Some fuel))
              (exec (assign_shift_indicator (Some gear)) g) in
  match trim_angle_of a with
  | Raise e => (Raise e, g2)
  | Return angle =>
  match rpm_of b with
  | Raise e => (Raise e, g2)
  | Return rpm =>
  match seed_or_blend rpm (smoothed_engine_rpm g) with
  | Raise e => (Raise e, g2)
  | Return sr =>
  match seed_or_blend angle (smoothed_rudder_angle g) with
  | Raise e => (Raise e, exec (assign_smoothed_engine_rpm sr) g2)
  | Return sa => (Return tt, taken g gear fuel sa sr now)
  end end end end.
Proof.
  intros R (N & L & P0 & P1 & P2 & P3).
  rewrite read_frame_eq, R. destruct raw; [congruence|].
  apply Nat.ltb_ge in L. rewrite L.
  unfold frame_outcome. rewrite P0, P1, P2, P3. reflexivity.
Qed.

(** C9: once the first four fields of a line parse, the gear code and the
    fuel rate in the globals are the parsed values themselves, the fuel box
    shows that rate formatted, and a box whose value is absent shows a
    dash. *)
Theorem gear_and_fuel_stored_verbatim
        (w : wire) (now : float) (g : globals) (h : port)
        (raw : list Byte.byte) (a b gear : Z) (fuel : float) :
  ser g = Some h ->
  wire_readline w = Return raw ->
  parses raw a b gear fuel ->
  let g' := exec (process_serial_data w now) g in
  shift_indicator g' = Some gear /\
  fuel_consumption g' = Some fuel /\
  fuel_str g' = format_1f fuel /\
  gear_letter g' = dict_get gear_lookup (Some gear) "-" /\
  (forall g0, fuel_consumption g0 = None -> fuel_str g0 = "-"%string) /\
  (forall g0, shift_indicator g0 = None -> gear_letter g0 = "-"%string).
Proof.
  intros E R P g'.
  assert (S : shift_indicator g' = Some gear /\ fuel_consumption g' = Some fuel).
  { subst g'. unfold exec.
    rewrite (process_serial_data_eq _ _ _ _ E), (read_frame_parsed _ _ _ _ _ _ _ _ R P).
    cbv zeta.
    destruct (trim_angle_of a); [|split; reflexivity].
    destruct (rpm_of b); [|split; reflexivity].
    destruct (seed_or_blend _ (smoothed_engine_rpm g)); [|split; reflexivity].
    destruct (seed_or_blend _ (smoothed_rudder_angle g)); split; reflexivity. }
  destruct S as [Sg Sf].
  split; [exact Sg|]. split; [exact Sf|].
  split; [unfold fuel_str; rewrite Sf; reflexivity|].
  split; [unfold gear_letter; rewrite Sg; reflexivity|].
  split; intros g0 N0; [unfold fuel_str|unfold gear_letter]; rewrite N0; reflexivity.
Qed.

Lemma not_accepted (w : wire) (g : globals) :
  (forall now, last_good_frame_time (exec (process_serial_data w now) g) =
               last_good_frame_time g) ->
  ~ frame_accepted w g.
Proof.
  intros U A. apply float_0_ne_1.
  rewrite <- (A 0%float), <- (A 1%float), !U. reflexivity.
Qed.

(** A frame that goes through was parsed, mapped and smoothed. *)
Lemma frame_outcome_returned (values : list string) (now : float) (g g' : globals) :
  frame_outcome values now g = (Return tt, g') ->
  exists a b gear fuel angle rpm sa sr,
    py_int (field values 0) = Return a /\
    py_int (field values 1) = Return b /\
    py_int (field values 2) = Return gear /\
    py_float (field values 3) = Return fuel /\
    trim_angle_of a = Return angle /\
    rpm_of b = Return rpm /\
    seed_or_blend rpm (smoothed_engine_rpm g) = Return sr /\
    seed_or_blend angle (smoothed_rudder_angle g) = Return sa /\
    g' = taken g gear fuel sa sr now.
Proof.
  unfold frame_outcome.
  destruct (py_int (field values 0)) as [a|]; [|discriminate].
  destruct (py_int (field values 1)) as [b|]; [|discriminate].
  destruct (py_int (field values 2)) as [gear|]; [|discriminate].
  destruct (py_float (field values 3)) as [fuel|]; [|discriminate].
  cbv zeta.
  destruct (trim_angle_of a) as [angle|] eqn:TA; [|discriminate].
  destruct (rpm_of b) as [rpm|] eqn:RP; [|discriminate].
  destruct (seed_or_blend rpm _) as [sr|] eqn:Sr; [|discriminate].
  destruct (seed_or_blend angle _) as [sa|] eqn:Sa; [|discriminate].
  intros [= <-]. exists a, b, gear, fuel, angle, rpm, sa, sr.
  repeat split; assumption.
Qed.

(** A frame that raises does so whatever the clock reads, and leaves the
    time of the last good frame alone. *)
Lemma frame_outcome_raised (values : list string) (now : float) (g g' : globals) (e : exn) :
  frame_outcome values now g = (Raise e, g') ->
  forall now', exists g'',
    frame_outcome values now' g = (Raise e, g'') /\
    last_good_frame_time g'' = last_good_frame_time g.
Proof.
  unfold frame_outcome. intros H now'. revert H.
  destruct (py_int (field values 0)); [|intros [= <- <-]; eauto].
  destruct (py_int (field values 1)); [|intros [= <- <-]; eauto].
  destruct (py_int (field values 2)); [|intros [= <- <-]; eauto].
  destruct (py_float (field values 3)); [|intros [= <- <-]; eauto].
  cbv zeta.
  destruct (trim_angle_of _); [|intros [= <- <-]; eauto].
  destruct (rpm_of _); [|intros [= <- <-]; eauto].
  destruct (seed_or_blend _ (smoothed_engine_rpm g)); [|intros [= <- <-]; eauto].
  destruct (seed_or_blend _ (smoothed_rudder_angle g)); [discriminate|].
  intros [= <- <-]; eauto.
Qed.

(** A parsed frame whose maps fit is taken whole. *)
Lemma parsed_frame_taken (w : wire) (g : globals) (h : port)
      (raw : list Byte.byte) (a b gear : Z) (fuel : float) :
  ser g = Some h ->
  wire_readline w = Return raw ->
  usable g = true ->
  parses raw a b gear fuel ->
  maps_fit a b = true ->
  exists x y sx sy,
    trim_angle_of a = Return (F x) /\
    rpm_of b = Return (F y) /\
    seed_or_blend (F x) (smoothed_rudder_angle g) = Return (F sx) /\
    seed_or_blend (F y) (smoothed_engine_rpm g) = Return (F sy) /\
    forall now, process_serial_data w now g = (Return tt, taken g gear fuel (F sx) (F sy) now).
Proof.
  intros E R U P Fit. unfold maps_fit in Fit. unfold usable in U.
  destruct (trim_angle_of a) as [angle|] eqn:TA; [|discriminate].
  destruct (rpm_of b) as [rpm|] eqn:RP; [|discriminate].
  destruct (map_value_float _ _ _ _ TA) as [x ->].
  destruct (map_value_float _ _ _ _ RP) as [y ->].
  destruct (to_float (smoothed_engine_rpm g)) as [or|] eqn:Or; [|discriminate].
  destruct (to_float (smoothed_rudder_angle g)) as [oa|] eqn:Oa; [|discriminate].
  destruct (seed_or_blend_usable x _ _ Oa) as [sx Sx].
  destruct (seed_or_blend_usable y _ _ Or) as [sy Sy].
  exists x, y, sx, sy. repeat split; try assumption.
  intros now.
  rewrite (process_serial_data_eq _ _ _ _ E), (read_frame_parsed _ _ _ _ _ _ _ _ R P).
  cbv zeta. rewrite TA, RP, Sy, Sx. reflexivity.
Qed.

(** On an open port whose smoothed values are usable, a line is accepted
    exactly when its first four fields parse and both maps return. *)
Lemma frame_accepted_iff_maps_fit
      (w : wire) (g : globals) (h : port) (raw : list Byte.byte) :
  ser g = Some h ->
  wire_readline w = Return raw ->
  usable g = true ->
  (frame_accepted w g <->
   exists a b gear fuel, parses raw a b gear fuel /\ maps_fit a b = true).
Proof.
  intros E R U. split.
  - intros A. destruct raw as [|b0 raw'].
    + exfalso. apply (not_accepted w g); [|exact A]. intros now. unfold exec.
      rewrite (process_serial_data_eq _ _ _ _ E), read_frame_eq, R. reflexivity.
    + destruct (List.length (frame_fields (b0 :: raw')) <? 4)%nat eqn:L.
      * exfalso. apply (not_accepted w g); [|exact A]. intros now. unfold exec.
        rewrite (process_serial_data_eq _ _ _ _ E), read_frame_eq, R, L. reflexivity.
      * destruct (frame_outcome (frame_fields (b0 :: raw')) 0%float g)
          as [[[]|e] g'] eqn:O.
        -- apply frame_outcome_returned in O.
           destruct O as (a & b & gear & fuel & angle & rpm & sa & sr
                          & P0 & P1 & P2 & P3 & TA & RP & _).
           exists a, b, gear, fuel. split.
           ++ unfold parses. apply Nat.ltb_ge in L.
              repeat split; try assumption. discriminate.
           ++ unfold maps_fit. rewrite TA, RP. reflexivity.
        -- exfalso. apply (not_accepted w g); [|exact A]. intros now.
           destruct (frame_outcome_raised _ _ _ _ _ O now) as (g'' & O' & T).
           unfold exec.
           rewrite (process_serial_data_eq _ _ _ _ E), read_frame_eq, R, L, O'.
           exact T.
  - intros (a & b & gear & fuel & P & Fit).
    destruct (parsed_frame_taken _ _ _ _ _ _ _ _ E R U P Fit) as (x & y & sx & sy & _ & _ & _ & _ & T).
    intros now. unfold exec. rewrite T. reflexivity.
Qed.

(** What a parsed frame whose two maps return leaves in the globals. *)
Lemma parsed_frame_stored (w : wire) (g : globals) (h : port)
      (raw : list Byte.byte) (a b gear : Z) (fuel : float) (x y : float) :
  ser g = Some h ->
  wire_readline w = Return raw ->
  usable g = true ->
  parses raw a b gear fuel ->
  trim_angle_of a = Return (F x) ->
  rpm_of b = Return (F y) ->
  exists oa ob,
    to_float (smoothed_rudder_angle g) = Return oa /\
    to_float (smoothed_engine_rpm g) = Return ob /\
    forall now,
      process_serial_data w now g =
      (Return tt,
       taken g gear fuel
         (F (if eqb (smoothed_rudder_angle g) (I 0) then x
             else (0.3 * x + (1 - 0.3) * oa)%float))
         (F (if eqb (smoothed_engine_rpm g) (I 0) then y
             else (0.3 * y + (1 - 0.3) * ob)%float))
         now).
Proof.
  intros E R U P TA RP. unfold usable in U.
  destruct (to_float (smoothed_engine_rpm g)) as [ob|] eqn:Ob; [|discriminate].
  destruct (to_float (smoothed_rudder_angle g)) as [oa|] eqn:Oa; [|discriminate].
  exists oa, ob. split; [reflexivity|]. split; [reflexivity|]. intros now.
  rewrite (process_serial_data_eq _ _ _ _ E), (read_frame_parsed _ _ _ _ _ _ _ _ R P).
  cbv zeta. rewrite TA, RP, (seed_or_blend_eq y _ _ Ob), (seed_or_blend_eq x _ _ Oa).
  reflexivity.
Qed.

(** What a parsed frame with a reading too large for a float leaves: the
    gear code and the fuel rate are stored, the port is closed. *)
Lemma parsed_frame_overflows (w : wire) (g : globals) (h : port)
      (raw : list Byte.byte) (a b gear : Z) (fuel : float) :
  ser g = Some h ->
  wire_readline w = Return raw ->
  parses raw a b gear fuel ->
  4095 * float_limit <= 120 * Z.abs a \/ 4095 * float_limit <= 6000 * Z.abs b ->
  forall now,
    process_serial_data w now g =
    (Return tt,
     dropped h OverflowError
       (exec (assign_fuel_consumption (Some fuel))
          (exec (assign_shift_indicator (Some gear)) g))).
Proof.
  intros E R P Big now.
  rewrite (process_serial_data_eq _ _ _ _ E), (read_frame_parsed _ _ _ _ _ _ _ _ R P).
  cbv zeta.
  destruct (trim_angle_of_range a) as [Ta Oa], (rpm_of_range b) as [Tb Ob].
  destruct (Z_lt_le_dec (120 * Z.abs a) (4095 * float_limit)) as [La|Ga].
  - destruct (Ta La) as (qa & _ & ->).
    destruct Big as [Ba|Bb]; [lia|]. rewrite (Ob Bb). reflexivity.
  - rewrite (Oa Ga). reflexivity.
Qed.

(** C4: on an open port, a line whose first four fields parse, with both
    raw readings in 0..4095, is taken and mapped as follows.  The first
    field gives the trim angle on the line from 240 at 0 down to 120 at
    4095, the second the RPM on the line from 0 at 0 up to 6000 at 4095,
    each to within the rounding of binary64 (2^-45 of a degree, 2^-41 of an
    RPM), and exactly 240, 120, 0 and 6000 at the four end points.  These
    two mapped values are what the smoothing step is given: the globals
    afterwards hold the mapped value itself where the stored smoothed value
    equals 0, and three tenths of it plus seven tenths of the stored value
    otherwise. *)
Theorem frame_maps_fields_along_the_lines
        (w : wire) (g : globals) (h : port)
        (raw : list Byte.byte) (a b gear : Z) (fuel : float) :
  ser g = Some h ->
  wire_readline w = Return raw ->
  usable g = true ->
  parses raw a b gear fuel ->
  0 <= a <= 4095 ->
  0 <= b <= 4095 ->
  exists x y qx qy oa ob,
    map_value (I a) (I 0) (I 4095) (I 240) (I 120) = Return (F x) /\
    map_value (I b) (I 0) (I 4095) (I 0) (I 6000) = Return (F y) /\
    exact x = Some qx /\
    (Qabs (qx - (240 - (120 # 4095) * inject_Z a)) <= 1 # 2 ^ 45)%Q /\
    exact y = Some qy /\
    (Qabs (qy - (6000 # 4095) * inject_Z b) <= 1 # 2 ^ 41)%Q /\
    (a = 0 -> x = 240%float) /\ (a = 4095 -> x = 120%float) /\
    (b = 0 -> y = 0%float) /\ (b = 4095 -> y = 6000%float) /\
    to_float (smoothed_rudder_angle g) = Return oa /\
    to_float (smoothed_engine_rpm g) = Return ob /\
    forall now,
      process_serial_data w now g =
      (Return tt,
       taken g gear fuel
         (F (if eqb (smoothed_rudder_angle g) (I 0) then x
             else (0.3 * x + (1 - 0.3) * oa)%float))
         (F (if eqb (smoothed_engine_rpm g) (I 0) then y
             else (0.3 * y + (1 - 0.3) * ob)%float))
         now).
Proof.
  intros E R U P Ra Rb.
  destruct (map_value_follows_the_lines a Ra)
    as ((x & qx & Ex & Qx & Bx) & _ & A0 & A1 & _ & _).
  destruct (map_value_follows_the_lines b Rb)
    as (_ & (y & qy & Ey & Qy & By) & _ & _ & B0 & B1).
  destruct (parsed_frame_stored _ _ _ _ _ _ _ _ x y E R U P Ex Ey)
    as (oa & ob & Oa & Ob & T).
  exists x, y, qx, qy, oa, ob.
  split; [exact Ex|]. split; [exact Ey|].
  split; [exact Qx|]. split; [exact Bx|].
  split; [exact Qy|]. split; [exact By|].
  split; [intros ->; rewrite A0 in Ex; injection Ex as <-; reflexivity|].
  split; [intros ->; rewrite A1 in Ex; injection Ex as <-; reflexivity|].
  split; [intros ->; rewrite B0 in Ey; injection Ey as <-; reflexivity|].
  split; [intros ->; rewrite B1 in Ey; injection Ey as <-; reflexivity|].
  split; [exact Oa|]. split; [exact Ob|]. exact T.
Qed.

(** C10: on an open port whose smoothed values are usable, a line is
    accepted exactly when it has at least four fields, the first four
    parse as int, int, int and float, and the two raw readings [a] and [b]
    are below the size at which their int by int division overflows a
    float: 120 |a| and 6000 |b| both less than 4095 (2^1024 - 2^970).
    Nothing else is looked at: not the fields after the fourth, not the
    gear code, not the sign of a reading nor the range 0..4095.  What an
    accepted line stores is the smoothing of 240 plus the rounded quotient
    -120 a / 4095 and of the rounded quotient 6000 b / 4095, whatever the
    readings.  These two values follow the two lines to within a relative
    error of 3 * 2^-52 and 2^-52, so that a reading below 0 gives more
    than 240 degrees and less than 0 RPM, and a reading above 4095 less
    than 120 degrees and more than 6000 RPM.  A line with a reading at or
    beyond the bound stores its gear code and fuel rate and has the port
    closed on [OverflowError].  Readings from -4096 to 8191 are mapped to
    within 2^-44 of a degree and 2^-40 of an RPM of the two lines. *)
Theorem frame_accepted_iff_parsed_and_mapped
        (w : wire) (g : globals) (h : port) (raw : list Byte.byte) :
  ser g = Some h ->
  wire_readline w = Return raw ->
  usable g = true ->
  (frame_accepted w g <->
   exists a b gear fuel,
     parses raw a b gear fuel /\
     120 * Z.abs a < 4095 * (2 ^ 1024 - 2 ^ 970) /\
     6000 * Z.abs b < 4095 * (2 ^ 1024 - 2 ^ 970)) /\
  (forall a b gear fuel,
      parses raw a b gear fuel ->
      120 * Z.abs a < 4095 * (2 ^ 1024 - 2 ^ 970) ->
      6000 * Z.abs b < 4095 * (2 ^ 1024 - 2 ^ 970) ->
      exists qa qb oa ob qx qy,
        int_true_divide (a * -120) 4095 = Return qa /\
        int_true_divide (b * 6000) 4095 = Return qb /\
        map_value (I a) (I 0) (I 4095) (I 240) (I 120) = Return (F (qa + 240)) /\
        map_value (I b) (I 0) (I 4095) (I 0) (I 6000) = Return (F (qb + 0)) /\
        exact (qa + 240) = Some qx /\
        exact (qb + 0) = Some qy /\
        (Qabs (qx - (240 - (120 # 4095) * inject_Z a)) <=
         (3 # 2 ^ 52) * (240 + (120 # 4095) * Qabs (inject_Z a)))%Q /\
        (Qabs (qy - (6000 # 4095) * inject_Z b) <=
         (1 # 2 ^ 52) * Qabs ((6000 # 4095) * inject_Z b))%Q /\
        (a < 0 -> (240 < qx)%Q) /\ (4095 < a -> (qx < 120)%Q) /\
        (b < 0 -> (qy < 0)%Q) /\ (4095 < b -> (6000 < qy)%Q) /\
        to_float (smoothed_rudder_angle g) = Return oa /\
        to_float (smoothed_engine_rpm g) = Return ob /\
        forall now,
          process_serial_data w now g =
          (Return tt,
           taken g gear fuel
             (F (if eqb (smoothed_rudder_angle g) (I 0) then (qa + 240)%float
                 else (0.3 * (qa + 240) + (1 - 0.3) * oa)%float))
             (F (if eqb (smoothed_engine_rpm g) (I 0) then (qb + 0)%float
                 else (0.3 * (qb + 0) + (1 - 0.3) * ob)%float))
             now)) /\
  (forall a b gear fuel,
      parses raw a b gear fuel ->
      4095 * (2 ^ 1024 - 2 ^ 970) <= 120 * Z.abs a \/
      4095 * (2 ^ 1024 - 2 ^ 970) <= 6000 * Z.abs b ->
      map_value (I a) (I 0) (I 4095) (I 240) (I 120) = Raise OverflowError \/
      map_value (I b) (I 0) (I 4095) (I 0) (I 6000) = Raise OverflowError) /\
  (forall a b gear fuel,
      parses raw a b gear fuel ->
      4095 * (2 ^ 1024 - 2 ^ 970) <= 120 * Z.abs a \/
      4095 * (2 ^ 1024 - 2 ^ 970) <= 6000 * Z.abs b ->
      forall now,
        process_serial_data w now g =
        (Return tt,
         dropped h OverflowError
           (exec (assign_fuel_consumption (Some fuel))
              (exec (assign_shift_indicator (Some gear)) g)))) /\
  (forall r,
      -4096 <= r <= 8191 ->
      exists x y qa qr,
        map_value (I r) (I 0) (I 4095) (I 240) (I 120) = Return (F x) /\
        exact x = Some qa /\
        map_value (I r) (I 0) (I 4095) (I 0) (I 6000) = Return (F y) /\
        exact y = Some qr /\
        (Qabs (qa - (240 - (120 # 4095) * inject_Z r)) <= 1 # 2 ^ 44)%Q /\
        (Qabs (qr - (6000 # 4095) * inject_Z r) <= 1 # 2 ^ 40)%Q /\
        (r < 0 -> (240 < qa)%Q /\ (qr < 0)%Q) /\
        (4095 < r -> (qa < 120)%Q /\ (6000 < qr)%Q)).
Proof.
  intros E R U. fold float_limit.
  split; [|split; [|split; [|split]]].
  - rewrite (frame_accepted_iff_maps_fit _ _ _ _ E R U). split.
    + intros (a & b & gear & fuel & P & Fit). exists a, b, gear, fuel.
      split; [exact P|]. apply maps_fit_iff. exact Fit.
    + intros (a & b & gear & fuel & P & Fit). exists a, b, gear, fuel.
      split; [exact P|]. apply maps_fit_iff. exact Fit.
  - intros a b gear fuel P Fa Fb.
    destruct (proj1 (trim_angle_of_range a) Fa) as (qa & Da & Ta).
    destruct (proj1 (rpm_of_range b) Fb) as (qb & Db & Tb).
    destruct (parsed_frame_stored _ _ _ _ _ _ _ _ _ _ E R U P Ta Tb)
      as (oa & ob & Oa & Ob & T).
    destruct (trim_angle_of_general a Fa) as (x & qx & Tx & Ex & Bx).
    destruct (rpm_of_general b Fb) as (y & qy & Ty & Ey & By).
    rewrite Ta in Tx. injection Tx as <-.
    rewrite Tb in Ty. injection Ty as <-.
    destruct (trim_leaves_scale a qx Bx) as [Xlo Xhi].
    destruct (rpm_leaves_scale b qy By) as [Ylo Yhi].
    exists qa, qb, oa, ob, qx, qy.
    split; [exact Da|]. split; [exact Db|].
    split; [exact Ta|]. split; [exact Tb|].
    split; [exact Ex|]. split; [exact Ey|].
    split; [exact Bx|]. split; [exact By|].
    split; [exact Xlo|]. split; [exact Xhi|].
    split; [exact Ylo|]. split; [exact Yhi|].
    split; [exact Oa|]. split; [exact Ob|]. exact T.
  - intros a b gear fuel _ [Ba|Bb].
    + left. exact (proj2 (trim_angle_of_range a) Ba).
    + right. exact (proj2 (rpm_of_range b) Bb).
  - intros a b gear fuel P Big.
    exact (parsed_frame_overflows _ _ _ _ _ _ _ _ E R P Big).
  - intros r Rr. exact (extrapolated r Rr).
Qed.

(** *** Every state the loop reaches has usable smoothed values *)

Lemma frame_outcome_usable (values : list string) (now : float) (g g' : globals)
      (r : result unit) :
  usable g = true -> frame_outcome values now g = (r, g') -> usable g' = true.
Proof.
  intros U. unfold frame_outcome.
  destruct (py_int (field values 0)) as [a|]; [|intros [= <- <-]; exact U].
  destruct (py_int (field values 1)) as [b|]; [|intros [= <- <-]; exact U].
  destruct (py_int (field values 2)); [|intros [= <- <-]; exact U].
  destruct (py_float (field values 3)); [|intros [= <- <-]; exact U].
  cbv zeta.
  destruct (trim_angle_of a) as [angle|] eqn:TA; [|intros [= <- <-]; exact U].
  destruct (rpm_of b) as [rpm|] eqn:RP; [|intros [= <- <-]; exact U].
  destruct (map_value_float _ _ _ _ TA) as [x ->].
  destruct (map_value_float _ _ _ _ RP) as [y ->].
  destruct (seed_or_blend (F y) _) as [sr|] eqn:Sr; [|intros [= <- <-]; exact U].
  destruct (seed_or_blend_float _ _ _ Sr) as [sy ->].
  destruct (seed_or_blend (F x) _) as [sa|] eqn:Sa.
  - destruct (seed_or_blend_float _ _ _ Sa) as [sx ->]. intros [= <- <-]. reflexivity.
  - intros [= <- <-]. unfold usable in *. cbn.
    destruct (to_float (smoothed_engine_rpm g)); [|discriminate]. exact U.
Qed.

Lemma process_serial_data_usable (w : wire) (now : float) (g : globals) :
  usable g = true -> usable (exec (process_serial_data w now) g) = true.
Proof.
  intros U. unfold exec. destruct (ser g) as [h|] eqn:E.
  - rewrite (process_serial_data_eq _ _ _ _ E), read_frame_eq.
    destruct (wire_readline w) as [raw|e]; [|exact U].
    destruct raw; [exact U|].
    destruct (_ <? _)%nat; [exact U|].
    destruct (frame_outcome _ now g) as [[[]|e] g'] eqn:O;
      apply (frame_outcome_usable _ _ _ _ _ U) in O; exact O.
  - rewrite (process_serial_data_unconnected _ _ _ E). exact U.
Qed.

Lemma tick_usable (e : tick_env) (g : globals) :
  usable g = true -> usable (exec (tick e) g) = true.
Proof.
  intros U. rewrite exec_tick.
  assert (U1 : usable (exec (try_open_serial (clock_open e) (the_device e)) g) = true).
  { unfold exec. destruct (ser g) as [h|] eqn:E.
    - rewrite (try_open_serial_connected _ _ _ _ E). exact U.
    - destruct (clock_open e - last_serial_try_time g <? SERIAL_RETRY_SECONDS)%float eqn:C.
      + rewrite (try_open_serial_cooling _ _ _ C). exact U.
      + rewrite (try_open_serial_attempts _ _ _ E C). exact U. }
  apply (process_serial_data_usable (the_wire e) (clock_frame e)) in U1.
  unfold exec at 1, check_stale, bind, gets.
  destruct (_ <? _)%float; [reflexivity|exact U1].
Qed.

Lemma run_usable (envs : list tick_env) (g : globals) :
  usable g = true -> usable (exec (run envs) g) = true.
Proof.
  revert g. induction envs as [|e envs IH]; intros g U; [exact U|].
  unfold exec. cbn [run].
  rewrite (bind_return _ _ _ _ tt (completes_eq _ _ (tick_returns e g))).
  apply IH, tick_usable, U.
Qed.

Lemma reachable_usable (t0 : float) (envs : list tick_env) :
  usable (exec (bind (boot t0) (fun _ => run envs)) module_globals) = true.
Proof.
  change (usable (exec (run envs) (exec (boot t0) module_globals)) = true).
  apply run_usable. reflexivity.
Qed.

(** *** What the code does where it departs from C1 and C2 *)

(** X1: a frame taken while the smoothed values are at the centred
    defaults 180 and 3000 is blended with them: the smoothed angle and RPM
    become [0.3 * new + (1 - 0.3) * 180] and [0.3 * new + (1 - 0.3) * 3000],
    the displayed angle and RPM follow, and the frame's time is recorded. *)
Theorem frame_at_centre_is_blended
        (w : wire) (now : float) (g : globals) (h : port)
        (raw : list Byte.byte) (a b gear : Z) (fuel x y : float) :
  ser g = Some h ->
  wire_readline w = Return raw ->
  parses raw a b gear fuel ->
  trim_angle_of a = Return (F x) ->
  rpm_of b = Return (F y) ->
  smoothed_rudder_angle g = I 180 ->
  smoothed_engine_rpm g = I 3000 ->
  let g' := exec (process_serial_data w now) g in
  smoothed_rudder_angle g' = F (0.3 * x + (1 - 0.3) * 180)%float /\
  smoothed_engine_rpm g' = F (0.3 * y + (1 - 0.3) * 3000)%float /\
  rudder_angle g' = smoothed_rudder_angle g' /\
  engine_rpm g' = smoothed_engine_rpm g' /\
  last_good_frame_time g' = now.
Proof.
  intros E R P TA RP Ca Cr g'. subst g'. unfold exec.
  rewrite (process_serial_data_eq _ _ _ _ E), (read_frame_parsed _ _ _ _ _ _ _ _ R P).
  cbv zeta. rewrite TA, RP, Ca, Cr.
  unfold seed_or_blend.
  change (eqb (I 3000) (I 0)) with false. change (eqb (I 180) (I 0)) with false.
  cbv iota. rewrite !blend_eq.
  change (to_float (I 3000)) with (Return 3000%float).
  change (to_float (I 180)) with (Return 180%float).
  cbn. repeat split.
Qed.

(** X2: what a rejected line changes.  A line of fewer than four fields
    changes nothing at all.  A line whose field 0, 1 or 2 is not an int
    changes no display value and not the time of the last good frame; the
    port is closed.  A line whose first three fields are ints and whose
    field 3 is not a float has its gear code stored, and nothing else of
    the display and not the time changed; the port is closed. *)
Theorem rejected_line_effects
        (w : wire) (now : float) (g : globals) (h : port) (raw : list Byte.byte) :
  ser g = Some h ->
  wire_readline w = Return raw ->
  let values := frame_fields raw in
  let g' := exec (process_serial_data w now) g in
  ((raw = [] \/ (List.length values < 4)%nat) -> g' = g) /\
  (raw <> [] -> (4 <= List.length values)%nat ->
   forall e,
     py_int (field values 0) = Raise e \/
     (exists a, py_int (field values 0) = Return a /\ py_int (field values 1) = Raise e) \/
     (exists a b, py_int (field values 0) = Return a /\ py_int (field values 1) = Return b /\
                  py_int (field values 2) = Raise e) ->
     g' = dropped h e g) /\
  (raw <> [] -> (4 <= List.length values)%nat ->
   forall a b gear e,
     py_int (field values 0) = Return a ->
     py_int (field values 1) = Return b ->
     py_int (field values 2) = Return gear ->
     py_float (field values 3) = Raise e ->
     g' = dropped h e (exec (assign_shift_indicator (Some gear)) g)).
Proof.
  intros E R values g'. subst values g'. unfold exec.
  rewrite (process_serial_data_eq _ _ _ _ E), read_frame_eq, R.
  split; [|split].
  - intros [->|L]; [reflexivity|]. destruct raw as [|b0 raw0]; [reflexivity|].
    apply Nat.ltb_lt in L. rewrite L. reflexivity.
  - intros N L e H. destruct raw as [|b0 raw0]; [congruence|].
    apply Nat.ltb_ge in L. rewrite L. unfold frame_outcome.
    destruct H as [P0|[(a & P0 & P1)|(a & b & P0 & P1 & P2)]];
      rewrite ?P0, ?P1, ?P2; reflexivity.
  - intros N L a b gear e P0 P1 P2 P3. destruct raw as [|b0 raw0]; [congruence|].
    apply Nat.ltb_ge in L. rewrite L. unfold frame_outcome.
    rewrite P0, P1, P2, P3. reflexivity.
Qed.

End Properties.

(** The frame of C1's scenario. *)
Lemma frame_at_centre_is_blended_witness :
  let g' := exec (process_serial_data (B := ascii_builtins) (good_wire "0,0,2,1.5") 5.5)
              (fresh_link 5.0 1%nat) in
  smoothed_rudder_angle g' = F (0.3 * 240 + (1 - 0.3) * 180)%float /\
  smoothed_engine_rpm g' = F (0.3 * 0 + (1 - 0.3) * 3000)%float /\
  rudder_angle g' = smoothed_rudder_angle g' /\
  engine_rpm g' = smoothed_engine_rpm g' /\
  last_good_frame_time g' = 5.5%float.
Proof.
  apply (frame_at_centre_is_blended (B := ascii_builtins)
           (good_wire "0,0,2,1.5") 5.5 (fresh_link 5.0 1%nat) 1%nat
           (line "0,0,2,1.5") 0 0 2 1.5%float 240%float 0%float);
    try reflexivity.
  unfold parses. split; [vm_compute; discriminate|].
  split; [vm_compute; apply le_n|]. repeat split; vm_compute; reflexivity.
Defined.

(** A line of three fields leaves the globals as they were. *)
Lemma rejected_line_effects_witness :
  exec (process_serial_data (B := ascii_builtins) (good_wire "100,200,3") 5.5)
    (fresh_link 5.0 1%nat) = fresh_link 5.0 1%nat.
Proof.
  apply (proj1 (rejected_line_effects (B := ascii_builtins)
                  (good_wire "100,200,3") 5.5 (fresh_link 5.0 1%nat) 1%nat
                  (line "100,200,3") eq_refl eq_refl)).
  right. vm_compute. repeat constructor.
Defined.

(** A good line read on a freshly opened port. *)
Lemma gear_and_fuel_stored_verbatim_witness :
  let g' := exec (process_serial_data (B := ascii_builtins) (good_wire "100,200,3,2.5") 5.5)
              (fresh_link 5.0 1%nat) in
  shift_indicator g' = Some 3 /\
  fuel_consumption g' = Some 2.5%float /\
  fuel_str (B := ascii_builtins) g' = format_1f (Builtins := ascii_builtins) 2.5%float /\
  gear_letter g' = dict_get gear_lookup (Some 3) "-" /\
  (forall g0, fuel_consumption g0 = None -> fuel_str (B := ascii_builtins) g0 = "-"%string) /\
  (forall g0, shift_indicator g0 = None -> gear_letter g0 = "-"%string).
Proof.
  apply (gear_and_fuel_stored_verbatim (B := ascii_builtins)
           (good_wire "100,200,3,2.5") 5.5 (fresh_link 5.0 1%nat) 1%nat
           (line "100,200,3,2.5") 100 200 3 2.5%float).
  - reflexivity.
  - reflexivity.
  - unfold parses. split; [vm_compute; discriminate|].
    split; [vm_compute; apply le_n|]. repeat split; vm_compute; reflexivity.
Defined.

(** A line of six fields with a negative reading, a reading above the
    range and a gear code of 7 is accepted. *)
Lemma frame_accepted_iff_parsed_and_mapped_witness :
  frame_accepted (B := ascii_builtins) (good_wire "-5,5000,7,1e3,zzz,") (fresh_link 5.0 1%nat).
Proof.
  apply (proj1 (frame_accepted_iff_parsed_and_mapped (B := ascii_builtins)
                  (good_wire "-5,5000,7,1e3,zzz,") (fresh_link 5.0 1%nat) 1%nat
                  (line "-5,5000,7,1e3,zzz,") eq_refl eq_refl eq_refl)).
  exists (-5), 5000, 7, 1000%float.
  split; [|split; reflexivity].
  unfold parses. split; [vm_compute; discriminate|].
  split; [vm_compute; repeat constructor|]. repeat split; vm_compute; reflexivity.
Defined.

(** A good line with both readings inside the range, read on a freshly
    opened port. *)
Lemma frame_maps_fields_along_the_lines_witness :
  exists x y qx qy oa ob,
    map_value (I 1234) (I 0) (I 4095) (I 240) (I 120) = Return (F x) /\
    map_value (I 4095) (I 0) (I 4095) (I 0) (I 6000) = Return (F y) /\
    exact x = Some qx /\
    (Qabs (qx - (240 - (120 # 4095) * inject_Z 1234)) <= 1 # 2 ^ 45)%Q /\
    exact y = Some qy /\
    (Qabs (qy - (6000 # 4095) * inject_Z 4095) <= 1 # 2 ^ 41)%Q /\
    (1234 = 0 -> x = 240%float) /\ (1234 = 4095 -> x = 120%float) /\
    (4095 = 0 -> y = 0%float) /\ (4095 = 4095 -> y = 6000%float) /\
    to_float (smoothed_rudder_angle (fresh_link 5.0 1%nat)) = Return oa /\
    to_float (smoothed_engine_rpm (fresh_link 5.0 1%nat)) = Return ob /\
    forall now,
      process_serial_data (B := ascii_builtins) (good_wire "1234,4095,3,2.5") now
        (fresh_link 5.0 1%nat) =
      (Return tt,
       taken (fresh_link 5.0 1%nat) 3 2.5
         (F (if eqb (smoothed_rudder_angle (fresh_link 5.0 1%nat)) (I 0) then x
             else (0.3 * x + (1 - 0.3) * oa)%float))
         (F (if eqb (smoothed_engine_rpm (fresh_link 5.0 1%nat)) (I 0) then y
             else (0.3 * y + (1 - 0.3) * ob)%float))
         now).
Proof.
  apply (frame_maps_fields_along_the_lines (B := ascii_builtins)
           (good_wire "1234,4095,3,2.5") (fresh_link 5.0 1%nat) 1%nat
           (line "1234,4095,3,2.5") 1234 4095 3 2.5%float);
    try reflexivity; try lia.
  unfold parses. split; [vm_compute; discriminate|].
  split; [vm_compute; apply le_n|]. repeat split; vm_compute; reflexivity.
Defined.

(** C10, as stated, fails: the four fields of [huge_line] parse (the first
    as 10^400), yet the line is not accepted, because mapping the reading
    raises [OverflowError]. *)
Lemma huge_reading_parses_but_is_dropped :
  parses (B := ascii_builtins) (line huge_line) (10 ^ 400) 0 0 0%float /\
  ~ frame_accepted (B := ascii_builtins) (good_wire huge_line) (fresh_link 5.0 1%nat).
Proof.
  split.
  - unfold parses. split; [vm_compute; discriminate|].
    split; [vm_compute; apply le_n|]. repeat split; vm_compute; reflexivity.
  - intros A. specialize (A 7.5%float).
    pose proof (f_equal (fun x => PrimFloat.eqb x 7.5) A) as A'.
    vm_compute in A'. discriminate.
Qed.

(** C1: the code does not seed.  After boot has put the display at its
    centred defaults, the first loop pass opens the port and reads the
    frame [0,0,2,1.5], whose mapped values are 240 degrees and 0 RPM; the
    smoothed values stored are 198 and 2100, the blend of those with 180
    and 3000. *)
Theorem first_frame_after_reset_is_blended :
  let g := exec (bind (boot 5.0) (fun _ => run (B := ascii_builtins) [line_tick 5.5 "0,0,2,1.5"]))
             module_globals in
  trim_angle_of 0 = Return (F 240) /\
  rpm_of 0 = Return (F 0) /\
  last_good_frame_time g = 5.5%float /\
  smoothed_rudder_angle g = F 198 /\
  smoothed_engine_rpm g = F 2100.
Proof. vm_compute. repeat split. Qed.

(** C2: the code mutates the gear code on a line it rejects.  The fuel
    field of [100,200,3,abc] does not parse; the time of the last good
    frame stays, the fuel rate stays absent, but the gear code has gone
    from absent to 3 and the shift box from a dash to F. *)
Theorem bad_fuel_field_still_changes_gear :
  let g0 := exec (boot 5.0) module_globals in
  let g := exec (run (B := ascii_builtins) [line_tick 5.5 "100,200,3,abc"]) g0 in
  py_float (Builtins := ascii_builtins) "abc" = Raise ValueError /\
  last_good_frame_time g = 5.0%float /\
  fuel_consumption g = None /\
  shift_indicator g0 = None /\ gear_letter g0 = "-"%string /\
  shift_indicator g = Some 3 /\ gear_letter g = "F"%string.
Proof. vm_compute. repeat split. Qed.

(** C3: the code closes the port on a parse failure.  The second field of
    [12,x,3,4.0] is not an int: the port opened in that same pass is
    closed and [ser] is gone, and the good frame offered half a second
    later is never read, the retry period not having passed. *)
Theorem parse_failure_closes_port :
  let g0 := exec (boot 5.0) module_globals in
  let g1 := exec (run (B := ascii_builtins) [line_tick 5.5 "12,x,3,4.0"]) g0 in
  let g2 := exec (run (B := ascii_builtins) [line_tick 6.0 "100,200,3,1.5"]) g1 in
  py_int (Builtins := ascii_builtins) "x" = Raise ValueError /\
  ser g1 = None /\
  trace g1 = [EvClose 1%nat; EvPrintError ValueError; EvPrintOpened; EvOpen 5.5] /\
  ser g2 = None /\
  last_good_frame_time g2 = 5.0%float /\
  trace g2 = trace g1.
Proof. vm_compute. repeat split. Qed.

(** The two loops of a display left stale for a second and a half. *)
Lemma stale_tick_centers_display_witness :
  let g3 := exec (tick (B := ascii_builtins) (idle_tick 7.0 (plugged 1%nat)))
              (taken (fresh_link 5.0 1%nat) 2 1.5 (F 198) (F 2100) 5.5) in
  rudder_angle g3 = I 180 /\ engine_rpm g3 = I 3000 /\
  smoothed_engine_rpm g3 = I 3000 /\ smoothed_rudder_angle g3 = I 180 /\
  shift_indicator g3 = None /\ fuel_consumption g3 = None.
Proof.
  apply (stale_tick_centers_display (B := ascii_builtins)). reflexivity.
Defined.

(** A second call one second after a failed attempt does nothing. *)
Lemma open_attempts_respect_cooldown_witness :
  try_open_serial 6.0 (plugged 1%nat) (attempt 5.0 unplugged module_globals) =
  (Return tt, attempt 5.0 unplugged module_globals).
Proof.
  apply (proj1 (proj2 (open_attempts_respect_cooldown (B := ascii_builtins)))).
  reflexivity.
Defined.

(** The device goes away while the port is open. *)
Lemma mid_read_fault_drops_link_witness :
  let g2 := exec (process_serial_data (B := ascii_builtins) dead_wire 7.5) (fresh_link 5.0 1%nat) in
  fst (process_serial_data (B := ascii_builtins) dead_wire 7.5 (fresh_link 5.0 1%nat)) = Return tt /\
  ser g2 = None /\
  trace g2 = EvClose 1%nat :: EvPrintError SerialException :: trace (fresh_link 5.0 1%nat) /\
  last_serial_try_time g2 = last_serial_try_time (fresh_link 5.0 1%nat) /\
  forall now' dev,
    try_open_serial now' dev g2 =
    if (now' - last_serial_try_time (fresh_link 5.0 1%nat) <? SERIAL_RETRY_SECONDS)%float
    then (Return tt, g2) else (Return tt, attempt now' dev g2).
Proof.
  apply (mid_read_fault_drops_link (B := ascii_builtins) dead_wire 7.5
           (fresh_link 5.0 1%nat) (fresh_link 5.0 1%nat) 1%nat SerialException);
    reflexivity.
Defined.

(** * More of the display loop *)


(** ** The value boxes *)

(** X3: the shift box shows R, N or F exactly for the gear codes 1, 2 and
    3 and a dash for everything else, code 0 and an absent code alike; the
    letter is drawn in yellow exactly when it is N. *)
Theorem gear_box_letter_and_colour (g : globals) :
  (gear_letter g = "R"%string <-> shift_indicator g = Some 1) /\
  (gear_letter g = "N"%string <-> shift_indicator g = Some 2) /\
  (gear_letter g = "F"%string <-> shift_indicator g = Some 3) /\
  (gear_letter g = "-"%string <->
   shift_indicator g <> Some 1 /\ shift_indicator g <> Some 2 /\ shift_indicator g <> Some 3) /\
  (gear_color g = (252, 241, 7) <-> gear_letter g = "N"%string) /\
  (gear_color g = WHITE <-> gear_letter g <> "N"%string).
Proof.
  unfold gear_letter, gear_color, gear_lookup, WHITE.
  destruct (shift_indicator g) as [z|]; cbn [dict_get].
  - destruct (Z.eqb_spec z 1) as [->|N1]; [cbn; repeat split; intros; intuition congruence|].
    destruct (Z.eqb_spec z 2) as [->|N2]; [cbn; repeat split; intros; intuition congruence|].
    destruct (Z.eqb_spec z 3) as [->|N3]; [cbn; repeat split; intros; intuition congruence|].
    repeat split; intros; try congruence; intuition congruence.
  - repeat split; intros; try congruence; intuition congruence.
Qed.

(** X4: on any screen the fuel box and the shift box are 180 wide and 100
    high, lie 180 to the left and 180 to the right of the horizontal
    centre, and are centred vertically on the midpoint between the two
    gauge centres; every text is centred on a point inside its box; and on
    a screen of width [W >= 0] both boxes lie within the width exactly when
    [W >= 720]. *)
Theorem value_boxes_layout (s : screen_info) :
  let b := draw_fuel_and_shift_boxes s in
  let cx := SCREEN_WIDTH s / 2 in
  let cy := (snd (GAUGE_TOP_CENTER s) + snd (GAUGE_BOTTOM_CENTER s)) / 2 in
  (Rect.w (fuel_rect b) = 180 /\ Rect.h (fuel_rect b) = 100 /\
   Rect.w (shift_rect b) = 180 /\ Rect.h (shift_rect b) = 100) /\
  (cx - Rect.right (fuel_rect b) = 180 /\ Rect.left (shift_rect b) - cx = 180) /\
  (Rect.centery (fuel_rect b) = cy /\ Rect.centery (shift_rect b) = cy) /\
  (forall p, In p [fuel_text_at b; gal_label_at b; hr_label_at b] ->
             Rect.left (fuel_rect b) <= fst p <= Rect.right (fuel_rect b) /\
             Rect.top (fuel_rect b) <= snd p <= Rect.bottom (fuel_rect b)) /\
  (Rect.left (shift_rect b) <= fst (gear_text_at b) <= Rect.right (shift_rect b) /\
   Rect.top (shift_rect b) <= snd (gear_text_at b) <= Rect.bottom (shift_rect b)) /\
  (0 <= SCREEN_WIDTH s ->
   (0 <= Rect.left (fuel_rect b) /\ Rect.right (shift_rect b) <= SCREEN_WIDTH s
    <-> 720 <= SCREEN_WIDTH s)).
Proof.
  destruct s as [W H].
  cbv [draw_fuel_and_shift_boxes GAUGE_TOP_CENTER GAUGE_BOTTOM_CENTER
       SCREEN_WIDTH SCREEN_HEIGHT fst snd
       fuel_rect shift_rect fuel_text_at gal_label_at hr_label_at gear_text_at
       Rect.left Rect.right Rect.top Rect.bottom Rect.centerx Rect.centery Rect.center
       Rect.x Rect.y Rect.w Rect.h].
  change (100 / 2) with 50. change (180 / 2) with 90. change (180 / 3) with 60.
  repeat split; try lia; try div_lia.
  - destruct H0 as [<-|[<-|[<-|[]]]]; cbn [fst]; lia.
  - destruct H0 as [<-|[<-|[<-|[]]]]; cbn [fst]; lia.
  - destruct H0 as [<-|[<-|[<-|[]]]]; cbn [snd]; div_lia.
  - destruct H0 as [<-|[<-|[<-|[]]]]; cbn [snd]; div_lia.
Qed.

(** ** The gauge discs *)

Lemma radius_checked :
  all_from 0 (Z.to_nat 16385)
    (fun n => match GAUGE_RADIUS {| SCREEN_WIDTH := n; SCREEN_HEIGHT := n |} with
              | Return r => r =? 3 * n / 10
              | Raise _ => false
              end) = true.
Proof. vm_cast_no_check (eq_refl true). Qed.

Lemma GAUGE_RADIUS_eq (s : screen_info) :
  0 <= smaller_dim s <= 16384 ->
  GAUGE_RADIUS s = Return (3 * smaller_dim s / 10).
Proof.
  intros R.
  assert (C := all_from_spec _ _ _ (smaller_dim s) radius_checked ltac:(lia)).
  cbv beta in C.
  change (GAUGE_RADIUS {| SCREEN_WIDTH := smaller_dim s; SCREEN_HEIGHT := smaller_dim s |})
    with (rbind (mul (I (Z.min (smaller_dim s) (smaller_dim s))) (F 0.3)) int_of_num) in C.
  rewrite Z.min_id in C. fold (GAUGE_RADIUS s) in C.
  destruct (GAUGE_RADIUS s) as [r|]; [|discriminate C].
  f_equal. apply Z.eqb_eq, C.
Qed.

(** X5: on a screen of up to 16384 by 16384 the gauge radius is
    [3 * min(W, H) / 10] rounded down, and both discs lie within the width
    of the screen.  Where [6 * W + 315 <= 5 * H] (a portrait screen) both
    discs also lie within the height and do not overlap.  On a landscape
    or square screen the top disc always reaches above the top edge, and
    from a height of 324 on the two discs overlap. *)
Theorem gauge_discs_layout (s : screen_info) :
  0 <= SCREEN_WIDTH s <= 16384 ->
  0 <= SCREEN_HEIGHT s <= 16384 ->
  exists r,
    GAUGE_RADIUS s = Return r /\
    r = 3 * Z.min (SCREEN_WIDTH s) (SCREEN_HEIGHT s) / 10 /\
    (0 <= fst (GAUGE_TOP_CENTER s) - r /\ fst (GAUGE_TOP_CENTER s) + r <= SCREEN_WIDTH s) /\
    fst (GAUGE_BOTTOM_CENTER s) = fst (GAUGE_TOP_CENTER s) /\
    (6 * SCREEN_WIDTH s + 315 <= 5 * SCREEN_HEIGHT s ->
     0 <= snd (GAUGE_TOP_CENTER s) - r /\
     snd (GAUGE_TOP_CENTER s) + r <= snd (GAUGE_BOTTOM_CENTER s) - r /\
     snd (GAUGE_BOTTOM_CENTER s) + r <= SCREEN_HEIGHT s) /\
    (SCREEN_HEIGHT s <= SCREEN_WIDTH s ->
     snd (GAUGE_TOP_CENTER s) - r < 0 /\
     (324 <= SCREEN_HEIGHT s ->
      snd (GAUGE_BOTTOM_CENTER s) - r < snd (GAUGE_TOP_CENTER s) + r)).
Proof.
  intros RW RH. exists (3 * smaller_dim s / 10).
  split; [apply GAUGE_RADIUS_eq; unfold smaller_dim; lia|].
  destruct s as [W H].
  cbv [smaller_dim GAUGE_TOP_CENTER GAUGE_BOTTOM_CENTER SCREEN_WIDTH SCREEN_HEIGHT fst snd] in *.
  split; [reflexivity|].
  repeat split; intros; div_lia.
Qed.

(** ** The dotted arcs *)

Lemma py_range_up (lo hi step : Z) :
  0 < step ->
  exists l,
    py_range lo hi step = Return l /\
    (forall d, In d l <-> lo <= d < hi /\ (d - lo) mod step = 0) /\
    List.length l = Z.to_nat (if lo <? hi then (hi - lo - 1) / step + 1 else 0).
Proof.
  intros S. unfold py_range. destruct step as [|p|p]; try lia.
  set (st := Z.pos p) in *.
  set (n := if lo <? hi then (hi - lo - 1) / st + 1 else 0).
  eexists. split; [reflexivity|]. split; [|rewrite length_map, length_seq; reflexivity].
  intros d. rewrite in_map_iff. split.
  - intros (i & <- & Hi). apply in_seq in Hi.
    assert (Hn : Z.of_nat i < n) by lia.
    unfold n in Hn. destruct (Z.ltb_spec lo hi) as [L|L]; [|lia].
    assert (Z.of_nat i <= (hi - lo - 1) / st) by lia.
    assert (Z.of_nat i * st <= hi - lo - 1).
    { transitivity (st * ((hi - lo - 1) / st)); [nia|apply Z.mul_div_le; lia]. }
    split; [nia|].
    replace (lo + Z.of_nat i * st - lo) with (Z.of_nat i * st) by lia.
    apply Z_mod_mult.
  - intros (Hd & Hm).
    exists (Z.to_nat ((d - lo) / st)). split.
    + rewrite Z2Nat.id by (apply Z.div_pos; lia).
      pose proof (Z.div_mod (d - lo) st ltac:(lia)). lia.
    + apply in_seq. split; [lia|]. cbn [Nat.add].
      unfold n. destruct (Z.ltb_spec lo hi) as [L|L]; [|lia].
      assert ((d - lo) / st <= (hi - lo - 1) / st) by (apply Z.div_le_mono; lia).
      assert (0 <= (d - lo) / st) by (apply Z.div_pos; lia).
      lia.
Qed.

(** X6: [draw_dotted_arc] with a step of 0 raises [ValueError]; with a
    positive step it draws a dot at exactly the degrees from [start_deg] to
    [end_deg], both included, that a whole number of steps separates from
    [start_deg]: none when [end_deg < start_deg], and otherwise
    [(end_deg - start_deg) / step_deg + 1] of them. *)
Theorem dotted_arc_degrees_spec (start_deg end_deg step_deg : Z) :
  dotted_arc_degrees start_deg end_deg 0 = Raise ValueError /\
  (0 < step_deg ->
   exists l,
     dotted_arc_degrees start_deg end_deg step_deg = Return l /\
     (forall d, In d l <-> start_deg <= d <= end_deg /\ (d - start_deg) mod step_deg = 0) /\
     (end_deg < start_deg -> l = []) /\
     (start_deg <= end_deg ->
      Z.of_nat (List.length l) = (end_deg - start_deg) / step_deg + 1)).
Proof.
  split; [reflexivity|]. intros S. unfold dotted_arc_degrees.
  destruct (py_range_up start_deg (end_deg + 1) step_deg S) as (l & E & M & L).
  exists l. split; [exact E|]. split; [|split].
  - intros d. rewrite M. intuition lia.
  - intros Lt. destruct (Z.ltb_spec start_deg (end_deg + 1)); [lia|].
    destruct l; [reflexivity|discriminate].
  - intros Le. rewrite L. destruct (Z.ltb_spec start_deg (end_deg + 1)); [|lia].
    replace (end_deg + 1 - start_deg - 1) with (end_deg - start_deg) by lia.
    assert (0 <= (end_deg - start_deg) / step_deg) by (apply Z.div_pos; lia).
    lia.
Qed.

(** ** The needles *)

Lemma needle_checked :
  all_from 0 (Z.to_nat 6001)
    (fun n => match float_of_int n with
              | Return x =>
                  within (needle_angle (F x)) (150 + (1 # 25) * inject_Z n) (1 # 2 ^ 44)
              | Raise _ => false
              end) = true.
Proof. vm_cast_no_check (eq_refl true). Qed.

Lemma needle_of_reading_checked :
  all_from 0 (Z.to_nat 4096)
    (fun raw => match rpm_of raw with
                | Return v =>
                    within (needle_angle v) (150 + (240 # 4095) * inject_Z raw) (1 # 2 ^ 43)
                | Raise _ => false
                end) = true.
Proof. vm_cast_no_check (eq_refl true). Qed.

(** X7: the RPM needle agrees with the printed scale.  For every whole
    RPM from 0 to 6000 the needle angle is [150 + RPM / 25] degrees to
    within 2^-44; at each labelled tick the needle angle for 100 times the
    label is exactly the tick's angle, and likewise at the unlabelled
    ticks half way between; the centred default 3000 points at 270; and a
    raw reading in 0..4095, mapped to RPM and then to the needle, lands
    within 2^-43 of [150 + 240 * raw / 4095] degrees. *)
Theorem rpm_needle_follows_scale :
  (forall n, 0 <= n <= 6000 ->
     exists x z q,
       float_of_int n = Return x /\ needle_angle (F x) = Return (F z) /\
       exact z = Some q /\
       (Qabs (q - (150 + (1 # 25) * inject_Z n)) <= 1 # 2 ^ 44)%Q) /\
  Forall2
    (fun deg label =>
       exists n x d,
         AsciiText.int_of_string label = Return n /\
         float_of_int (100 * n) = Return x /\ float_of_int deg = Return d /\
         needle_angle (F x) = Return (F d))
    major_ticks tick_labels /\
  Forall2
    (fun deg k =>
       exists x d,
         float_of_int (500 + 1000 * k) = Return x /\ float_of_int deg = Return d /\
         needle_angle (F x) = Return (F d))
    minor_ticks [0; 1; 2; 3; 4; 5] /\
  needle_angle (I 3000) = Return (F 270) /\
  (forall raw, 0 <= raw <= 4095 ->
     exists v z q,
       rpm_of raw = Return v /\ needle_angle v = Return (F z) /\
       exact z = Some q /\
       (Qabs (q - (150 + (240 # 4095) * inject_Z raw)) <= 1 # 2 ^ 43)%Q).
Proof.
  split; [|split; [|split; [|split]]].
  - intros n R.
    assert (C := all_from_spec _ _ _ n needle_checked ltac:(lia)). cbv beta in C.
    destruct (float_of_int n) as [x|]; [|discriminate].
    destruct (within_spec _ _ _ C) as (z & q & E & Q & Bd).
    exists x, z, q. auto.
  - unfold major_ticks, tick_labels.
    repeat constructor; do 3 eexists; repeat split; vm_compute; reflexivity.
  - unfold minor_ticks.
    repeat constructor; do 2 eexists; repeat split; vm_compute; reflexivity.
  - vm_compute. reflexivity.
  - intros raw R.
    assert (C := all_from_spec _ _ _ raw needle_of_reading_checked ltac:(lia)).
    cbv beta in C.
    destruct (rpm_of raw) as [v|]; [|discriminate].
    destruct (within_spec _ _ _ C) as (z & q & E & Q & Bd).
    exists v, z, q. auto.
Qed.

(** The needle at 1234 RPM. *)
Lemma rpm_needle_follows_scale_witness :
  exists x z q,
    float_of_int 1234 = Return x /\ needle_angle (F x) = Return (F z) /\
    exact z = Some q /\
    (Qabs (q - (150 + (1 # 25) * inject_Z 1234)) <= 1 # 2 ^ 44)%Q.
Proof. apply (proj1 rpm_needle_follows_scale 1234). lia. Defined.

Lemma trim_needle_checked :
  all_from 0 (Z.to_nat 4096)
    (fun raw =>
       match rbind (trim_angle_of raw) trim_needle_degrees with
       | Return (F d) =>
           match exact d with
           | Some q =>
               Qle_bool 30 q && Qle_bool q 150 &&
               (if raw <=? 2047 then negb (Qle_bool q 90) else negb (Qle_bool 90 q))
           | None => false
           end
       | _ => false
       end) = true.
Proof. vm_cast_no_check (eq_refl true). Qed.

(** X8: for every raw reading in 0..4095 the direction of the trim needle
    (the mapped angle plus the offset of -90) lies between 30 and 150
    degrees, the span of the two dotted arcs; readings up to 2047 point
    past 90 and readings from 2048 on short of 90; the centred default 180
    points at exactly 90, where the two arcs meet. *)
Theorem trim_needle_within_arcs (raw : Z) :
  0 <= raw <= 4095 ->
  (exists x d q,
      trim_angle_of raw = Return (F x) /\
      trim_needle_degrees (F x) = Return (F d) /\
      exact d = Some q /\
      (30 <= q <= 150)%Q /\
      (raw <= 2047 -> (90 < q)%Q) /\
      (2048 <= raw -> (q < 90)%Q)) /\
  trim_needle_degrees (I 180) = Return (I 90).
Proof.
  intros R. split; [|reflexivity].
  assert (C := all_from_spec _ _ _ raw trim_needle_checked ltac:(lia)). cbv beta in C.
  destruct (trim_angle_of raw) as [v|] eqn:T; [|discriminate].
  destruct (map_value_float _ _ _ _ T) as [x ->]. cbn [rbind] in C.
  destruct (trim_needle_degrees (F x)) as [[z|d]|] eqn:D; try discriminate.
  destruct (exact d) as [q|] eqn:Q; [|discriminate].
  apply andb_true_iff in C. destruct C as [C Side].
  apply andb_true_iff in C. destruct C as [Lo Hi].
  apply Qle_bool_iff in Lo. apply Qle_bool_iff in Hi.
  exists x, d, q.
  split; [reflexivity|]. split; [exact D|]. split; [exact Q|].
  split; [split; assumption|]. split.
  - intros Le. destruct (Z.leb_spec raw 2047); [|lia].
    apply Qnot_le_lt. intros Bad. apply Qle_bool_iff in Bad.
    rewrite Bad in Side. discriminate.
  - intros Ge. destruct (Z.leb_spec raw 2047); [lia|].
    apply Qnot_le_lt. intros Bad. apply Qle_bool_iff in Bad.
    rewrite Bad in Side. discriminate.
Qed.

(** The needle of a reading near the top of the range. *)
Lemma trim_needle_within_arcs_witness :
  (exists x d q,
      trim_angle_of 4000 = Return (F x) /\
      trim_needle_degrees (F x) = Return (F d) /\
      exact d = Some q /\
      (30 <= q <= 150)%Q /\
      (4000 <= 2047 -> (90 < q)%Q) /\
      (2048 <= 4000 -> (q < 90)%Q)) /\
  trim_needle_degrees (I 180) = Return (I 90).
Proof. apply (trim_needle_within_arcs 4000). lia. Defined.

(** ** The loop from boot to exit *)

Lemma close_serial_effect (w : wire) (g : globals) :
  fst (close_serial w g) = Return tt /\
  ser (exec (close_serial w) g) = None /\
  opens (trace (exec (close_serial w) g)) = opens (trace g) /\
  closes (trace (exec (close_serial w) g)) = (closes (trace g) + held g)%nat.
Proof.
  unfold exec, held, close_serial, bind, gets, try_except, lift, emit, modify, assign_ser.
  unfold opens, closes.
  cbn. destruct (ser g); cbn; [destruct (wire_close w); cbn|];
    repeat split; try reflexivity; lia.
Qed.

Section LoopProperties.

Context {B : Builtins}.

Lemma exec_run_cons (e : tick_env) (envs : list tick_env) (g : globals) :
  exec (run (e :: envs)) g = exec (run envs) (exec (tick e) g).
Proof.
  unfold exec at 1. cbn [run].
  rewrite (bind_return _ _ _ _ tt (completes_eq _ _ (tick_returns e g))). reflexivity.
Qed.

Lemma main_loop_cons (p : pass) (rest : list pass) (g : globals) :
  main_loop (p :: rest) g =
  if stops p then (Return true, exec (tick (pass_env p)) g)
  else main_loop rest (exec (tick (pass_env p)) g).
Proof.
  cbn [main_loop].
  rewrite (bind_return _ _ _ _ tt (completes_eq _ _ (tick_returns (pass_env p) g))).
  destruct (stops p); reflexivity.
Qed.

(** What a pass keeps, the loop keeps. *)
Lemma main_loop_keeps (P : globals -> Prop) (passes : list pass) :
  (forall p g, In p passes -> P g -> P (exec (tick (pass_env p)) g)) ->
  forall g, P g -> P (exec (main_loop passes) g).
Proof.
  induction passes as [|p rest IH]; intros K g H; [exact H|].
  unfold exec. rewrite main_loop_cons.
  assert (H1 : P (exec (tick (pass_env p)) g)) by (apply K; [left; reflexivity|exact H]).
  destruct (stops p); [exact H1|].
  apply IH; [|exact H1]. intros q g' Hq. apply K. right. exact Hq.
Qed.

Lemma main_loop_returns (passes : list pass) (g : globals) :
  exists ended, fst (main_loop passes g) = Return ended.
Proof.
  revert g. induction passes as [|p rest IH]; intros g; [exists false; reflexivity|].
  rewrite main_loop_cons. destruct (stops p); [exists true; reflexivity|apply IH].
Qed.

Lemma balanced_tick (e : tick_env) (g : globals) :
  balanced g -> balanced (exec (tick e) g).
Proof.
  intros Bal. rewrite exec_tick.
  assert (B1 : balanced (exec (try_open_serial (clock_open e) (the_device e)) g)).
  { unfold exec. destruct (ser g) as [h|] eqn:E.
    - rewrite (try_open_serial_connected _ _ _ _ E). exact Bal.
    - destruct (clock_open e - last_serial_try_time g <? SERIAL_RETRY_SECONDS)%float eqn:C.
      + rewrite (try_open_serial_cooling _ _ _ C). exact Bal.
      + rewrite (try_open_serial_attempts _ _ _ E C).
        unfold balanced, held, attempt in *. rewrite E in Bal. cbn.
        destruct (opened (the_device e)); cbn; unfold opens, closes in *; lia. }
  set (g1 := exec (try_open_serial _ _) g) in *.
  assert (B2 : balanced (exec (process_serial_data (the_wire e) (clock_frame e)) g1)).
  { unfold exec. destruct (ser g1) as [h|] eqn:E.
    - rewrite (process_serial_data_eq _ _ _ _ E).
      destruct (read_frame (the_wire e) (clock_frame e) g1) as [[[]|x] g'] eqn:R;
        destruct (read_frame_link _ _ _ _ _ R) as (S & _ & T);
        unfold balanced, held in *; cbn; rewrite ?S, ?T; [exact B1|].
      rewrite E in B1. cbn. unfold opens, closes in *. cbn. lia.
    - rewrite (process_serial_data_unconnected _ _ _ E). exact B1. }
  set (g2 := exec (process_serial_data _ _) g1) in *.
  unfold exec, check_stale, bind, gets.
  destruct (_ <? _)%float; [rewrite set_no_data_state_eq|]; exact B2.
Qed.

(** X10: the trace accounts for the port throughout.  At every point the
    loop can be left at, the successful opens number one more than the
    closes if a port is held and as many if none is; and when the script
    has run to its end after the loop stopped, no port is held and every
    port opened has been closed, once. *)
Theorem port_is_accounted_for (now : float) (passes : list pass) (w : wire) :
  let g1 := exec (bind (boot now) (fun _ => main_loop passes)) module_globals in
  let g2 := exec (main now passes w) module_globals in
  balanced g1 /\
  (fst (main now passes w module_globals) = Return true ->
   ser g2 = None /\ opens (trace g2) = closes (trace g2)) /\
  (fst (main now passes w module_globals) = Return false -> g2 = g1).
Proof.
  cbv zeta.
  assert (Bt : balanced (exec (boot now) module_globals)) by reflexivity.
  assert (E1 : exec (bind (boot now) (fun _ => main_loop passes)) module_globals =
               exec (main_loop passes) (exec (boot now) module_globals)) by reflexivity.
  rewrite E1.
  pose proof (main_loop_keeps balanced passes
                (fun p g _ => balanced_tick (pass_env p) g) _ Bt) as Bal.
  split; [exact Bal|].
  assert (M : main now passes w module_globals =
              match main_loop passes (exec (boot now) module_globals) with
              | (Return true, g) => (Return true, exec (close_serial w) g)
              | (Return false, g) => (Return false, g)
              | (Raise e, g) => (Raise e, g)
              end).
  { unfold main.
    rewrite (bind_return (boot now) _ module_globals (exec (boot now) module_globals) tt eq_refl).
    unfold bind at 1.
    destruct (main_loop passes (exec (boot now) module_globals)) as [[[]|e] g]; try reflexivity.
    rewrite (bind_return _ _ _ _ tt (completes_eq _ _ (close_serial_returns w g))).
    reflexivity. }
  assert (Y : exec (main now passes w) module_globals =
              snd (main now passes w module_globals)) by reflexivity.
  rewrite Y, M. clear Y M.
  destruct (main_loop passes (exec (boot now) module_globals)) as [[[]|e] g] eqn:L;
    cbn [fst snd].
  - assert (X : exec (main_loop passes) (exec (boot now) module_globals) = g)
      by (unfold exec at 1; rewrite L; reflexivity).
    rewrite X in *. split; [|intros; discriminate].
    intros _. destruct (close_serial_effect w g) as (_ & S & O & C).
    split; [exact S|]. rewrite O, C. exact Bal.
  - assert (X : exec (main_loop passes) (exec (boot now) module_globals) = g)
      by (unfold exec at 1; rewrite L; reflexivity).
    rewrite X. split; [intros; discriminate|reflexivity].
  - split; intros; discriminate.
Qed.

Lemma synced_frame_outcome (values : list string) (now : float) (g g' : globals)
      (r : result unit) :
  synced g -> frame_outcome values now g = (r, g') -> synced g'.
Proof.
  intros (U & Ra & Rr). unfold frame_outcome.
  destruct (py_int (field values 0)) as [a|]; [|intros [= <- <-]; repeat split; assumption].
  destruct (py_int (field values 1)) as [b|]; [|intros [= <- <-]; repeat split; assumption].
  destruct (py_int (field values 2)); [|intros [= <- <-]; repeat split; assumption].
  destruct (py_float (field values 3)); [|intros [= <- <-]; repeat split; assumption].
  cbv zeta.
  destruct (trim_angle_of a) as [angle|] eqn:TA; [|intros [= <- <-]; repeat split; assumption].
  destruct (rpm_of b) as [rpm|] eqn:RP; [|intros [= <- <-]; repeat split; assumption].
  destruct (map_value_float _ _ _ _ TA) as [x ->].
  destruct (map_value_float _ _ _ _ RP) as [y ->].
  destruct (seed_or_blend (F y) _) as [sr|] eqn:Sr;
    [|intros [= <- <-]; repeat split; assumption].
  destruct (seed_or_blend_float _ _ _ Sr) as [sy ->].
  unfold usable in U.
  destruct (to_float (smoothed_engine_rpm g)); [|discriminate].
  destruct (to_float (smoothed_rudder_angle g)) as [oa|] eqn:Oa; [|discriminate].
  destruct (seed_or_blend_usable x _ _ Oa) as [sx ->].
  intros [= <- <-]. repeat split.
Qed.

Lemma synced_tick (e : tick_env) (g : globals) : synced g -> synced (exec (tick e) g).
Proof.
  intros Sy. rewrite exec_tick.
  assert (S1 : synced (exec (try_open_serial (clock_open e) (the_device e)) g)).
  { unfold exec. destruct (ser g) as [h|] eqn:E.
    - rewrite (try_open_serial_connected _ _ _ _ E). exact Sy.
    - destruct (clock_open e - last_serial_try_time g <? SERIAL_RETRY_SECONDS)%float eqn:C.
      + rewrite (try_open_serial_cooling _ _ _ C). exact Sy.
      + rewrite (try_open_serial_attempts _ _ _ E C). exact Sy. }
  set (g1 := exec (try_open_serial _ _) g) in *.
  assert (S2 : synced (exec (process_serial_data (the_wire e) (clock_frame e)) g1)).
  { unfold exec. destruct (ser g1) as [h|] eqn:E.
    - rewrite (process_serial_data_eq _ _ _ _ E), read_frame_eq.
      destruct (wire_readline (the_wire e)) as [raw|x]; [|exact S1].
      destruct raw; [exact S1|].
      destruct (_ <? _)%nat; [exact S1|].
      destruct (frame_outcome _ (clock_frame e) g1) as [[[]|x] g'] eqn:O;
        apply (synced_frame_outcome _ _ _ _ _ S1) in O; exact O.
    - rewrite (process_serial_data_unconnected _ _ _ E). exact S1. }
  set (g2 := exec (process_serial_data _ _) g1) in *.
  unfold exec, check_stale, bind, gets.
  destruct (_ <? _)%float; [rewrite set_no_data_state_eq; repeat split|exact S2].
Qed.

(** X11: at every point the loop can be left at, [rudder_angle] equals
    [smoothed_rudder_angle] and [engine_rpm] equals [smoothed_engine_rpm]:
    the angle gauge, drawn from [rudder_angle], and the RPM gauge, drawn
    from [smoothed_engine_rpm], both show the smoothed values. *)
Theorem display_follows_smoothed (now : float) (passes : list pass) :
  let g := exec (bind (boot now) (fun _ => main_loop passes)) module_globals in
  rudder_angle g = smoothed_rudder_angle g /\
  engine_rpm g = smoothed_engine_rpm g.
Proof.
  cbv zeta.
  change (exec (bind (boot now) (fun _ => main_loop passes)) module_globals)
    with (exec (main_loop passes) (exec (boot now) module_globals)).
  assert (S0 : synced (exec (boot now) module_globals)) by (repeat split).
  exact (proj2 (main_loop_keeps synced passes
                  (fun p g _ => synced_tick (pass_env p) g) _ S0)).
Qed.

(** X12: with the device absent on every pass, the loop never holds a
    port, every pass ends on the no-data display (angle 180, RPM 3000, no
    gear, no fuel rate), and the only thing done to the outside world is
    to try to open the port. *)
Theorem absent_device_shows_no_data (now : float) (passes : list pass) :
  (forall p, In p passes -> opened (the_device (pass_env p)) = None) ->
  waiting (exec (bind (boot now) (fun _ => main_loop passes)) module_globals).
Proof.
  intros Absent.
  change (exec (bind (boot now) (fun _ => main_loop passes)) module_globals)
    with (exec (main_loop passes) (exec (boot now) module_globals)).
  apply (main_loop_keeps waiting).
  - intros p g Hp (S & Ra & Rr & Sa & Sr & Gi & Fu & Tr).
    rewrite exec_tick.
    assert (W1 : waiting (exec (try_open_serial (clock_open (pass_env p))
                                  (the_device (pass_env p))) g)).
    { unfold exec.
      destruct (clock_open (pass_env p) - last_serial_try_time g <? SERIAL_RETRY_SECONDS)%float
        eqn:C.
      - rewrite (try_open_serial_cooling _ _ _ C). repeat split; assumption.
      - rewrite (try_open_serial_attempts _ _ _ S C).
        unfold waiting, attempt. cbn. rewrite (Absent p Hp).
        repeat split; try assumption. constructor; [eexists; reflexivity|exact Tr]. }
    set (g1 := exec (try_open_serial _ _) g) in *.
    assert (W2 : exec (process_serial_data (the_wire (pass_env p)) (clock_frame (pass_env p))) g1
                 = g1).
    { unfold exec. rewrite (process_serial_data_unconnected _ _ _ (proj1 W1)). reflexivity. }
    rewrite W2. destruct W1 as (S1 & Ra1 & Rr1 & Sa1 & Sr1 & Gi1 & Fu1 & Tr1).
    unfold exec, check_stale, bind, gets.
    destruct (_ <? _)%float; [rewrite set_no_data_state_eq|]; repeat split; assumption.
  - repeat split. constructor.
Qed.

(** X13: a frame taken in a pass is what the pass ends on, unless the
    loop's own clock reading is more than [DATA_STALE_SECONDS] past the
    frame's, in which case the same pass puts the no-data display back. *)
Theorem taken_frame_survives_the_pass
        (e : tick_env) (g : globals) (h : port)
        (raw : list Byte.byte) (a b gear : Z) (fuel : float) :
  ser g = Some h ->
  wire_readline (the_wire e) = Return raw ->
  usable g = true ->
  parses raw a b gear fuel ->
  maps_fit a b = true ->
  exists x y sx sy,
    trim_angle_of a = Return (F x) /\
    rpm_of b = Return (F y) /\
    seed_or_blend (F x) (smoothed_rudder_angle g) = Return (F sx) /\
    seed_or_blend (F y) (smoothed_engine_rpm g) = Return (F sy) /\
    exec (tick e) g =
    if (DATA_STALE_SECONDS <? clock_loop e - clock_frame e)%float
    then exec set_no_data_state (taken g gear fuel (F sx) (F sy) (clock_frame e))
    else taken g gear fuel (F sx) (F sy) (clock_frame e).
Proof.
  intros E R U P Fit.
  destruct (parsed_frame_taken _ _ _ _ _ _ _ _ E R U P Fit)
    as (x & y & sx & sy & TA & RP & Sx & Sy & T).
  exists x, y, sx, sy. repeat split; try assumption.
  rewrite exec_tick. unfold exec at 3.
  rewrite (try_open_serial_connected _ _ _ _ E). cbn [snd].
  unfold exec at 2. rewrite T. cbn [snd].
  unfold exec at 1, check_stale, bind, gets.
  cbn [taken last_good_frame_time].
  destruct (_ <? _)%float; reflexivity.
Qed.

Lemma feed_settles (w : wire) (h : port) (raw : list Byte.byte)
      (a b gear : Z) (fuel x y : float) (nows : list float) :
  wire_readline w = Return raw ->
  parses raw a b gear fuel ->
  trim_angle_of a = Return (F x) ->
  rpm_of b = Return (F y) ->
  forall g,
    ser g = Some h ->
    usable g = true ->
    exists sa sr,
      settle (List.length nows) (F x) (smoothed_rudder_angle g) = Return sa /\
      settle (List.length nows) (F y) (smoothed_engine_rpm g) = Return sr /\
      smoothed_rudder_angle (exec (feed w nows) g) = sa /\
      smoothed_engine_rpm (exec (feed w nows) g) = sr.
Proof.
  intros R P TA RP.
  assert (Fit : maps_fit a b = true) by (unfold maps_fit; rewrite TA, RP; reflexivity).
  induction nows as [|now rest IH]; intros g E U.
  - exists (smoothed_rudder_angle g), (smoothed_engine_rpm g). repeat split.
  - destruct (parsed_frame_taken _ _ _ _ _ _ _ _ E R U P Fit)
      as (x' & y' & sx & sy & TA' & RP' & Sx & Sy & T).
    rewrite TA in TA'. rewrite RP in RP'.
    injection TA' as <-. injection RP' as <-.
    destruct (IH (taken g gear fuel (F sx) (F sy) now) E eq_refl)
      as (sa & sr & Ha & Hr & Ga & Gr).
    exists sa, sr. cbn [List.length settle].
    rewrite Sx, Sy. cbn [rbind]. cbn [taken smoothed_rudder_angle smoothed_engine_rpm] in Ha, Hr.
    split; [exact Ha|]. split; [exact Hr|].
    unfold exec. cbn [feed]. rewrite (bind_return _ _ _ _ tt (T now)).
    split; assumption.
Qed.

End LoopProperties.

(** ** Settling *)

(** A float equals the int 0 exactly when it compares equal to 0.0. *)
Lemma int_eqb_float_zero (o : float) : int_eqb_float 0 o = (o =? 0)%float.
Proof.
  rewrite FloatAxioms.eqb_spec. unfold int_eqb_float.
  change (Prim2SF 0%float) with (S754_zero false).
  destruct (Prim2SF o) as [s|s| |s m e]; try reflexivity.
  - destruct s; reflexivity.
  - transitivity false; [|destruct s; reflexivity].
    assert (V : (if s then Z.neg m else Z.pos m) <> 0) by (destruct s; discriminate).
    set (v := if s then Z.neg m else Z.pos m) in *.
    destruct (Z.leb_spec 0 e) as [P|N].
    + apply Z.eqb_neq. pose proof (Z.pow_pos_nonneg 2 e ltac:(lia) P). nia.
    + pose proof (Z.pow_pos_nonneg 2 (- e) ltac:(lia) ltac:(lia)) as D.
      destruct (Z.eqb_spec (v mod 2 ^ (- e)) 0) as [M|M]; [|reflexivity].
      cbn [andb]. apply Z.eqb_neq. intros Q.
      pose proof (Z.div_mod v (2 ^ (- e)) ltac:(lia)). nia.
Qed.

Lemma seed_or_blend_floats (v o : float) :
  seed_or_blend (F v) (F o) = Return (F (step_float v o)).
Proof.
  unfold seed_or_blend, step_float. change (eqb (F o) (I 0)) with (int_eqb_float 0 o).
  rewrite int_eqb_float_zero.
  destruct (o =? 0)%float; [reflexivity|]. rewrite blend_eq. reflexivity.
Qed.

Lemma settle_floats (n : nat) (v o : float) :
  settle n (F v) (F o) = Return (F (settle_float n v o)).
Proof.
  revert o. induction n as [|n IH]; intros o; [reflexivity|].
  cbn [settle settle_float]. rewrite seed_or_blend_floats. cbn [rbind]. apply IH.
Qed.

Lemma settle_from_centre (n : nat) (v : float) :
  settle (S n) (F v) (I 180) =
  Return (F (settle_float n v (0.3 * v + (1 - 0.3) * 180)%float)) /\
  settle (S n) (F v) (I 3000) =
  Return (F (settle_float n v (0.3 * v + (1 - 0.3) * 3000)%float)).
Proof.
  cbn [settle]. unfold seed_or_blend.
  change (eqb (I 180) (I 0)) with false. change (eqb (I 3000) (I 0)) with false.
  cbv iota. rewrite !blend_eq.
  change (to_float (I 180)) with (Return 180%float).
  change (to_float (I 3000)) with (Return 3000%float).
  cbn [rbind]. split; apply settle_floats.
Qed.

Lemma settled_checked :
  all_from 0 (Z.to_nat 4096) (settled 29 (1 # 500) (1 # 10)) = true.
Proof. vm_cast_no_check (eq_refl true). Qed.

Lemma settled_spec (n : nat) (ea er : Q) (raw : Z) :
  settled n ea er raw = true ->
  exists x y qx qy sx sy qsx qsy,
    trim_angle_of raw = Return (F x) /\ rpm_of raw = Return (F y) /\
    exact x = Some qx /\ exact y = Some qy /\
    settle (S n) (F x) (I 180) = Return (F sx) /\ exact sx = Some qsx /\
    settle (S n) (F y) (I 3000) = Return (F sy) /\ exact sy = Some qsy /\
    (Qabs (qsx - qx) <= ea)%Q /\ (Qabs (qsy - qy) <= er)%Q.
Proof.
  unfold settled.
  destruct (trim_angle_of raw) as [[z|x]|]; try discriminate.
  destruct (rpm_of raw) as [[z|y]|]; try discriminate.
  destruct (exact x) as [qx|] eqn:Qx; try discriminate.
  destruct (exact y) as [qy|] eqn:Qy; try discriminate.
  intros H. apply andb_true_iff in H. destruct H as [Ha Hr].
  destruct (within_spec _ _ _ Ha) as (sx & qsx & Sa & Qa & Ba).
  destruct (within_spec _ _ _ Hr) as (sy & qsy & Sr & Qr & Br).
  exists x, y, qx, qy, sx, sy, qsx, qsy.
  rewrite (proj1 (settle_from_centre n x)), (proj2 (settle_from_centre n y)).
  repeat (split; [first [reflexivity|assumption]|]); assumption.
Qed.

(** X14: from the centred display, thirty frames in a row carrying the
    same in-range readings bring the smoothed angle to within 0.002 of a
    degree and the smoothed RPM to within 0.1 of the values mapped from
    those readings. *)
Theorem steady_frames_settle
        {B : Builtins} (w : wire) (g : globals) (h : port)
        (raw : list Byte.byte) (a b gear : Z) (fuel : float) (nows : list float) :
  ser g = Some h ->
  wire_readline w = Return raw ->
  parses raw a b gear fuel ->
  0 <= a <= 4095 ->
  0 <= b <= 4095 ->
  smoothed_rudder_angle g = I 180 ->
  smoothed_engine_rpm g = I 3000 ->
  List.length nows = 30%nat ->
  exists x y qx qy sx sy qsx qsy,
    trim_angle_of a = Return (F x) /\ exact x = Some qx /\
    rpm_of b = Return (F y) /\ exact y = Some qy /\
    smoothed_rudder_angle (exec (feed w nows) g) = F sx /\ exact sx = Some qsx /\
    smoothed_engine_rpm (exec (feed w nows) g) = F sy /\ exact sy = Some qsy /\
    (Qabs (qsx - qx) <= 1 # 500)%Q /\
    (Qabs (qsy - qy) <= 1 # 10)%Q.
Proof.
  intros E R P Ra Rb Ca Cr Len.
  destruct (settled_spec _ _ _ _ (all_from_spec _ _ _ a settled_checked ltac:(lia)))
    as (x & _ & qx & _ & sx & _ & qsx & _ & TA & _ & Qx & _ & Sx & Qsx & _ & _ & Bx & _).
  destruct (settled_spec _ _ _ _ (all_from_spec _ _ _ b settled_checked ltac:(lia)))
    as (_ & y & _ & qy & _ & sy & _ & qsy & _ & RP & _ & Qy & _ & _ & Sy & Qsy & _ & By).
  assert (U : usable g = true) by (unfold usable; rewrite Ca, Cr; reflexivity).
  destruct (feed_settles w h raw a b gear fuel x y nows R P TA RP g E U)
    as (sa & sr & Ha & Hr & Ga & Gr).
  rewrite Len, Ca in Ha. rewrite Len, Cr in Hr.
  rewrite Sx in Ha. rewrite Sy in Hr. injection Ha as <-. injection Hr as <-.
  exists x, y, qx, qy, sx, sy, qsx, qsy.
  repeat (split; [first [reflexivity|assumption]|]); assumption.
Qed.

(** ** Instances *)

(** On a screen 1080 wide both boxes are inside. *)
Lemma value_boxes_layout_witness :
  let b := draw_fuel_and_shift_boxes {| SCREEN_WIDTH := 1080; SCREEN_HEIGHT := 1920 |} in
  0 <= Rect.left (fuel_rect b) /\ Rect.right (shift_rect b) <= 1080.
Proof.
  apply (proj2 (proj2 (proj2 (proj2 (proj2
           (value_boxes_layout {| SCREEN_WIDTH := 1080; SCREEN_HEIGHT := 1920 |}))))));
    cbn; lia.
Defined.

(** On the portrait panel the radius is 144 and the discs are apart. *)
Lemma gauge_discs_layout_witness :
  exists r,
    GAUGE_RADIUS portrait = Return r /\ r = 144 /\
    snd (GAUGE_TOP_CENTER portrait) + r <= snd (GAUGE_BOTTOM_CENTER portrait) - r.
Proof.
  destruct (gauge_discs_layout portrait) as (r & E & V & _ & _ & Fit & _).
  - cbn. lia.
  - cbn. lia.
  - exists r. split; [exact E|]. split; [rewrite V; reflexivity|].
    apply Fit. cbn. lia.
Defined.

(** The green arc of the RPM gauge, 150 to 375 in steps of 4, has its last
    dot at 374. *)
Lemma dotted_arc_degrees_spec_witness :
  exists l,
    dotted_arc_degrees 150 375 4 = Return l /\
    In 374 l /\ ~ In 375 l /\ Z.of_nat (List.length l) = 57.
Proof.
  destruct (proj2 (dotted_arc_degrees_spec 150 375 4)) as (l & E & M & _ & L); [lia|].
  exists l. split; [exact E|]. split; [|split].
  - apply M. split; [lia|reflexivity].
  - intros Bad. apply M in Bad. destruct Bad as [_ Bad]. discriminate Bad.
  - rewrite L by lia. reflexivity.
Defined.

(** A run that opens the port, reads a frame and is then closed down. *)
Lemma port_is_accounted_for_witness :
  let g2 := exec (main (B := ascii_builtins) 5.0
                    [quiet_pass (line_tick 5.5 "100,200,3,2.5");
                     quit_pass (line_tick 5.6 "110,210,3,2.5")]
                    (good_wire "")) module_globals in
  ser g2 = None /\ opens (trace g2) = closes (trace g2).
Proof.
  apply (proj1 (proj2 (port_is_accounted_for (B := ascii_builtins) 5.0
                         [quiet_pass (line_tick 5.5 "100,200,3,2.5");
                          quit_pass (line_tick 5.6 "110,210,3,2.5")]
                         (good_wire "")))).
  vm_compute. reflexivity.
Defined.

(** Two passes with the device unplugged. *)
Lemma absent_device_shows_no_data_witness :
  waiting (exec (bind (boot 5.0)
                   (fun _ => main_loop (B := ascii_builtins)
                               [quiet_pass (idle_tick 5.5 unplugged);
                                quiet_pass (idle_tick 8.0 unplugged)]))
             module_globals).
Proof.
  apply (absent_device_shows_no_data (B := ascii_builtins)).
  intros p [<-|[<-|[]]]; reflexivity.
Defined.

(** A frame read and shown in the same pass. *)
Lemma taken_frame_survives_the_pass_witness :
  exists x y sx sy,
    trim_angle_of 100 = Return (F x) /\
    rpm_of 200 = Return (F y) /\
    seed_or_blend (F x) (I 180) = Return (F sx) /\
    seed_or_blend (F y) (I 3000) = Return (F sy) /\
    exec (tick (B := ascii_builtins) (line_tick 5.5 "100,200,3,2.5")) (fresh_link 5.0 1%nat) =
    taken (fresh_link 5.0 1%nat) 3 2.5 (F sx) (F sy) 5.5.
Proof.
  apply (taken_frame_survives_the_pass (B := ascii_builtins)
           (line_tick 5.5 "100,200,3,2.5") (fresh_link 5.0 1%nat) 1%nat
           (line "100,200,3,2.5") 100 200 3 2.5%float);
    try reflexivity.
  unfold parses. split; [vm_compute; discriminate|].
  split; [vm_compute; apply le_n|]. repeat split; vm_compute; reflexivity.
Defined.

(** Thirty frames of the same line. *)
Lemma steady_frames_settle_witness :
  exists x y qx qy sx sy qsx qsy,
    trim_angle_of 100 = Return (F x) /\ exact x = Some qx /\
    rpm_of 200 = Return (F y) /\ exact y = Some qy /\
    smoothed_rudder_angle
      (exec (feed (B := ascii_builtins) (good_wire "100,200,3,2.5") (repeat 5.5%float 30))
         (fresh_link 5.0 1%nat)) = F sx /\
    exact sx = Some qsx /\
    smoothed_engine_rpm
      (exec (feed (B := ascii_builtins) (good_wire "100,200,3,2.5") (repeat 5.5%float 30))
         (fresh_link 5.0 1%nat)) = F sy /\
    exact sy = Some qsy /\
    (Qabs (qsx - qx) <= 1 # 500)%Q /\
    (Qabs (qsy - qy) <= 1 # 10)%Q.
Proof.
  apply (steady_frames_settle (B := ascii_builtins)
           (good_wire "100,200,3,2.5") (fresh_link 5.0 1%nat) 1%nat
           (line "100,200,3,2.5") 100 200 3 2.5%float (repeat 5.5%float 30));
    try reflexivity; try lia.
  unfold parses. split; [vm_compute; discriminate|].
  split; [vm_compute; apply le_n|]. repeat split; vm_compute; reflexivity.
Defined.
